(** * go-pizza-tracker: the order model, the submission handler and the
      order repository, embedded in Rocq.

    Source files embedded here:
    - [internal/models/order.go]: vocabularies, the five persisted structs,
      their [BeforeCreate] hooks, [CreateOrder] and [GetOrder];
    - [internal/models] (database set-up): [InitDB];
    - [cmd/customer.go]: [OrderRequest], [HandleNewOrder], [serveCustomer].

    Go strings are byte strings and are modelled by [string]; a Go slice is a
    [list] ([nil] and the empty slice are both [[]]); a Go [map] is a [gmap];
    Go's [int] is a 64-bit integer, modelled by [Z] with its range written
    out where the code depends on it. *)

From Stdlib Require Import ZArith Ascii String.
From stdpp Require Import gmap strings list fin_maps pretty.

Local Open Scope string_scope.
Local Open Scope list_scope.
Local Open Scope Z_scope.

(** ** [internal/models/order.go]: vocabularies *)

Definition OrderStatusPlaced : string := "Order Placed".
Definition OrderStatusPreparing : string := "Preparing".
Definition OrderStatusCooking : string := "Cooking".
Definition OrderStatusQualityCheck : string := "Quality Check".
Definition OrderStatusReady : string := "Ready".

Definition OrderStatuses : list string :=
  [ OrderStatusPlaced; OrderStatusPreparing; OrderStatusCooking;
    OrderStatusQualityCheck; OrderStatusReady ].

Definition PizzaSauces : list string :=
  [ "Tomato Sauce"; "BBQ Sauce"; "Buffalo Sauce"; "Garlic Oil"; "Truffle Oil"; "Pesto" ].

Definition Cheeses : list string :=
  [ "Mozzarella"; "Vegan Cheese"; "Extra Cheese"; "Parmesan"; "Gorgonzola"; "Ricotta"; "Feta" ].

Definition PizzaTypes : list string :=
  [ "Margherita"; "Pepperoni"; "Vegetarian"; "Hawaiian"; "BBQ Chicken";
    "Meat Lovers"; "Buffalo Chicken"; "Supreme"; "Truffle Mushroom";
    "Four Cheese"; "Vegan Pizza"; "Vegan Meat Lovers"; "Vegan Garden";
    "Make Your Own"; "Garlic" ].

Definition PizzaCrust : list string :=
  [ "Thin"; "Regular"; "Deep Dish"; "Cheesy Crust"; "Vegan Cheesy Crust" ].

Definition PizzaSizes : list string :=
  [ "Small"; "Medium"; "Large"; "X-Large"; "Family" ].

Definition ToppingCategories : gmap string (list string) :=
  list_to_map
    [ ("Meats",
        [ "Pepperoni"; "Sausage"; "Chicken"; "Bacon"; "Ham"; "Mince"; "Anchovies" ]);
      ("Vegan Meats",
        [ "Vegan Pepperoni"; "Vegan Chicken"; "Vegan Bacon"; "Vegan Ham"; "Vegan Mince" ]);
      ("Vegetables",
        [ "Mushroom"; "Red Onion"; "White Onion"; "Capsicum"; "Zucchini";
          "Olives"; "Jalapenos"; "Pumpkin"; "Spinach"; "Pineapple";
          "Tomatoes"; "Basil"; "Corn"; "Rocket"; "Garlic Slices" ]);
      ("Cheeses",
        [ "Mozzarella"; "Extra Cheese"; "Vegan Cheese"; "Parmesan"; "Gorgonzola";
          "Ricotta"; "Feta" ]);
      ("Sauces",
        [ "Tomato Sauce"; "BBQ Sauce"; "Buffalo Sauce"; "Garlic Oil"; "Truffle Oil";
          "Pesto" ]) ].

(** The literal of [PizzaDefaultToppings], in source order. Its keys are
    pairwise distinct, so the map built from it has exactly these bindings. *)
Definition PizzaDefaultToppings_entries : list (string * list string) :=
  [ ("Margherita", [ "Tomato Sauce"; "Mozzarella"; "Tomatoes"; "Basil" ]);
    ("Pepperoni", [ "Tomato Sauce"; "Mozzarella"; "Pepperoni" ]);
    ("Vegetarian",
      [ "Tomato Sauce"; "Mozzarella"; "Mushroom"; "Capsicum"; "Red Onion"; "Olives";
        "Zucchini" ]);
    ("Hawaiian", [ "Tomato Sauce"; "Mozzarella"; "Ham"; "Pineapple" ]);
    ("BBQ Chicken",
      [ "BBQ Sauce"; "Mozzarella"; "Chicken"; "Red Onion"; "Capsicum"; "Bacon" ]);
    ("Meat Lovers",
      [ "Tomato Sauce"; "Mozzarella"; "Pepperoni"; "Sausage"; "Bacon"; "Ham"; "Mince" ]);
    ("Buffalo Chicken",
      [ "Buffalo Sauce"; "Mozzarella"; "Chicken"; "Red Onion"; "Jalapenos" ]);
    ("Supreme",
      [ "Tomato Sauce"; "Mozzarella"; "Pepperoni"; "Sausage"; "Mushroom"; "Capsicum";
        "Red Onion"; "Olives" ]);
    ("Truffle Mushroom",
      [ "Truffle Oil"; "Mozzarella"; "Mushroom"; "Garlic Oil"; "Rocket" ]);
    ("Four Cheese",
      [ "Tomato Sauce"; "Mozzarella"; "Parmesan"; "Gorgonzola"; "Ricotta" ]);
    ("Vegan Pizza",
      [ "Tomato Sauce"; "Vegan Cheese"; "White Onion"; "Basil"; "Capsicum";
        "Garlic Slices"; "Corn"; "Zucchini" ]);
    ("Vegan Meat Lovers",
      [ "BBQ Sauce"; "Vegan Cheese"; "White Onion"; "Vegan Ham"; "Vegan Mince";
        "Vegan Chicken"; "Vegan Bacon"; "Vegan Pepperoni" ]);
    ("Vegan Garden",
      [ "Pesto"; "Vegan Cheese"; "Red Onion"; "Mushroom"; "Pumpkin"; "Capsicum";
        "Zucchini"; "Spinach"; "Corn"; "Basil"; "Rocket" ]);
    ("Garlic", [ "Garlic"; "Mozzarella"; "Garlic Oil" ]);
    ("Make Your Own", []) ].

Definition PizzaDefaultToppings : gmap string (list string) :=
  list_to_map PizzaDefaultToppings_entries.

Definition DietaryRequirements : list string :=
  [ "Vegetarian"; "Vegan"; "Gluten-Free"; "Dairy-Free"; "Nut-Free"; "Halal"; "Kosher" ].

Definition Allergies : list string :=
  [ "Gluten"; "Dairy"; "Nuts"; "Peanuts"; "Shellfish"; "Soy"; "Eggs"; "Fish"; "Sesame" ].

(** Indexing a Go map of slices: a missing key reads as the nil slice. *)
Definition map_index {K} `{Countable K} (m : gmap K (list string)) (k : K) : list string :=
  default [] (m !! k).

(** ** [internal/models/order.go]: the persisted structs

    Every struct lives in a module of its own so that the fields keep the
    names they have in the source. *)

(** Junction table for toppings *)
Module OrderItemTopping.
Record t : Type := mk
  { ID : string; OrderItemID : string; Topping : string; IsExtra : bool }.
End OrderItemTopping.

(** Junction table for dietary requirements *)
Module OrderItemDietaryRequirement.
Record t : Type := mk
  { ID : string; OrderItemID : string; DietaryRequirement : string }.
End OrderItemDietaryRequirement.

(** Junction table for allergies *)
Module OrderItemAllergy.
Record t : Type := mk
  { ID : string; OrderItemID : string; Allergy : string }.
End OrderItemAllergy.

(** [OrderItem] has exactly the eight fields of the struct at
    order.go:106-115. There is no crust field. *)
Module OrderItem.
Record t : Type := mk
  { ID : string;
    OrderID : string;
    Size : string;
    Pizza : string;
    Instructions : string;
    DietaryRequirement : list OrderItemDietaryRequirement.t;
    Toppings : list OrderItemTopping.t;
    Allergies : list OrderItemAllergy.t }.
End OrderItem.

(** [time.Time], as the number of nanoseconds since Go's zero instant; the
    zero value of the type is [0]. *)
Definition Time : Type := Z.
Definition zero_time : Time := 0.

Module Order.
Record t : Type := mk
  { ID : string;
    Status : string;
    CustomerName : string;
    Phone : string;
    Address : string;
    Items : list OrderItem.t;
    CreatedAt : Time }.
End Order.

#[global] Instance OrderItemTopping_eq_dec : EqDecision OrderItemTopping.t.
Proof. solve_decision. Defined.
#[global] Instance OrderItemDietaryRequirement_eq_dec :
  EqDecision OrderItemDietaryRequirement.t.
Proof. solve_decision. Defined.
#[global] Instance OrderItemAllergy_eq_dec : EqDecision OrderItemAllergy.t.
Proof. solve_decision. Defined.
#[global] Instance OrderItem_eq_dec : EqDecision OrderItem.t.
Proof. solve_decision. Defined.
#[global] Instance Order_eq_dec : EqDecision Order.t.
Proof. solve_decision. Defined.

(** The zero value of [Order] ([var order Order]). *)
Definition zero_Order : Order.t := Order.mk "" "" "" "" "" [] zero_time.

(** ** Go library functions used by the handler *)

(** [strings.SplitN(s, ":", 2)]: the text before the first colon and the text
    after it, or the whole string alone when it holds no colon. *)
Fixpoint cut_colon (s : string) : option (string * string) :=
  match s with
  | EmptyString => None
  | String c rest =>
      if Ascii.eqb c ":"%char then Some (EmptyString, rest)
      else match cut_colon rest with
           | Some (before, after) => Some (String c before, after)
           | None => None
           end
  end.

Definition SplitN_colon_2 (s : string) : list string :=
  match cut_colon s with
  | Some (before, after) => [before; after]
  | None => [s]
  end.

(** [strconv.Atoi] on a 64-bit platform: an optional sign, then one or more
    decimal digits, the value within the range of [int]; anything else is an
    error ([None]). *)
Definition minInt : Z := - 2 ^ 63.
Definition maxInt : Z := 2 ^ 63 - 1.

Definition digit_value (c : ascii) : option Z :=
  let n := Z.of_N (N_of_ascii c) in
  if (48 <=? n) && (n <=? 57) then Some (n - 48) else None.

Fixpoint parse_digits (s : string) (acc : Z) : option Z :=
  match s with
  | EmptyString => Some acc
  | String c rest =>
      match digit_value c with
      | Some d => parse_digits rest (acc * 10 + d)
      | None => None
      end
  end.

Definition Atoi (s : string) : option Z :=
  match s with
  | EmptyString => None
  | String c rest =>
      let neg := Ascii.eqb c "-"%char in
      let body := if neg || Ascii.eqb c "+"%char then rest else s in
      match body with
      | EmptyString => None
      | _ =>
          match parse_digits body 0 with
          | Some n =>
              let v := if neg then - n else n in
              if (minInt <=? v) && (v <=? maxInt) then Some v else None
          | None => None
          end
      end
  end.

(** ** [cmd/customer.go]: the submission form and the order built from it *)

Module OrderRequest.
Record t : Type := mk
  { Name : string;
    Phone : string;
    Address : string;
    Sizes : list string;
    PizzaTypes : list string;
    Crusts : list string;
    Instructions : list string;
    Toppings : list string;
    DietaryRequirements : list string;
    Allergies : list string }.
End OrderRequest.

(** One turn of the loop at customer.go:67-77. Entries without a colon and
    entries whose prefix [Atoi] rejects are skipped by [continue]. *)
Definition parseTopping (toppingsMap : gmap Z (list string)) (t : string)
  : gmap Z (list string) :=
  match SplitN_colon_2 t with
  | [p0; p1] =>
      match Atoi p0 with
      | Some index => <[index := map_index toppingsMap index ++ [p1]]> toppingsMap
      | None => toppingsMap
      end
  | _ => toppingsMap
  end.

Definition parseToppings (toppings : list string) : gmap Z (list string) :=
  fold_left parseTopping toppings ∅.

(** The inner loop at customer.go:110-116: a topping is extra unless some
    default equals it. *)
Fixpoint isExtra (defaultToppings : list string) (topping : string) : bool :=
  match defaultToppings with
  | [] => true
  | def :: rest => if decide (def = topping) then false else isExtra rest topping
  end.

(** The local [crust] of customer.go:81-84. *)
Definition crustOf (form : OrderRequest.t) (i : nat) : string :=
  match OrderRequest.Crusts form !! i with
  | Some c => if decide (c = "") then "Regular" else c
  | None => "Regular"
  end.

(** The local [instruction] of customer.go:86-89. *)
Definition instructionOf (form : OrderRequest.t) (i : nat) : string :=
  default "" (OrderRequest.Instructions form !! i).

(** The topping selection the classification loop runs over
    (customer.go:99-104). *)
Definition pizzaToppingsOf (toppingsMap : gmap Z (list string)) (pizza : string) (i : nat)
  : list string :=
  let pizzaToppings := map_index toppingsMap (Z.of_nat i) in
  if decide (length pizzaToppings = 0%nat)
  then map_index PizzaDefaultToppings pizza
  else pizzaToppings.

Definition toppingRows (defaultToppings pizzaToppings : list string)
  : list OrderItemTopping.t :=
  map (fun topping => OrderItemTopping.mk "" "" topping (isExtra defaultToppings topping))
      pizzaToppings.

Definition dietaryRows (l : list string) : list OrderItemDietaryRequirement.t :=
  map (fun dietary => OrderItemDietaryRequirement.mk "" "" dietary) l.

Definition allergyRows (l : list string) : list OrderItemAllergy.t :=
  map (fun allergy => OrderItemAllergy.mk "" "" allergy) l.

(** The body of the loop at customer.go:80-137 for index [i]. [None] is the
    run-time panic of [form.PizzaTypes[i]] (or [form.Sizes[i]]) out of range.
    The struct literal at customer.go:91-96 names a field [Crust]; the struct
    [OrderItem] has none, so the computed [crustOf form i] is stored nowhere. *)
Definition buildItem (form : OrderRequest.t) (toppingsMap : gmap Z (list string))
    (i : nat) : option OrderItem.t :=
  size ← OrderRequest.Sizes form !! i;
  pizza ← OrderRequest.PizzaTypes form !! i;
  let crust := crustOf form i in
  let instruction := instructionOf form i in
  let pizzaToppings := pizzaToppingsOf toppingsMap pizza i in
  let defaultToppings := map_index PizzaDefaultToppings pizza in
  Some (OrderItem.mk "" "" size pizza instruction
          (dietaryRows (OrderRequest.DietaryRequirements form))
          (toppingRows defaultToppings pizzaToppings)
          (allergyRows (OrderRequest.Allergies form))).

Definition buildItems (form : OrderRequest.t) : option (list OrderItem.t) :=
  mapM (buildItem form (parseToppings (OrderRequest.Toppings form)))
       (seq 0 (length (OrderRequest.Sizes form))).

(** The order literal at customer.go:139-145. *)
Definition buildOrder (form : OrderRequest.t) : option Order.t :=
  orderItems ← buildItems form;
  Some (Order.mk "" OrderStatusPlaced (OrderRequest.Name form) (OrderRequest.Phone form)
          (OrderRequest.Address form) orderItems zero_time).

(** ** Field updates

    Go assigns to single fields of a struct; each assignment used by the code
    below is a function here. *)

Definition Order_with_ID (id : string) (o : Order.t) : Order.t :=
  Order.mk id (Order.Status o) (Order.CustomerName o) (Order.Phone o) (Order.Address o)
    (Order.Items o) (Order.CreatedAt o).

Definition Order_with_CreatedAt (now : Time) (o : Order.t) : Order.t :=
  Order.mk (Order.ID o) (Order.Status o) (Order.CustomerName o) (Order.Phone o)
    (Order.Address o) (Order.Items o) now.

Definition Order_with_Items (items : list OrderItem.t) (o : Order.t) : Order.t :=
  Order.mk (Order.ID o) (Order.Status o) (Order.CustomerName o) (Order.Phone o)
    (Order.Address o) items (Order.CreatedAt o).

Definition OrderItem_with_ID (id : string) (oi : OrderItem.t) : OrderItem.t :=
  OrderItem.mk id (OrderItem.OrderID oi) (OrderItem.Size oi) (OrderItem.Pizza oi)
    (OrderItem.Instructions oi) (OrderItem.DietaryRequirement oi) (OrderItem.Toppings oi)
    (OrderItem.Allergies oi).

Definition OrderItem_with_OrderID (id : string) (oi : OrderItem.t) : OrderItem.t :=
  OrderItem.mk (OrderItem.ID oi) id (OrderItem.Size oi) (OrderItem.Pizza oi)
    (OrderItem.Instructions oi) (OrderItem.DietaryRequirement oi) (OrderItem.Toppings oi)
    (OrderItem.Allergies oi).

Definition OrderItem_with_DietaryRequirement (l : list OrderItemDietaryRequirement.t)
    (oi : OrderItem.t) : OrderItem.t :=
  OrderItem.mk (OrderItem.ID oi) (OrderItem.OrderID oi) (OrderItem.Size oi)
    (OrderItem.Pizza oi) (OrderItem.Instructions oi) l (OrderItem.Toppings oi)
    (OrderItem.Allergies oi).

Definition OrderItem_with_Toppings (l : list OrderItemTopping.t) (oi : OrderItem.t)
  : OrderItem.t :=
  OrderItem.mk (OrderItem.ID oi) (OrderItem.OrderID oi) (OrderItem.Size oi)
    (OrderItem.Pizza oi) (OrderItem.Instructions oi) (OrderItem.DietaryRequirement oi) l
    (OrderItem.Allergies oi).

Definition OrderItem_with_Allergies (l : list OrderItemAllergy.t) (oi : OrderItem.t)
  : OrderItem.t :=
  OrderItem.mk (OrderItem.ID oi) (OrderItem.OrderID oi) (OrderItem.Size oi)
    (OrderItem.Pizza oi) (OrderItem.Instructions oi) (OrderItem.DietaryRequirement oi)
    (OrderItem.Toppings oi) l.

Definition Topping_with_ID (id : string) (t : OrderItemTopping.t) : OrderItemTopping.t :=
  OrderItemTopping.mk id (OrderItemTopping.OrderItemID t) (OrderItemTopping.Topping t)
    (OrderItemTopping.IsExtra t).

Definition Topping_with_OrderItemID (id : string) (t : OrderItemTopping.t)
  : OrderItemTopping.t :=
  OrderItemTopping.mk (OrderItemTopping.ID t) id (OrderItemTopping.Topping t)
    (OrderItemTopping.IsExtra t).

Definition Dietary_with_ID (id : string) (d : OrderItemDietaryRequirement.t)
  : OrderItemDietaryRequirement.t :=
  OrderItemDietaryRequirement.mk id (OrderItemDietaryRequirement.OrderItemID d)
    (OrderItemDietaryRequirement.DietaryRequirement d).

Definition Dietary_with_OrderItemID (id : string) (d : OrderItemDietaryRequirement.t)
  : OrderItemDietaryRequirement.t :=
  OrderItemDietaryRequirement.mk (OrderItemDietaryRequirement.ID d) id
    (OrderItemDietaryRequirement.DietaryRequirement d).

Definition Allergy_with_ID (id : string) (a : OrderItemAllergy.t) : OrderItemAllergy.t :=
  OrderItemAllergy.mk id (OrderItemAllergy.OrderItemID a) (OrderItemAllergy.Allergy a).

Definition Allergy_with_OrderItemID (id : string) (a : OrderItemAllergy.t)
  : OrderItemAllergy.t :=
  OrderItemAllergy.mk (OrderItemAllergy.ID a) id (OrderItemAllergy.Allergy a).

(** ** The world outside the program

    [shortid.MustGenerate], the wall clock and the storage engine are not
    code of this repository. They are an environment: the sequence of
    identifiers the generator returns, the time that [time.Now] reports, and
    the set of statement numbers at which the storage engine fails. *)

Record Env : Type := mkEnv
  { shortid_seq : nat -> string;
    clock : Time;
    faulty : nat -> bool }.

(** A Go [error] value; [nil] is [None] of [option error]. *)
Inductive error : Type :=
  | ErrRecordNotFound   (* gorm.ErrRecordNotFound *)
  | ErrDuplicatedKey    (* UNIQUE constraint failed on a primary key *)
  | ErrStorage.         (* any other failure of the storage engine *)

#[global] Instance error_eq_dec : EqDecision error.
Proof. solve_decision. Defined.

(** The five tables that [InitDB] migrates. A table is the list of its rows
    in insertion order. A row of [orders] is an [Order] with no items and a
    row of [order_items] an [OrderItem] with empty collections: the
    associations are not columns. *)
Record Store : Type := mkStore
  { orders : list Order.t;
    order_items : list OrderItem.t;
    order_item_dietary_requirements : list OrderItemDietaryRequirement.t;
    order_item_toppings : list OrderItemTopping.t;
    order_item_allergies : list OrderItemAllergy.t }.

Definition empty_Store : Store := mkStore [] [] [] [] [].

(** The mutable state: the database, how many identifiers the generator has
    handed out, and how many statements the storage engine has been sent. *)
Record St : Type := mkSt
  { store : Store;
    generated : nat;
    executed : nat }.

Definition St_with_generated (g : nat) (st : St) : St :=
  mkSt (store st) g (executed st).

(** [shortid.MustGenerate()] *)
Definition MustGenerate (env : Env) (g : nat) : string * nat :=
  (shortid_seq env g, S g).

(** ** [internal/models/order.go]: the [BeforeCreate] hooks (lines 139-174) *)

Definition Order_BeforeCreate (env : Env) (o : Order.t) (g : nat) : Order.t * nat :=
  if decide (Order.ID o = "")
  then let '(id, g') := MustGenerate env g in (Order_with_ID id o, g')
  else (o, g).

Definition OrderItem_BeforeCreate (env : Env) (oi : OrderItem.t) (g : nat)
  : OrderItem.t * nat :=
  if decide (OrderItem.ID oi = "")
  then let '(id, g') := MustGenerate env g in (OrderItem_with_ID id oi, g')
  else (oi, g).

Definition OrderItemTopping_BeforeCreate (env : Env) (t : OrderItemTopping.t) (g : nat)
  : OrderItemTopping.t * nat :=
  if decide (OrderItemTopping.ID t = "")
  then let '(id, g') := MustGenerate env g in (Topping_with_ID id t, g')
  else (t, g).

Definition OrderItemDietaryRequirement_BeforeCreate (env : Env)
    (d : OrderItemDietaryRequirement.t) (g : nat) : OrderItemDietaryRequirement.t * nat :=
  if decide (OrderItemDietaryRequirement.ID d = "")
  then let '(id, g') := MustGenerate env g in (Dietary_with_ID id d, g')
  else (d, g).

Definition OrderItemAllergy_BeforeCreate (env : Env) (a : OrderItemAllergy.t) (g : nat)
  : OrderItemAllergy.t * nat :=
  if decide (OrderItemAllergy.ID a = "")
  then let '(id, g') := MustGenerate env g in (Allergy_with_ID id a, g')
  else (a, g).

(** ** The ORM and the database engine

    [gorm.DB.Create], [Preload] and [First], and the SQLite engine under
    them, are library code. They are modelled after the library's documented
    behaviour, as far as [CreateOrder] and [GetOrder] use it:
    - [Create] runs inside a transaction unless the configuration sets
      [SkipDefaultTransaction];
    - it calls the value's [BeforeCreate] hook, fills a zero [CreatedAt] with
      the current time and inserts the row; a primary key that is already in
      the table is a constraint violation;
    - it then saves the has-many associations: every child receives its
      owner's key as foreign key, the children of one association are
      created as one batch (hooks first, then one
      [INSERT ... ON CONFLICT (id) DO UPDATE SET <foreign key>] statement),
      and the children's own associations follow; while it collects a
      batch it leaves out a child whose primary key is not empty and is that
      of a child collected before; once a statement has failed, the
      associations that follow still receive their owner's key, but no hook
      is called and no statement is sent for them;
    - [First] returns the first row that matches, or [ErrRecordNotFound];
    - [Preload] fetches the rows of an association with one query for all
      owners and hands every owner its rows in the order of the result;
      a query without [ORDER BY] returns rows in insertion order; nested
      preloads run in the order of their names, and the rows of the outer
      association are handed over only when all of them succeeded. *)

Module gorm.

Record Config : Type := mkConfig { SkipDefaultTransaction : bool }.

(** [&gorm.Config{}] *)
Definition zero_Config : Config := mkConfig false.

Record DB : Type := mkDB { config : Config }.

Definition Open (cfg : Config) : DB := mkDB cfg.

End gorm.

(** One statement sent to the storage engine. *)
Definition exec (env : Env) (q : Store -> option error * Store) (st : St)
  : option error * St :=
  if faulty env (executed st)
  then (Some ErrStorage, mkSt (store st) (generated st) (S (executed st)))
  else let '(e, s) := q (store st) in (e, mkSt s (generated st) (S (executed st))).

(** Calling a hook on every element of a batch, in order. *)
Fixpoint mapAccum {A : Type} (f : A -> nat -> A * nat) (l : list A) (g : nat)
  : list A * nat :=
  match l with
  | [] => ([], g)
  | x :: l' =>
      let '(x', g1) := f x g in
      let '(l'', g2) := mapAccum f l' g1 in
      (x' :: l'', g2)
  end.

(** [INSERT ... ON CONFLICT (id) DO UPDATE SET fk = excluded.fk], one row. *)
Fixpoint upsert {A : Type} (pk : A -> string) (update : A -> A -> A) (tbl : list A)
    (row : A) : list A :=
  match tbl with
  | [] => [row]
  | r :: tbl' =>
      if decide (pk r = pk row) then update r row :: tbl'
      else r :: upsert pk update tbl' row
  end.

Definition upsert_all {A : Type} (pk : A -> string) (update : A -> A -> A)
    (tbl rows : list A) : list A :=
  fold_left (upsert pk update) rows tbl.

Definition order_row (o : Order.t) : Order.t := Order_with_Items [] o.

Definition item_row (oi : OrderItem.t) : OrderItem.t :=
  OrderItem_with_Allergies []
    (OrderItem_with_Toppings [] (OrderItem_with_DietaryRequirement [] oi)).

(** [INSERT INTO orders]: a plain insert. *)
Definition insert_order (o : Order.t) (s : Store) : option error * Store :=
  if decide (Order.ID o ∈ map Order.ID (orders s))
  then (Some ErrDuplicatedKey, s)
  else (None,
        mkStore (orders s ++ [order_row o]) (order_items s)
          (order_item_dietary_requirements s) (order_item_toppings s)
          (order_item_allergies s)).

Definition upsert_item_rows (tbl rows : list OrderItem.t) : list OrderItem.t :=
  upsert_all OrderItem.ID
    (fun old new => OrderItem_with_OrderID (OrderItem.OrderID new) old) tbl rows.

Definition upsert_items (rows : list OrderItem.t) (s : Store) : option error * Store :=
  (None,
   mkStore (orders s) (upsert_item_rows (order_items s) (map item_row rows))
     (order_item_dietary_requirements s) (order_item_toppings s)
     (order_item_allergies s)).

(** A has-many association of [OrderItem]: the field, the child's key and
    foreign key, its hook and its table. *)
Record HasMany (A : Type) : Type := mkHasMany
  { hm_children : OrderItem.t -> list A;
    hm_with_children : list A -> OrderItem.t -> OrderItem.t;
    hm_ID : A -> string;
    hm_OrderItemID : A -> string;
    hm_with_OrderItemID : string -> A -> A;
    hm_BeforeCreate : Env -> A -> nat -> A * nat;
    hm_table : Store -> list A;
    hm_with_table : list A -> Store -> Store }.

Arguments hm_children {A}.
Arguments hm_with_children {A}.
Arguments hm_ID {A}.
Arguments hm_OrderItemID {A}.
Arguments hm_with_OrderItemID {A}.
Arguments hm_BeforeCreate {A}.
Arguments hm_table {A}.
Arguments hm_with_table {A}.

Definition DietaryRequirement_rel : HasMany OrderItemDietaryRequirement.t :=
  mkHasMany _ OrderItem.DietaryRequirement OrderItem_with_DietaryRequirement
    OrderItemDietaryRequirement.ID OrderItemDietaryRequirement.OrderItemID
    Dietary_with_OrderItemID OrderItemDietaryRequirement_BeforeCreate
    order_item_dietary_requirements
    (fun l s => mkStore (orders s) (order_items s) l (order_item_toppings s)
                  (order_item_allergies s)).

Definition Toppings_rel : HasMany OrderItemTopping.t :=
  mkHasMany _ OrderItem.Toppings OrderItem_with_Toppings
    OrderItemTopping.ID OrderItemTopping.OrderItemID
    Topping_with_OrderItemID OrderItemTopping_BeforeCreate
    order_item_toppings
    (fun l s => mkStore (orders s) (order_items s) (order_item_dietary_requirements s) l
                  (order_item_allergies s)).

Definition Allergies_rel : HasMany OrderItemAllergy.t :=
  mkHasMany _ OrderItem.Allergies OrderItem_with_Allergies
    OrderItemAllergy.ID OrderItemAllergy.OrderItemID
    Allergy_with_OrderItemID OrderItemAllergy_BeforeCreate
    order_item_allergies
    (fun l s => mkStore (orders s) (order_items s) (order_item_dietary_requirements s)
                  (order_item_toppings s) l).

(** The children of a batch of items, in item order. *)
Definition all_children {A : Type} (R : HasMany A) (items : list OrderItem.t) : list A :=
  concat (map (hm_children R) items).

(** Every child receives its owner's key. *)
Definition set_owner {A : Type} (R : HasMany A) (oi : OrderItem.t) : OrderItem.t :=
  hm_with_children R
    (map (hm_with_OrderItemID R (OrderItem.ID oi)) (hm_children R oi)) oi.

(** The children of a batch of items replaced by the rows [cs], item by
    item. *)
Fixpoint with_all_children {A : Type} (R : HasMany A) (cs : list A)
    (items : list OrderItem.t) : list OrderItem.t :=
  match items with
  | [] => []
  | oi :: items' =>
      let n := length (hm_children R oi) in
      hm_with_children R (take n cs) oi :: with_all_children R (drop n cs) items'
  end.

(** The identity map of a batch: a row without identifier is always saved, a
    row with an identifier only when no row before it carries the same.
    [firsts seen ids] marks the rows that are saved, [seen] being the
    identifiers met so far. *)
Fixpoint firsts (seen ids : list string) : list bool :=
  match ids with
  | [] => []
  | id :: ids' =>
      if decide (id = "") then true :: firsts seen ids'
      else if decide (id ∈ seen) then false :: firsts seen ids'
      else true :: firsts (id :: seen) ids'
  end.

(** The rows at the marked positions, and the batch with the rows at the
    marked positions replaced, in order. *)
Fixpoint pick {A : Type} (mask : list bool) (l : list A) : list A :=
  match mask, l with
  | true :: mask', x :: l' => x :: pick mask' l'
  | false :: mask', _ :: l' => pick mask' l'
  | _, _ => []
  end.

Fixpoint put {A : Type} (mask : list bool) (new old : list A) : list A :=
  match mask, old with
  | true :: mask', x :: old' =>
      match new with
      | y :: new' => y :: put mask' new' old'
      | [] => x :: put mask' [] old'
      end
  | false :: mask', x :: old' => x :: put mask' new old'
  | _, _ => old
  end.

Definition upsert_rows {A : Type} (R : HasMany A) (tbl rows : list A) : list A :=
  upsert_all (hm_ID R)
    (fun old new => hm_with_OrderItemID R (hm_OrderItemID R new) old) tbl rows.

Definition upsert_children {A : Type} (R : HasMany A) (rows : list A) (s : Store)
  : option error * Store :=
  (None, hm_with_table R (upsert_rows R (hm_table R s) rows) s).

(** Saving one association for a batch of items. Every child receives its
    owner's key; the children that the identity map lets through are hooked
    and upserted with one statement; the others stay as they are. Nothing
    is sent to the database when no item has a child. *)
Definition saveHasMany {A : Type} (R : HasMany A) (env : Env)
    (items : list OrderItem.t) (st : St) : option error * list OrderItem.t * St :=
  let items1 := map (set_owner R) items in
  let rows := all_children R items1 in
  match rows with
  | [] => (None, items1, st)
  | _ :: _ =>
      let saved := firsts [] (map (hm_ID R) rows) in
      let '(elems, g) :=
        mapAccum (hm_BeforeCreate R env) (pick saved rows) (generated st) in
      let '(e, st') := exec env (upsert_children R elems) (St_with_generated g st) in
      (e, with_all_children R (put saved elems rows) items1, st')
  end.

(** Go's early return on a non-nil error. *)
Definition andThen {X : Type} (r : option error * X * St)
    (k : X -> St -> option error * X * St) : option error * X * St :=
  match r with
  | (Some err, x, st) => (Some err, x, st)
  | (None, x, st) => k x st
  end.

(** The associations of [OrderItem], in the order of the struct's fields.
    After a failure the associations that remain only receive their
    owner's key. *)
Definition saveItemAssociations (env : Env) (items : list OrderItem.t) (st : St)
  : option error * list OrderItem.t * St :=
  let '(e1, items1, st1) := saveHasMany DietaryRequirement_rel env items st in
  match e1 with
  | Some err =>
      (Some err, map (set_owner Allergies_rel) (map (set_owner Toppings_rel) items1), st1)
  | None =>
      let '(e2, items2, st2) := saveHasMany Toppings_rel env items1 st1 in
      match e2 with
      | Some err => (Some err, map (set_owner Allergies_rel) items2, st2)
      | None => saveHasMany Allergies_rel env items2 st2
      end
  end.

(** Saving [Order.Items]: every item receives the order's key; the items
    that the identity map lets through are hooked and upserted with one
    statement, and their associations are saved; the others stay as they
    are, and so do their collections. *)
Definition saveItems (env : Env) (o : Order.t) (st : St)
  : option error * Order.t * St :=
  let items1 := map (OrderItem_with_OrderID (Order.ID o)) (Order.Items o) in
  match items1 with
  | [] => (None, o, st)
  | _ :: _ =>
      let saved := firsts [] (map OrderItem.ID items1) in
      let '(elems, g) :=
        mapAccum (OrderItem_BeforeCreate env) (pick saved items1) (generated st) in
      let '(e, st1) := exec env (upsert_items elems) (St_with_generated g st) in
      match e with
      | Some err => (Some err, Order_with_Items (put saved elems items1) o, st1)
      | None =>
          let '(e', elems', st2) := saveItemAssociations env elems st1 in
          (e', Order_with_Items (put saved elems' items1) o, st2)
      end
  end.

(** The callbacks of [Create] between the start of the transaction and its
    end: hook, time stamp, insert, associations. *)
Definition create_callbacks (env : Env) (order : Order.t) (st : St)
  : option error * Order.t * St :=
  let '(o1, g) := Order_BeforeCreate env order (generated st) in
  let o2 :=
    if decide (Order.CreatedAt o1 = zero_time)
    then Order_with_CreatedAt (clock env) o1 else o1 in
  let '(e, st1) := exec env (insert_order o2) (St_with_generated g st) in
  match e with
  | Some err => (Some err, o2, st1)
  | None => saveItems env o2 st1
  end.

Definition no_op (s : Store) : option error * Store := (None, s).

(** Undoing the writes of a transaction: the database is the one the
    transaction started from. Identifiers handed out stay handed out. *)
Definition rollback (snapshot : St) (st : St) : St :=
  mkSt (store snapshot) (generated st) (executed st).

(** [db.Create(value)] for an [*Order]. The value is updated in place; the
    updated value is returned next to the error. *)
Definition gorm_Create (db : gorm.DB) (env : Env) (order : Order.t) (st : St)
  : option error * Order.t * St :=
  if gorm.SkipDefaultTransaction (gorm.config db)
  then create_callbacks env order st
  else
    let '(e0, st0) := exec env no_op st in                  (* BEGIN *)
    match e0 with
    | Some err => (Some err, order, st0)
    | None =>
        let '(e, o, st1) := create_callbacks env order st0 in
        match e with
        | Some err => (Some err, o, rollback st st1)        (* ROLLBACK *)
        | None =>
            let '(e2, st2) := exec env no_op st1 in         (* COMMIT *)
            match e2 with
            | Some err => (Some err, o, rollback st st2)
            | None => (None, o, st2)
            end
        end
    end.

(** One [SELECT] sent to the storage engine. *)
Definition query {X : Type} (env : Env) (q : Store -> X) (st : St)
  : (error + X) * St :=
  let st' := mkSt (store st) (generated st) (S (executed st)) in
  if faulty env (executed st) then (inl ErrStorage, st') else (inr (q (store st)), st').

Definition select_eq {A : Type} (col : A -> string) (v : string) (tbl : list A) : list A :=
  filter (fun r => col r = v) tbl.

Definition select_in {A : Type} (col : A -> string) (vs : list string) (tbl : list A)
  : list A :=
  filter (fun r => col r ∈ vs) tbl.

(** [Preload] of one association of the items: one query, then every item
    takes the rows that carry its key. *)
Definition preloadHasMany {A : Type} (R : HasMany A) (env : Env)
    (items : list OrderItem.t) (st : St) : option error * list OrderItem.t * St :=
  let '(r, st') :=
    query env (fun s => select_in (hm_OrderItemID R) (map OrderItem.ID items) (hm_table R s))
      st in
  match r with
  | inl err => (Some err, items, st')
  | inr rows =>
      (None,
       map (fun oi => hm_with_children R (select_eq (hm_OrderItemID R) (OrderItem.ID oi) rows) oi)
           items,
       st')
  end.

(** [Preload("Items.Toppings").Preload("Items.DietaryRequirement")
    .Preload("Items.Allergies")]: the items of the order, then the three
    collections of the items, in the order of their names. The order
    receives its items when the three collections are loaded. *)
Definition preloadItems (env : Env) (o : Order.t) (st : St)
  : option error * Order.t * St :=
  let '(r, st1) := query env (fun s => select_in OrderItem.OrderID [Order.ID o] (order_items s)) st in
  match r with
  | inl err => (Some err, o, st1)
  | inr [] => (None, o, st1)
  | inr items =>
      let '(e, items', st2) :=
        andThen
          (andThen (preloadHasMany Allergies_rel env items st1)
             (preloadHasMany DietaryRequirement_rel env))
          (preloadHasMany Toppings_rel env) in
      match e with
      | Some err => (Some err, o, st2)
      | None => (None, Order_with_Items items' o, st2)
      end
  end.

(** ** [internal/models]: the repository *)

Record OrderModel : Type := mkOrderModel { DB : gorm.DB }.

Record DBModel : Type := mkDBModel { Order : OrderModel }.

(** [InitDB], on the path where opening and migrating succeed. The
    configuration is the zero [gorm.Config]. *)
Definition InitDB : DBModel :=
  mkDBModel (mkOrderModel (gorm.Open gorm.zero_Config)).

(** order.go:175-177 *)
Definition CreateOrder (o : OrderModel) (env : Env) (order : Order.t) (st : St)
  : option error * Order.t * St :=
  gorm_Create (DB o) env order st.

(** order.go:179-185. The function returns the pointer to its local [order]
    together with the error, whatever the error is. *)
Definition GetOrder (o : OrderModel) (env : Env) (id : string) (st : St)
  : (Order.t * option error) * St :=
  let order := zero_Order in
  let '(r, st1) := query env (fun s => select_eq Order.ID id (orders s)) st in
  match r with
  | inl err => ((order, Some err), st1)
  | inr [] => ((order, Some ErrRecordNotFound), st1)
  | inr (row :: _) =>
      let '(e, order', st2) := preloadItems env row st1 in
      ((order', e), st2)
  end.

(** ** [cmd]: the handlers *)

Module Handler.
Record t : Type := mk { orders : OrderModel }.
End Handler.

Definition NewHandler (dbModel : DBModel) : Handler.t :=
  Handler.mk (Order dbModel).

Module CustomerData.
Record t : Type := mk { Title : string; Order : Order.t; Statuses : list string }.
End CustomerData.

(** What a handler writes to the response. *)
Inductive Reply : Type :=
  | ReplyJSON (status : Z) (err : string)
  | ReplyString (status : Z) (body : string)
  | ReplyRedirect (status : Z) (location : string)
  | ReplyHTML (status : Z) (template : string) (data : CustomerData.t).

(** A handler either returns after its writes or panics. *)
Inductive Outcome : Type :=
  | Replied (writes : list Reply)
  | Panicked.

Definition StatusOK : Z := 200.
Definition StatusSeeOther : Z := 303.
Definition StatusBadRequest : Z := 400.
Definition StatusNotFound : Z := 404.
Definition StatusInternalServerError : Z := 500.

(** customer.go:58-155. The result of [c.ShouldBind(&form)] is an input:
    the binding error, or the bound form. *)
Definition HandleNewOrder (h : Handler.t) (env : Env) (bound : string + OrderRequest.t)
    (st : St) : Outcome * St :=
  match bound with
  | inl err => (Replied [ReplyJSON StatusBadRequest err], st)
  | inr form =>
      match buildOrder form with
      | None => (Panicked, st)
      | Some order =>
          let '(e, order', st') := CreateOrder (Handler.orders h) env order st in
          match e with
          | Some _ =>
              (Replied [ReplyString StatusInternalServerError "Something went wrong"], st')
          | None =>
              (Replied [ReplyRedirect StatusSeeOther ("/customer/" +:+ Order.ID order')], st')
          end
      end
  end.

(** customer.go:157-175. The branch for an empty identifier writes its
    answer and does not return. *)
Definition serveCustomer (h : Handler.t) (env : Env) (orderID : string) (st : St)
  : Outcome * St :=
  let first :=
    if decide (orderID = "")
    then [ReplyString StatusBadRequest "Order ID is required"] else [] in
  let '((order, err), st') := GetOrder (Handler.orders h) env orderID st in
  match err with
  | Some _ => (Replied (first ++ [ReplyString StatusNotFound "Order Not Found"]), st')
  | None =>
      (Replied
         (first ++
          [ReplyHTML StatusOK "customer.tmpl"
             (CustomerData.mk ("Pizza Order Status" +:+ orderID) order OrderStatuses)]),
       st')
  end.

(** ** Notions used to state the properties *)

(** What a well-formed topping entry ["index:label"] denotes. *)
Definition entry_of (t : string) : option (Z * string) :=
  match cut_colon t with
  | Some (p0, p1) =>
      match Atoi p0 with
      | Some index => Some (index, p1)
      | None => None
      end
  | None => None
  end.

(** An entry with no colon, or with a prefix that is not an integer. *)
Definition malformed (t : string) : Prop :=
  cut_colon t = None \/
  exists p0 p1, cut_colon t = Some (p0, p1) /\ Atoi p0 = None.

(** The labels of the well-formed entries that carry index [k], in order. *)
Definition labels_at (k : Z) (toppings : list string) : list string :=
  omap (fun t =>
          match entry_of t with
          | Some (index, label) => if decide (index = k) then Some label else None
          | None => None
          end) toppings.

Definition with_Toppings (l : list string) (form : OrderRequest.t) : OrderRequest.t :=
  OrderRequest.mk (OrderRequest.Name form) (OrderRequest.Phone form)
    (OrderRequest.Address form) (OrderRequest.Sizes form) (OrderRequest.PizzaTypes form)
    (OrderRequest.Crusts form) (OrderRequest.Instructions form) l
    (OrderRequest.DietaryRequirements form) (OrderRequest.Allergies form).

Definition with_Crusts (l : list string) (form : OrderRequest.t) : OrderRequest.t :=
  OrderRequest.mk (OrderRequest.Name form) (OrderRequest.Phone form)
    (OrderRequest.Address form) (OrderRequest.Sizes form) (OrderRequest.PizzaTypes form)
    l (OrderRequest.Instructions form) (OrderRequest.Toppings form)
    (OrderRequest.DietaryRequirements form) (OrderRequest.Allergies form).

(** A graph with its identifiers, owner keys and time stamp blanked: what is
    left is the content the caller chose, in the caller's order. *)
Definition strip_item (oi : OrderItem.t) : OrderItem.t :=
  OrderItem.mk "" "" (OrderItem.Size oi) (OrderItem.Pizza oi) (OrderItem.Instructions oi)
    (map (fun d => OrderItemDietaryRequirement.mk "" ""
                     (OrderItemDietaryRequirement.DietaryRequirement d))
         (OrderItem.DietaryRequirement oi))
    (map (fun t => OrderItemTopping.mk "" "" (OrderItemTopping.Topping t)
                     (OrderItemTopping.IsExtra t))
         (OrderItem.Toppings oi))
    (map (fun a => OrderItemAllergy.mk "" "" (OrderItemAllergy.Allergy a))
         (OrderItem.Allergies oi)).

Definition strip (o : Order.t) : Order.t :=
  Order.mk "" (Order.Status o) (Order.CustomerName o) (Order.Phone o) (Order.Address o)
    (map strip_item (Order.Items o)) zero_time.

(** The keys of a table and the owner keys found in it. *)
Definition item_keys (s : Store) : list string := map OrderItem.ID (order_items s).
Definition item_owners (s : Store) : list string := map OrderItem.OrderID (order_items s).
Definition child_keys {A : Type} (R : HasMany A) (s : Store) : list string :=
  map (hm_ID R) (hm_table R s).
Definition child_owners {A : Type} (R : HasMany A) (s : Store) : list string :=
  map (hm_OrderItemID R) (hm_table R s).

(** Every row of the graph is a row of the table of its kind: the header
    and the items without their collections, the junction rows as they
    are. *)
Definition children_persisted {A : Type} (R : HasMany A) (s : Store) (o : Order.t) : Prop :=
  Forall (fun oi => Forall (fun c => c ∈ hm_table R s) (hm_children R oi))
         (Order.Items o).

Definition persisted (s : Store) (o : Order.t) : Prop :=
  (order_row o ∈ orders s) /\
  Forall (fun oi => item_row oi ∈ order_items s) (Order.Items o) /\
  children_persisted DietaryRequirement_rel s o /\
  children_persisted Toppings_rel s o /\
  children_persisted Allergies_rel s o.

(** The database [s] with the rows of a graph added at the end of their
    tables, and nothing else changed. *)
Definition appended (s : Store) (o : Order.t) : Store :=
  mkStore (orders s ++ [order_row o])
    (order_items s ++ map item_row (Order.Items o))
    (order_item_dietary_requirements s ++
     all_children DietaryRequirement_rel (Order.Items o))
    (order_item_toppings s ++ all_children Toppings_rel (Order.Items o))
    (order_item_allergies s ++ all_children Allergies_rel (Order.Items o)).

(** The identifiers a caller supplied: those that are not empty. *)
Definition supplied (ids : list string) : list string :=
  filter (fun id => id <> "") ids.

(** Row by row, an identifier that was supplied is still there. *)
Definition same_supplied {A : Type} (ID : A -> string) (l l' : list A) : Prop :=
  Forall2 (fun x x' => ID x <> "" -> ID x' = ID x) l l'.

Definition item_same_supplied (oi oi' : OrderItem.t) : Prop :=
  (OrderItem.ID oi <> "" -> OrderItem.ID oi' = OrderItem.ID oi) /\
  same_supplied OrderItemDietaryRequirement.ID
    (OrderItem.DietaryRequirement oi) (OrderItem.DietaryRequirement oi') /\
  same_supplied OrderItemTopping.ID (OrderItem.Toppings oi) (OrderItem.Toppings oi') /\
  same_supplied OrderItemAllergy.ID (OrderItem.Allergies oi) (OrderItem.Allergies oi').

(** No supplied identifier occurs twice among the items, nor twice among the
    junction rows of one kind. *)
Definition distinct_supplied (o : Order.t) : Prop :=
  NoDup (supplied (map OrderItem.ID (Order.Items o))) /\
  NoDup (supplied (map OrderItemDietaryRequirement.ID
                     (all_children DietaryRequirement_rel (Order.Items o)))) /\
  NoDup (supplied (map OrderItemTopping.ID
                     (all_children Toppings_rel (Order.Items o)))) /\
  NoDup (supplied (map OrderItemAllergy.ID
                     (all_children Allergies_rel (Order.Items o)))).

(** The identifiers of the children of one association are pairwise
    distinct, none is in the table yet, and no row of the table is owned by
    one of the items. *)
Definition children_fresh {A : Type} (R : HasMany A) (s : Store) (items : list OrderItem.t)
  : Prop :=
  NoDup (map (hm_ID R) (all_children R items)) /\
  (forall id, id ∈ map (hm_ID R) (all_children R items) -> id ∉ child_keys R s) /\
  (forall id, id ∈ map OrderItem.ID items -> id ∉ child_owners R s).

(** The identifiers the graph carries are unused: pairwise distinct within a
    table, absent from the database, and owning nothing there. *)
Definition fresh_graph (s : Store) (o : Order.t) : Prop :=
  (Order.ID o ∉ item_owners s) /\
  NoDup (map OrderItem.ID (Order.Items o)) /\
  (forall id, id ∈ map OrderItem.ID (Order.Items o) -> id ∉ item_keys s) /\
  children_fresh DietaryRequirement_rel s (Order.Items o) /\
  children_fresh Toppings_rel s (Order.Items o) /\
  children_fresh Allergies_rel s (Order.Items o).

(** How a hook decides an identifier: an empty one is replaced by one of the
    identifiers generated between [lo] and [hi], any other is kept. *)
Definition assigned (env : Env) (lo hi : nat) (old new : string) : Prop :=
  if decide (old = "")
  then exists k, (lo <= k < hi)%nat /\ new = shortid_seq env k
  else new = old.

Definition children_assigned {A : Type} (R : HasMany A) (env : Env) (lo hi : nat)
    (oi oi' : OrderItem.t) : Prop :=
  Forall2 (fun c c' => assigned env lo hi (hm_ID R c) (hm_ID R c'))
          (hm_children R oi) (hm_children R oi').

Definition graph_assigned (env : Env) (lo hi : nat) (o o' : Order.t) : Prop :=
  assigned env lo hi (Order.ID o) (Order.ID o') /\
  Forall2 (fun oi oi' =>
             assigned env lo hi (OrderItem.ID oi) (OrderItem.ID oi') /\
             children_assigned DietaryRequirement_rel env lo hi oi oi' /\
             children_assigned Toppings_rel env lo hi oi oi' /\
             children_assigned Allergies_rel env lo hi oi oi')
          (Order.Items o) (Order.Items o').

(** The database after an order, its items and their junction rows have all
    been written to the database [s]. *)
Definition committed (s : Store) (o : Order.t) : Store :=
  mkStore (orders s ++ [order_row o])
    (upsert_item_rows (order_items s) (map item_row (Order.Items o)))
    (upsert_rows DietaryRequirement_rel (order_item_dietary_requirements s)
       (all_children DietaryRequirement_rel (Order.Items o)))
    (upsert_rows Toppings_rel (order_item_toppings s)
       (all_children Toppings_rel (Order.Items o)))
    (upsert_rows Allergies_rel (order_item_allergies s)
       (all_children Allergies_rel (Order.Items o))).

(** What a [BeforeCreate] hook makes of a value: an identifier from the
    generator when the value has none, no change otherwise. *)
Definition hooked {A : Type} (ID : A -> string) (with_ID : string -> A -> A)
    (env : Env) (lo hi : nat) (x x' : A) : Prop :=
  if decide (ID x = "")
  then exists k, (lo <= k < hi)%nat /\ x' = with_ID (shortid_seq env k) x
  else x' = x.

(** What [Create] makes of a junction row in memory: the owner's key, then
    the hook. *)
Definition child_created {A : Type} (R : HasMany A) (with_ID : string -> A -> A)
    (env : Env) (lo hi : nat) (owner : string) (c c' : A) : Prop :=
  hooked (hm_ID R) with_ID env lo hi (hm_with_OrderItemID R owner c) c'.

(** What saving one association makes of an item in memory. *)
Definition item_stage {A : Type} (R : HasMany A) (with_ID : string -> A -> A)
    (env : Env) (lo hi : nat) (oi oi' : OrderItem.t) : Prop :=
  exists cs',
    oi' = hm_with_children R cs' oi /\
    Forall2 (child_created R with_ID env lo hi (OrderItem.ID oi)) (hm_children R oi) cs'.

(** The same for an item and for the order. Nothing but identifiers, owner
    keys and a zero time stamp is changed. *)
Definition item_created (env : Env) (lo hi : nat) (oid : string) (oi oi' : OrderItem.t)
  : Prop :=
  exists id' ds ts als,
    assigned env lo hi (OrderItem.ID oi) id' /\
    oi' = OrderItem.mk id' oid (OrderItem.Size oi) (OrderItem.Pizza oi)
            (OrderItem.Instructions oi) ds ts als /\
    Forall2 (child_created DietaryRequirement_rel Dietary_with_ID env lo hi id')
            (OrderItem.DietaryRequirement oi) ds /\
    Forall2 (child_created Toppings_rel Topping_with_ID env lo hi id')
            (OrderItem.Toppings oi) ts /\
    Forall2 (child_created Allergies_rel Allergy_with_ID env lo hi id')
            (OrderItem.Allergies oi) als.

Definition created (env : Env) (lo hi : nat) (o o' : Order.t) : Prop :=
  exists id' items',
    assigned env lo hi (Order.ID o) id' /\
    o' = Order.mk id' (Order.Status o) (Order.CustomerName o) (Order.Phone o)
           (Order.Address o) items'
           (if decide (Order.CreatedAt o = zero_time) then clock env
            else Order.CreatedAt o) /\
    Forall2 (item_created env lo hi id') (Order.Items o) items'.

(** Every item carries the order's key and every junction row the key of
    its item. *)
Definition owned_children {A : Type} (R : HasMany A) (oi : OrderItem.t) : Prop :=
  Forall (fun c => hm_OrderItemID R c = OrderItem.ID oi) (hm_children R oi).

Definition linked (o : Order.t) : Prop :=
  Forall (fun oi =>
            OrderItem.OrderID oi = Order.ID o /\
            owned_children DietaryRequirement_rel oi /\
            owned_children Toppings_rel oi /\
            owned_children Allergies_rel oi)
         (Order.Items o).

(** The storage engine answers every statement from number [n] on. *)
Definition no_faults_from (env : Env) (n : nat) : Prop :=
  forall k, (n <= k)%nat -> faulty env k = false.

(** The algebra of an association's accessors, and its hook. *)
Record HasManyLaws {A : Type} (R : HasMany A) (with_ID : string -> A -> A) : Prop :=
  mkHasManyLaws
  { law_children_with : forall l oi, hm_children R (hm_with_children R l oi) = l;
    law_with_children : forall oi, hm_with_children R (hm_children R oi) oi = oi;
    law_with_with : forall l l' oi,
        hm_with_children R l (hm_with_children R l' oi) = hm_with_children R l oi;
    law_item_ID : forall l oi, OrderItem.ID (hm_with_children R l oi) = OrderItem.ID oi;
    law_hook : forall env c g,
        hm_BeforeCreate R env c g =
          if decide (hm_ID R c = "")
          then (with_ID (shortid_seq env g) c, S g) else (c, g);
    law_ID_with_ID : forall id c, hm_ID R (with_ID id c) = id;
    law_ID_with_owner : forall fk c, hm_ID R (hm_with_OrderItemID R fk c) = hm_ID R c;
    law_owner_with_owner : forall fk c,
        hm_OrderItemID R (hm_with_OrderItemID R fk c) = fk;
    law_owner_with_ID : forall id c,
        hm_OrderItemID R (with_ID id c) = hm_OrderItemID R c;
    law_table_with : forall l s, hm_table R (hm_with_table R l s) = l;
    law_with_table : forall s, hm_with_table R (hm_table R s) s = s }.

(** ** Sample inputs *)

Definition thin_form : OrderRequest.t :=
  OrderRequest.mk "Ada" "0400000000" "1 High Street" ["Large"] ["Margherita"] ["Thin"] [""]
    [] [] [].

Definition sample_shortid (n : nat) : string := "id-" +:+ pretty n.

(** A storage engine that never fails, and one that fails at its fourth
    statement. *)
Definition healthy_env : Env := mkEnv sample_shortid 1000 (fun _ => false).
Definition failing_env : Env := mkEnv sample_shortid 1000 (fun k => Nat.eqb k 3).

Definition st0 : St := mkSt empty_Store 0 0.

(** Two Margheritas: the first left as it is, the second with its defaults
    and Pepperoni; two of the topping entries are malformed. *)
Definition two_pizzas_form : OrderRequest.t :=
  OrderRequest.mk "Ada" "0400000000" "1 High Street"
    ["Large"; "Small"] ["Margherita"; "Margherita"] ["Thin"] ["well done"]
    ["1:Tomato Sauce"; "1:Mozzarella"; "1:Tomatoes"; "1:Basil"; "1:Pepperoni";
     "oops"; "x:Ham"]
    ["Vegetarian"] ["Nuts"].

Definition two_pizzas_order : Order.t :=
  Eval vm_compute in default zero_Order (buildOrder two_pizzas_form).

Definition plain_margherita : OrderItem.t :=
  Eval vm_compute in default (OrderItem.mk "" "" "" "" "" [] [] [])
                       (Order.Items two_pizzas_order !! 0%nat).

Definition margherita_with_pepperoni : OrderItem.t :=
  Eval vm_compute in default (OrderItem.mk "" "" "" "" "" [] [] [])
                       (Order.Items two_pizzas_order !! 1%nat).

(** The outcome of creating that order on the empty database, with the
    healthy engine and with the failing one. *)
Definition created_result : option error * Order.t * St :=
  Eval vm_compute in CreateOrder (Order InitDB) healthy_env two_pizzas_order st0.

Definition failed_result : option error * Order.t * St :=
  Eval vm_compute in CreateOrder (Order InitDB) failing_env two_pizzas_order st0.

(** An order whose caller chose the identifiers. *)
Definition supplied_order : Order.t :=
  Order.mk "my-order" OrderStatusPlaced "Bob" "0411111111" "2 Low Street"
    [ OrderItem.mk "my-item" "" "Small" "Hawaiian" "" []
        [ OrderItemTopping.mk "my-topping" "" "Ham" false ] [] ]
    zero_time.

Definition supplied_result : option error * Order.t * St :=
  Eval vm_compute in CreateOrder (Order InitDB) healthy_env supplied_order st0.

(** A second order whose item carries the identifier of the item stored by
    the first. *)
Definition colliding_order : Order.t :=
  Order.mk "" OrderStatusPlaced "Eve" "0422222222" "3 Side Street"
    [ OrderItem.mk "my-item" "" "Family" "Supreme" "extra hot" [] [] [] ]
    zero_time.

Definition colliding_result : option error * Order.t * St :=
  Eval vm_compute in
    CreateOrder (Order InitDB) healthy_env colliding_order (snd supplied_result).

Definition colliding_read : Order.t * option error :=
  Eval vm_compute in
    fst (GetOrder (Order InitDB) healthy_env (Order.ID (snd (fst colliding_result)))
           (snd colliding_result)).

(** A third order that carries the identifier of the first, and what
    [GetOrder] answers for that identifier after its creation was refused. *)
Definition duplicate_order : Order.t :=
  Order.mk "my-order" OrderStatusPlaced "Eve" "0422222222" "3 Side Street"
    [ OrderItem.mk "" "" "Family" "Supreme" "" [] [] [] ]
    zero_time.

Definition duplicate_result : option error * Order.t * St :=
  Eval vm_compute in
    CreateOrder (Order InitDB) healthy_env duplicate_order (snd supplied_result).

Definition duplicate_read : Order.t * option error :=
  Eval vm_compute in
    fst (GetOrder (Order InitDB) healthy_env "my-order" (snd duplicate_result)).

(** An order in which the caller chose some identifiers and left the others
    empty. *)
Definition mixed_order : Order.t :=
  Order.mk "" OrderStatusPlaced "Dan" "0433333333" "4 Back Street"
    [ OrderItem.mk "item-a" "" "Small" "Hawaiian" "" []
        [ OrderItemTopping.mk "top-a" "" "Ham" false;
          OrderItemTopping.mk "" "" "Pineapple" false ] [];
      OrderItem.mk "" "" "Large" "Garlic" ""
        [ OrderItemDietaryRequirement.mk "" "" "Vegan" ]
        [ OrderItemTopping.mk "top-b" "" "Garlic" false ]
        [ OrderItemAllergy.mk "" "" "Nuts" ] ]
    zero_time.

Definition mixed_result : option error * Order.t * St :=
  Eval vm_compute in CreateOrder (Order InitDB) healthy_env mixed_order st0.

(** Two items that carry the same identifier, and two junction rows of
    different items that carry the same identifier. *)
Definition repeated_order : Order.t :=
  Order.mk "" OrderStatusPlaced "Fay" "0444444444" "5 Hill Street"
    [ OrderItem.mk "dup" "" "Small" "Hawaiian" "" []
        [ OrderItemTopping.mk "" "" "Ham" false ] [];
      OrderItem.mk "dup" "" "Large" "Supreme" "" []
        [ OrderItemTopping.mk "" "" "Olives" false ] [] ]
    zero_time.

Definition repeated_result : option error * Order.t * St :=
  Eval vm_compute in CreateOrder (Order InitDB) healthy_env repeated_order st0.

Definition shared_order : Order.t :=
  Order.mk "" OrderStatusPlaced "Gil" "0455555555" "6 Mill Street"
    [ OrderItem.mk "a" "" "Small" "Hawaiian" "" []
        [ OrderItemTopping.mk "t" "" "Ham" false ] [];
      OrderItem.mk "b" "" "Large" "Supreme" "" []
        [ OrderItemTopping.mk "t" "" "Olives" false ] [] ]
    zero_time.

Definition shared_result : option error * Order.t * St :=
  Eval vm_compute in CreateOrder (Order InitDB) healthy_env shared_order st0.

(** ** [cmd/validators.go] *)

(** [slices.Contains] *)
Fixpoint Contains (s : list string) (v : string) : bool :=
  match s with
  | [] => false
  | x :: s' => if decide (x = v) then true else Contains s' v
  end.

(** validators.go:21-25; [fl.Field().String()] is the field's text. *)
Definition createSliceValidator (allowedValues : list string) (field : string) : bool :=
  Contains allowedValues field.

(** validators.go:27-37. Go visits the entries of a map in an unspecified
    order; the loop is run over the entries in the order [entries]. *)
Definition toppingValidatorOver (entries : list (string * list string)) (topping : string)
  : bool :=
  existsb (fun kv => Contains (snd kv) topping) entries.

Definition createToppingValidator (topping : string) : bool :=
  toppingValidatorOver (map_to_list ToppingCategories) topping.

(** ** Reading an order when the storage engine answers

    What [First] and the three [Preload]s compute from the database. *)
Definition preload_rel {A : Type} (R : HasMany A) (s : Store) (items : list OrderItem.t)
  : list OrderItem.t :=
  let rows := select_in (hm_OrderItemID R) (map OrderItem.ID items) (hm_table R s) in
  map (fun oi => hm_with_children R (select_eq (hm_OrderItemID R) (OrderItem.ID oi) rows) oi)
      items.

Definition read_order (s : Store) (id : string) : Order.t * option error :=
  match select_eq Order.ID id (orders s) with
  | [] => (zero_Order, Some ErrRecordNotFound)
  | row :: _ =>
      match select_in OrderItem.OrderID [Order.ID row] (order_items s) with
      | [] => (row, None)
      | items =>
          (Order_with_Items
             (preload_rel Toppings_rel s
                (preload_rel DietaryRequirement_rel s (preload_rel Allergies_rel s items)))
             row,
           None)
      end
  end.

(** The identifier [Create] inserts the order under. *)
Definition order_key (env : Env) (order : Order.t) (st : St) : string :=
  if decide (Order.ID order = "") then shortid_seq env (generated st) else Order.ID order.

(** [id] is one of the identifiers the generator returned between calls
    number [lo] and [hi]. *)
Definition generated_id (env : Env) (lo hi : nat) (id : string) : Prop :=
  exists k, (lo <= k < hi)%nat /\ id = shortid_seq env k.

(** The rows of [orders] hold columns only. *)
Definition header_rows (s : Store) : Prop :=
  Forall (fun row => Order.Items row = []) (orders s).

(** No two rows of a table share their primary key. *)
Definition keys_unique (s : Store) : Prop :=
  NoDup (map Order.ID (orders s)) /\
  NoDup (item_keys s) /\
  NoDup (child_keys DietaryRequirement_rel s) /\
  NoDup (child_keys Toppings_rel s) /\
  NoDup (child_keys Allergies_rel s).

(** An item with the three collections [Preload] hands it, [ids] being the
    keys of the items loaded with it. *)
Definition hydrated (s : Store) (ids : list string) (oi : OrderItem.t) : OrderItem.t :=
  OrderItem.mk (OrderItem.ID oi) (OrderItem.OrderID oi) (OrderItem.Size oi)
    (OrderItem.Pizza oi) (OrderItem.Instructions oi)
    (select_eq OrderItemDietaryRequirement.OrderItemID (OrderItem.ID oi)
       (select_in OrderItemDietaryRequirement.OrderItemID ids
          (order_item_dietary_requirements s)))
    (select_eq OrderItemTopping.OrderItemID (OrderItem.ID oi)
       (select_in OrderItemTopping.OrderItemID ids (order_item_toppings s)))
    (select_eq OrderItemAllergy.OrderItemID (OrderItem.ID oi)
       (select_in OrderItemAllergy.OrderItemID ids (order_item_allergies s))).

(** A graph that carries no identifier at all. *)
Definition unidentified_children (oi : OrderItem.t) : Prop :=
  Forall (fun c => OrderItemDietaryRequirement.ID c = "") (OrderItem.DietaryRequirement oi) /\
  Forall (fun c => OrderItemTopping.ID c = "") (OrderItem.Toppings oi) /\
  Forall (fun c => OrderItemAllergy.ID c = "") (OrderItem.Allergies oi).

Definition unidentified (o : Order.t) : Prop :=
  Order.ID o = "" /\
  Forall (fun oi => OrderItem.ID oi = "" /\ unidentified_children oi) (Order.Items o).

(** The identifiers the generator returns from call number [lo] up to, not
    including, call number [hi]. *)
Definition generated_ids (env : Env) (lo hi : nat) : list string :=
  map (shortid_seq env) (seq lo (hi - lo)).

(** Every identifier the item table and the junction tables use, as key or
    as owner key. *)
Definition used_ids (s : Store) : list string :=
  item_owners s ++ item_keys s ++
  child_keys DietaryRequirement_rel s ++ child_owners DietaryRequirement_rel s ++
  child_keys Toppings_rel s ++ child_owners Toppings_rel s ++
  child_keys Allergies_rel s ++ child_owners Allergies_rel s.

(** Two sizes and one pizza type. *)
Definition short_form : OrderRequest.t :=
  OrderRequest.mk "Ada" "0400000000" "1 High Street" ["Large"; "Small"] ["Margherita"]
    [] [] [] [] [].

(** One size and two pizza types; topping entries for positions -1, 0 and 7. *)
Definition long_form : OrderRequest.t :=
  OrderRequest.mk "Ada" "0400000000" "1 High Street" ["Small"] ["Hawaiian"; "Garlic"]
    [] [] ["-1:Basil"; "0:Ham"; "7:Corn"] [] [].

Definition long_order : Order.t :=
  Eval vm_compute in default zero_Order (buildOrder long_form).

(** A "Make Your Own" with two toppings chosen. *)
Definition own_form : OrderRequest.t :=
  OrderRequest.mk "Ada" "0400000000" "1 High Street" ["Medium"] ["Make Your Own"]
    [] [] ["0:Ham"; "0:Basil"] [] [].

Definition own_order : Order.t :=
  Eval vm_compute in default zero_Order (buildOrder own_form).

Definition own_item : OrderItem.t :=
  Eval vm_compute in default (OrderItem.mk "" "" "" "" "" [] [] [])
                       (Order.Items own_order !! 0%nat).

(** The "Make Your Own" order created after the two Margheritas. *)
Definition second_result : option error * Order.t * St :=
  Eval vm_compute in
    CreateOrder (Order InitDB) healthy_env own_order (snd created_result).

(** A storage engine that fails at its ninth statement: with the two
    Margheritas stored by seven statements, that is the second query of the
    next read. *)
Definition read_failing_env : Env := mkEnv sample_shortid 1000 (fun k => Nat.eqb k 8).

(** An order header without items, and its creation in the empty database. *)
Definition bare_order : Order.t := Order_with_Items [] two_pizzas_order.

Definition bare_result : option error * Order.t * St :=
  Eval vm_compute in CreateOrder (Order InitDB) healthy_env bare_order st0.

(** * Properties *)

(** A decidable proposition about concrete data, settled by evaluation. *)
Ltac by_computation :=
  match goal with
  | |- ?P => refine (@bool_decide_unpack P _ _); vm_compute; exact I
  end.

(** ** The classification of toppings *)
Lemma isExtra_false_iff (defaultToppings : list string) (topping : string) :
  isExtra defaultToppings topping = false <-> topping ∈ defaultToppings.
Proof.
  induction defaultToppings as [|def rest IH]; simpl.
  - split; [discriminate | intros H; inversion H].
  - destruct (decide (def = topping)) as [->|Hne].
    + split; [intros _; left | reflexivity].
    + rewrite IH. split; [by right | ].
      intros H. apply elem_of_cons in H as [->|H]; [done | exact H].
Qed.

Lemma isExtra_true_iff (defaultToppings : list string) (topping : string) :
  isExtra defaultToppings topping = true <-> topping ∉ defaultToppings.
Proof.
  rewrite <- isExtra_false_iff. destruct (isExtra defaultToppings topping); split; congruence.
Qed.

Lemma isExtra_decide (defaultToppings : list string) (topping : string) :
  isExtra defaultToppings topping = negb (bool_decide (topping ∈ defaultToppings)).
Proof.
  destruct (decide (topping ∈ defaultToppings)) as [Hin|Hnin].
  - rewrite bool_decide_eq_true_2 by done. by apply isExtra_false_iff.
  - rewrite bool_decide_eq_false_2 by done. by apply isExtra_true_iff.
Qed.

Lemma toppingRows_defaults (defaults : list string) :
  toppingRows defaults defaults = map (fun t => OrderItemTopping.mk "" "" t false) defaults.
Proof.
  unfold toppingRows. apply map_ext_in. intros t Ht.
  f_equal. apply isExtra_false_iff. by apply list_elem_of_In.
Qed.

Lemma buildItems_lookup (form : OrderRequest.t) (items : list OrderItem.t) (i : nat)
    (item : OrderItem.t) :
  buildItems form = Some items ->
  items !! i = Some item ->
  buildItem form (parseToppings (OrderRequest.Toppings form)) i = Some item.
Proof.
  unfold buildItems. intros Hm Hi.
  apply mapM_Some in Hm.
  destruct (Forall2_lookup_r _ _ _ _ _ Hm Hi) as (j & Hj & Hb).
  apply lookup_seq in Hj as [-> _]. exact Hb.
Qed.

Lemma buildOrder_items (form : OrderRequest.t) (order : Order.t) :
  buildOrder form = Some order ->
  buildItems form = Some (Order.Items order) /\
  order = Order.mk "" OrderStatusPlaced (OrderRequest.Name form) (OrderRequest.Phone form)
            (OrderRequest.Address form) (Order.Items order) zero_time.
Proof.
  unfold buildOrder. destruct (buildItems form) as [items|]; simpl; [|discriminate].
  intros [= <-]. split; reflexivity.
Qed.

Lemma buildItem_Some (form : OrderRequest.t) (tm : gmap Z (list string)) (i : nat)
    (item : OrderItem.t) :
  buildItem form tm i = Some item ->
  exists size pizza,
    OrderRequest.Sizes form !! i = Some size /\
    OrderRequest.PizzaTypes form !! i = Some pizza /\
    item = OrderItem.mk "" "" size pizza (instructionOf form i)
             (dietaryRows (OrderRequest.DietaryRequirements form))
             (toppingRows (map_index PizzaDefaultToppings pizza) (pizzaToppingsOf tm pizza i))
             (allergyRows (OrderRequest.Allergies form)).
Proof.
  unfold buildItem. intros H.
  destruct (OrderRequest.Sizes form !! i) as [size|]; simpl in H; [|discriminate].
  destruct (OrderRequest.PizzaTypes form !! i) as [pizza|]; simpl in H; [|discriminate].
  injection H as <-. by exists size, pizza.
Qed.

Lemma known_type_has_defaults (pizza : string) :
  pizza ∈ PizzaTypes -> exists defaults, PizzaDefaultToppings !! pizza = Some defaults.
Proof.
  unfold PizzaTypes. intros H.
  repeat (apply elem_of_cons in H as [->|H]; [eexists; vm_compute; reflexivity|]).
  inversion H.
Qed.

(** ** The topping parser *)

Lemma parseTopping_entry (m : gmap Z (list string)) (t : string) :
  parseTopping m t =
    match entry_of t with
    | Some (index, label) => <[index := map_index m index ++ [label]]> m
    | None => m
    end.
Proof.
  unfold parseTopping, entry_of, SplitN_colon_2.
  destruct (cut_colon t) as [[p0 p1]|]; [|reflexivity].
  destruct (Atoi p0); reflexivity.
Qed.

Lemma malformed_entry_of (t : string) : malformed t <-> entry_of t = None.
Proof.
  unfold malformed, entry_of. split.
  - intros [-> | (p0 & p1 & -> & ->)]; reflexivity.
  - destruct (cut_colon t) as [[p0 p1]|]; [|by left].
    destruct (Atoi p0) eqn:E; [discriminate|].
    intros _. right. by exists p0, p1.
Qed.

Lemma fold_parseTopping_index (toppings : list string) (m : gmap Z (list string)) (k : Z) :
  map_index (fold_left parseTopping toppings m) k = map_index m k ++ labels_at k toppings.
Proof.
  revert m. induction toppings as [|t l IH]; intros m; simpl.
  - by rewrite app_nil_r.
  - rewrite IH, parseTopping_entry. unfold labels_at. simpl.
    destruct (entry_of t) as [[index label]|]; [|reflexivity].
    destruct (decide (index = k)) as [->|Hne]; simpl.
    + unfold map_index at 1. rewrite lookup_insert_eq. simpl.
      by rewrite <- app_assoc.
    + unfold map_index at 1. rewrite lookup_insert_ne by done. reflexivity.
Qed.

Lemma parseToppings_index (toppings : list string) (k : Z) :
  map_index (parseToppings toppings) k = labels_at k toppings.
Proof.
  unfold parseToppings. rewrite fold_parseTopping_index.
  unfold map_index. by rewrite lookup_empty.
Qed.

Lemma parseToppings_drop (l1 l2 : list string) (t : string) :
  entry_of t = None -> parseToppings (l1 ++ t :: l2) = parseToppings (l1 ++ l2).
Proof.
  intros H. unfold parseToppings. rewrite !fold_left_app. simpl.
  by rewrite parseTopping_entry, H.
Qed.

Lemma labels_at_elem (k : Z) (toppings : list string) (label : string) :
  label ∈ labels_at k toppings <->
  exists t, t ∈ toppings /\ entry_of t = Some (k, label).
Proof.
  unfold labels_at. rewrite list_elem_of_omap. split.
  - intros (t & Ht & H). exists t. split; [done|].
    destruct (entry_of t) as [[index l]|]; [|discriminate].
    destruct (decide (index = k)) as [->|]; [|discriminate]. by injection H as ->.
  - intros (t & Ht & H). exists t. split; [done|]. rewrite H.
    by rewrite decide_True.
Qed.

(** ** The order built from a submission *)

Lemma buildOrder_with_Toppings (form : OrderRequest.t) (l : list string) :
  parseToppings l = parseToppings (OrderRequest.Toppings form) ->
  buildOrder (with_Toppings l form) = buildOrder form.
Proof.
  intros H. unfold buildOrder, buildItems. simpl. rewrite H. reflexivity.
Qed.

Lemma item_toppings_cases (form : OrderRequest.t) (order : Order.t) (i : nat)
    (item : OrderItem.t) :
  buildOrder form = Some order ->
  Order.Items order !! i = Some item ->
  OrderItem.Toppings item =
    toppingRows (map_index PizzaDefaultToppings (OrderItem.Pizza item))
      (pizzaToppingsOf (parseToppings (OrderRequest.Toppings form)) (OrderItem.Pizza item) i) /\
  OrderItem.DietaryRequirement item = dietaryRows (OrderRequest.DietaryRequirements form) /\
  OrderItem.Allergies item = allergyRows (OrderRequest.Allergies form).
Proof.
  intros Hb Hi. apply buildOrder_items in Hb as [Hb _].
  pose proof (buildItems_lookup _ _ _ _ Hb Hi) as H.
  apply buildItem_Some in H as (size & pizza & _ & _ & ->). simpl. auto.
Qed.

(** C3. Default substitution: an item of a known pizza type whose parsed
    topping selection is empty gets exactly the default toppings of its
    type as topping rows, none marked extra; for "Margherita" these are
    Tomato Sauce, Mozzarella, Tomatoes and Basil. *)
Theorem default_substitution (form : OrderRequest.t) (order : Order.t) (i : nat)
    (item : OrderItem.t) :
  buildOrder form = Some order ->
  Order.Items order !! i = Some item ->
  map_index (parseToppings (OrderRequest.Toppings form)) (Z.of_nat i) = [] ->
  OrderItem.Pizza item ∈ PizzaTypes ->
  (exists defaults,
      PizzaDefaultToppings !! OrderItem.Pizza item = Some defaults /\
      OrderItem.Toppings item =
        map (fun t => OrderItemTopping.mk "" "" t false) defaults) /\
  (OrderItem.Pizza item = "Margherita" ->
   OrderItem.Toppings item =
     [ OrderItemTopping.mk "" "" "Tomato Sauce" false;
       OrderItemTopping.mk "" "" "Mozzarella" false;
       OrderItemTopping.mk "" "" "Tomatoes" false;
       OrderItemTopping.mk "" "" "Basil" false ]).
Proof.
  intros Hb Hi Hsel Hknown.
  destruct (item_toppings_cases _ _ _ _ Hb Hi) as (Ht & _ & _).
  unfold pizzaToppingsOf in Ht. rewrite Hsel in Ht. simpl in Ht.
  rewrite toppingRows_defaults in Ht.
  split.
  - destruct (known_type_has_defaults _ Hknown) as [defaults Hd].
    exists defaults. split; [exact Hd|].
    rewrite Ht. unfold map_index. by rewrite Hd.
  - intros Hm. rewrite Ht, Hm. reflexivity.
Qed.

(** C4. Extra classification: with a non-empty parsed selection, every
    selected topping yields one row, in order; the row is non-extra when the
    topping is a default of the item's pizza type and extra when it is not.
    A selection made of the defaults followed by one other topping yields
    the defaults non-extra and that topping extra. *)
Theorem extra_classification (form : OrderRequest.t) (order : Order.t) (i : nat)
    (item : OrderItem.t) :
  buildOrder form = Some order ->
  Order.Items order !! i = Some item ->
  map_index (parseToppings (OrderRequest.Toppings form)) (Z.of_nat i) <> [] ->
  let selection := map_index (parseToppings (OrderRequest.Toppings form)) (Z.of_nat i) in
  let defaults := map_index PizzaDefaultToppings (OrderItem.Pizza item) in
  Forall2 (fun topping row =>
             OrderItemTopping.Topping row = topping /\
             (topping ∈ defaults -> OrderItemTopping.IsExtra row = false) /\
             (topping ∉ defaults -> OrderItemTopping.IsExtra row = true))
          selection (OrderItem.Toppings item) /\
  (forall extra,
      extra ∉ defaults ->
      selection = defaults ++ [extra] ->
      OrderItem.Toppings item =
        map (fun t => OrderItemTopping.mk "" "" t false) defaults ++
        [OrderItemTopping.mk "" "" extra true]).
Proof.
  intros Hb Hi Hsel. cbv zeta.
  destruct (item_toppings_cases _ _ _ _ Hb Hi) as (Ht & _ & _).
  unfold pizzaToppingsOf in Ht.
  set (selection := map_index (parseToppings (OrderRequest.Toppings form)) (Z.of_nat i)) in *.
  set (defaults := map_index PizzaDefaultToppings (OrderItem.Pizza item)) in *.
  rewrite decide_False in Ht by (by destruct selection).
  split.
  - rewrite Ht. unfold toppingRows. apply Forall2_fmap_r, Forall_Forall2_diag.
    apply Forall_forall. intros t _. simpl.
    split; [reflexivity|]. split.
    + apply isExtra_false_iff.
    + apply isExtra_true_iff.
  - intros extra Hx Heq. rewrite Ht, Heq. unfold toppingRows.
    rewrite map_app. simpl. f_equal.
    + apply map_ext_in. intros t Hin. f_equal.
      apply isExtra_false_iff. by apply list_elem_of_In.
    + do 2 f_equal. by apply isExtra_true_iff.
Qed.

(** C7. The crust chosen at submission does not reach the item: the handler
    computes it, the struct [OrderItem] has no field for it, and two
    submissions that differ in the crust only build the same order. *)
Theorem crust_chosen_is_not_stored :
  crustOf thin_form 0 = "Thin" /\
  crustOf (with_Crusts ["Deep Dish"] thin_form) 0 = "Deep Dish" /\
  buildOrder (with_Crusts ["Deep Dish"] thin_form) = buildOrder thin_form /\
  forall (form : OrderRequest.t) (crusts : list string),
    buildOrder (with_Crusts crusts form) = buildOrder form.
Proof.
  repeat split.
Qed.

(** C9. Dietary requirements and allergies are not per item: every item of
    the order the handler builds carries the whole submitted list of
    dietary requirements and the whole submitted list of allergies, so any
    two items carry identical collections. *)
Theorem dietary_allergy_replicated (form : OrderRequest.t) (order : Order.t) :
  buildOrder form = Some order ->
  Forall (fun item =>
            map OrderItemDietaryRequirement.DietaryRequirement
                (OrderItem.DietaryRequirement item) = OrderRequest.DietaryRequirements form /\
            map OrderItemAllergy.Allergy (OrderItem.Allergies item) =
              OrderRequest.Allergies form)
         (Order.Items order) /\
  (forall item1 item2,
      item1 ∈ Order.Items order -> item2 ∈ Order.Items order ->
      OrderItem.DietaryRequirement item1 = OrderItem.DietaryRequirement item2 /\
      OrderItem.Allergies item1 = OrderItem.Allergies item2).
Proof.
  intros Hb.
  assert (Hall : forall item, item ∈ Order.Items order ->
            OrderItem.DietaryRequirement item =
              dietaryRows (OrderRequest.DietaryRequirements form) /\
            OrderItem.Allergies item = allergyRows (OrderRequest.Allergies form)).
  { intros item Hin. apply list_elem_of_lookup in Hin as [i Hi].
    destruct (item_toppings_cases _ _ _ _ Hb Hi) as (_ & Hd & Ha). auto. }
  split.
  - apply Forall_forall. intros item Hin. destruct (Hall _ Hin) as [-> ->].
    unfold dietaryRows, allergyRows. rewrite !map_map. simpl.
    by rewrite !map_id.
  - intros item1 item2 H1 H2.
    destruct (Hall _ H1) as [-> ->]. destruct (Hall _ H2) as [-> ->]. auto.
Qed.

(** C10. A topping entry with no colon, or with a prefix that is not an
    integer, is skipped: the parsed selections, and with them the order the
    handler builds, are those of the submission without the entry, and
    nothing fails. The selection of position [k] consists of the labels of
    the well-formed entries with index [k], so the topping rows of an item
    come from the well-formed entries that carry its position, or from the
    defaults of its pizza type when there is none. *)
Theorem malformed_topping_entries_dropped (form : OrderRequest.t) (l1 l2 : list string)
    (t : string) :
  OrderRequest.Toppings form = l1 ++ t :: l2 ->
  malformed t ->
  parseToppings (l1 ++ t :: l2) = parseToppings (l1 ++ l2) /\
  buildOrder form = buildOrder (with_Toppings (l1 ++ l2) form) /\
  (forall k, map_index (parseToppings (OrderRequest.Toppings form)) k =
             labels_at k (l1 ++ l2)) /\
  (forall order i item,
      buildOrder form = Some order ->
      Order.Items order !! i = Some item ->
      Forall (fun row =>
                (exists t', t' ∈ l1 ++ l2 /\
                            entry_of t' = Some (Z.of_nat i, OrderItemTopping.Topping row)) \/
                (labels_at (Z.of_nat i) (l1 ++ l2) = [] /\
                 OrderItemTopping.Topping row ∈
                   map_index PizzaDefaultToppings (OrderItem.Pizza item)))
             (OrderItem.Toppings item)).
Proof.
  intros Hform Hbad. apply malformed_entry_of in Hbad.
  pose proof (parseToppings_drop l1 l2 t Hbad) as Hdrop.
  assert (Hidx : forall k, map_index (parseToppings (OrderRequest.Toppings form)) k =
                           labels_at k (l1 ++ l2)).
  { intros k. by rewrite Hform, Hdrop, parseToppings_index. }
  split; [exact Hdrop|]. split; [|split; [exact Hidx|]].
  - symmetry. apply buildOrder_with_Toppings. by rewrite Hform.
  - intros order i item Hb Hi.
    destruct (item_toppings_cases _ _ _ _ Hb Hi) as (-> & _ & _).
    unfold toppingRows, pizzaToppingsOf. rewrite Hidx.
    apply Forall_forall. intros row Hrow.
    apply list_elem_of_fmap in Hrow as (topping & -> & Hin). simpl.
    destruct (decide (length (labels_at (Z.of_nat i) (l1 ++ l2)) = 0%nat)) as [Hz|Hnz].
    + right. split; [|exact Hin]. by apply nil_length_inv.
    + left. by apply labels_at_elem.
Qed.

(** ** The theorems about the handler, at a sample submission *)

Lemma default_substitution_witness :
  buildOrder two_pizzas_form = Some two_pizzas_order /\
  Order.Items two_pizzas_order !! 0%nat = Some plain_margherita /\
  map_index (parseToppings (OrderRequest.Toppings two_pizzas_form)) (Z.of_nat 0) = [] /\
  (OrderItem.Pizza plain_margherita ∈ PizzaTypes) /\
  OrderItem.Toppings plain_margherita =
    [ OrderItemTopping.mk "" "" "Tomato Sauce" false;
      OrderItemTopping.mk "" "" "Mozzarella" false;
      OrderItemTopping.mk "" "" "Tomatoes" false;
      OrderItemTopping.mk "" "" "Basil" false ].
Proof.
  assert (Hb : buildOrder two_pizzas_form = Some two_pizzas_order)
    by (vm_compute; reflexivity).
  assert (Hi : Order.Items two_pizzas_order !! 0%nat = Some plain_margherita)
    by reflexivity.
  assert (Hs : map_index (parseToppings (OrderRequest.Toppings two_pizzas_form))
                 (Z.of_nat 0) = []) by (vm_compute; reflexivity).
  assert (Hk : OrderItem.Pizza plain_margherita ∈ PizzaTypes) by (simpl; left).
  repeat (split; [assumption|]).
  exact (proj2 (default_substitution two_pizzas_form two_pizzas_order 0
                  plain_margherita Hb Hi Hs Hk) eq_refl).
Defined.

Lemma extra_classification_witness :
  buildOrder two_pizzas_form = Some two_pizzas_order /\
  Order.Items two_pizzas_order !! 1%nat = Some margherita_with_pepperoni /\
  map_index (parseToppings (OrderRequest.Toppings two_pizzas_form)) (Z.of_nat 1) <> [] /\
  OrderItem.Toppings margherita_with_pepperoni =
    [ OrderItemTopping.mk "" "" "Tomato Sauce" false;
      OrderItemTopping.mk "" "" "Mozzarella" false;
      OrderItemTopping.mk "" "" "Tomatoes" false;
      OrderItemTopping.mk "" "" "Basil" false;
      OrderItemTopping.mk "" "" "Pepperoni" true ].
Proof.
  assert (Hb : buildOrder two_pizzas_form = Some two_pizzas_order)
    by (vm_compute; reflexivity).
  assert (Hi : Order.Items two_pizzas_order !! 1%nat = Some margherita_with_pepperoni)
    by reflexivity.
  assert (Hs : map_index (parseToppings (OrderRequest.Toppings two_pizzas_form))
                 (Z.of_nat 1) <> []) by (vm_compute; discriminate).
  repeat (split; [assumption|]).
  refine (proj2 (extra_classification two_pizzas_form two_pizzas_order 1
                   margherita_with_pepperoni Hb Hi Hs) "Pepperoni" _ _).
  - by_computation.
  - vm_compute. reflexivity.
Defined.

Lemma dietary_allergy_replicated_witness :
  buildOrder two_pizzas_form = Some two_pizzas_order /\
  OrderItem.DietaryRequirement plain_margherita =
    OrderItem.DietaryRequirement margherita_with_pepperoni /\
  OrderItem.Allergies plain_margherita = OrderItem.Allergies margherita_with_pepperoni.
Proof.
  assert (Hb : buildOrder two_pizzas_form = Some two_pizzas_order)
    by (vm_compute; reflexivity).
  split; [exact Hb|].
  apply (proj2 (dietary_allergy_replicated two_pizzas_form two_pizzas_order Hb)).
  - simpl. left.
  - simpl. right. left.
Defined.

Lemma malformed_topping_entries_dropped_witness :
  OrderRequest.Toppings two_pizzas_form =
    ["1:Tomato Sauce"; "1:Mozzarella"; "1:Tomatoes"; "1:Basil"; "1:Pepperoni"] ++
    "oops" :: ["x:Ham"] /\
  malformed "oops" /\
  buildOrder two_pizzas_form =
    buildOrder
      (with_Toppings
         (["1:Tomato Sauce"; "1:Mozzarella"; "1:Tomatoes"; "1:Basil"; "1:Pepperoni"] ++
          ["x:Ham"]) two_pizzas_form).
Proof.
  assert (Hl : OrderRequest.Toppings two_pizzas_form =
    ["1:Tomato Sauce"; "1:Mozzarella"; "1:Tomatoes"; "1:Basil"; "1:Pepperoni"] ++
    "oops" :: ["x:Ham"]) by reflexivity.
  assert (Hm : malformed "oops") by (left; reflexivity).
  split; [exact Hl|]. split; [exact Hm|].
  exact (proj1 (proj2 (malformed_topping_entries_dropped two_pizzas_form _ _ _ Hl Hm))).
Defined.

(** ** The associations obey the accessor laws *)

Lemma DietaryRequirement_laws : HasManyLaws DietaryRequirement_rel Dietary_with_ID.
Proof.
  split; intros; try reflexivity; try (destruct oi; reflexivity);
    try (destruct s; reflexivity).
Qed.

Lemma Toppings_laws : HasManyLaws Toppings_rel Topping_with_ID.
Proof.
  split; intros; try reflexivity; try (destruct oi; reflexivity);
    try (destruct s; reflexivity).
Qed.

Lemma Allergies_laws : HasManyLaws Allergies_rel Allergy_with_ID.
Proof.
  split; intros; try reflexivity; try (destruct oi; reflexivity);
    try (destruct s; reflexivity).
Qed.

(** ** Hooks over a batch *)

Lemma hooked_mono {A : Type} (ID : A -> string) (with_ID : string -> A -> A) (env : Env)
    (lo hi lo' hi' : nat) (x x' : A) :
  hooked ID with_ID env lo hi x x' -> (lo' <= lo)%nat -> (hi <= hi')%nat ->
  hooked ID with_ID env lo' hi' x x'.
Proof.
  unfold hooked. destruct (decide (ID x = "")); [|done].
  intros (k & Hk & ->) Hlo Hhi. exists k. split; [lia|done].
Qed.

Lemma assigned_mono (env : Env) (lo hi lo' hi' : nat) (old new : string) :
  assigned env lo hi old new -> (lo' <= lo)%nat -> (hi <= hi')%nat ->
  assigned env lo' hi' old new.
Proof.
  unfold assigned. destruct (decide (old = "")); [|done].
  intros (k & Hk & ->) Hlo Hhi. exists k. split; [lia|done].
Qed.

Lemma hooked_assigned {A : Type} (ID : A -> string) (with_ID : string -> A -> A)
    (env : Env) (lo hi : nat) (x x' : A) :
  (forall id y, ID (with_ID id y) = id) ->
  hooked ID with_ID env lo hi x x' -> assigned env lo hi (ID x) (ID x').
Proof.
  unfold hooked, assigned. intros HID. destruct (decide (ID x = "")).
  - intros (k & Hk & ->). exists k. by rewrite HID.
  - by intros ->.
Qed.

Lemma mapAccum_Forall2 {A : Type} (f : A -> nat -> A * nat)
    (P : nat -> nat -> A -> A -> Prop) :
  (forall x g x' g', f x g = (x', g') -> (g <= g')%nat /\ P g g' x x') ->
  (forall lo hi lo' hi' x x',
      P lo hi x x' -> (lo' <= lo)%nat -> (hi <= hi')%nat -> P lo' hi' x x') ->
  forall l g l' g',
    mapAccum f l g = (l', g') -> (g <= g')%nat /\ Forall2 (P g g') l l'.
Proof.
  intros Hf Hmono. induction l as [|x l IH]; intros g l' g' H; simpl in H.
  - injection H as <- <-. split; [lia | constructor].
  - destruct (f x g) as [x1 g1] eqn:Hx.
    destruct (mapAccum f l g1) as [l1 g2] eqn:Hl.
    injection H as <- <-.
    destruct (Hf _ _ _ _ Hx) as [Hle HP].
    destruct (IH _ _ _ Hl) as [Hle' HF].
    split; [lia|]. constructor.
    + eapply Hmono; [exact HP | lia | lia].
    + eapply Forall2_impl; [exact HF|].
      intros y y' Hy. eapply Hmono; [exact Hy | lia | lia].
Qed.

Lemma Forall2_map_left {X Y Z : Type} (f : X -> Y) (P : Y -> Z -> Prop) (l : list X)
    (k : list Z) :
  Forall2 P (map f l) k -> Forall2 (fun x z => P (f x) z) l k.
Proof.
  revert k. induction l as [|x l IH]; intros k H; inversion H; subst; constructor; auto.
Qed.

Lemma Order_hook_hooked (env : Env) (o o' : Order.t) (g g' : nat) :
  Order_BeforeCreate env o g = (o', g') ->
  (g <= g')%nat /\ hooked Order.ID Order_with_ID env g g' o o'.
Proof.
  unfold Order_BeforeCreate, hooked, MustGenerate.
  destruct (decide (Order.ID o = "")); intros [= <- <-].
  - split; [lia|]. exists g. split; [lia|done].
  - split; [lia|done].
Qed.

Lemma OrderItem_hook_hooked (env : Env) (oi oi' : OrderItem.t) (g g' : nat) :
  OrderItem_BeforeCreate env oi g = (oi', g') ->
  (g <= g')%nat /\ hooked OrderItem.ID OrderItem_with_ID env g g' oi oi'.
Proof.
  unfold OrderItem_BeforeCreate, hooked, MustGenerate.
  destruct (decide (OrderItem.ID oi = "")); intros [= <- <-].
  - split; [lia|]. exists g. split; [lia|done].
  - split; [lia|done].
Qed.

(** ** The identity map of a batch *)

Lemma supplied_cons (id : string) (ids : list string) :
  supplied (id :: ids) = if decide (id = "") then supplied ids else id :: supplied ids.
Proof.
  unfold supplied. rewrite filter_cons.
  destruct (decide (id = "")), (decide (id <> "")); done.
Qed.

Lemma supplied_all_empty (ids : list string) :
  Forall (fun id => id = "") ids -> supplied ids = [].
Proof.
  induction 1 as [|id ids Hid _ IH]; [done|].
  rewrite supplied_cons, IH. by destruct (decide (id = "")).
Qed.

Lemma firsts_distinct (ids seen : list string) :
  NoDup (supplied ids) -> (forall id, id ∈ supplied ids -> id ∉ seen) ->
  firsts seen ids = repeat true (length ids).
Proof.
  revert seen. induction ids as [|id ids IH]; intros seen Hnd Hseen; simpl; [done|].
  rewrite supplied_cons in Hnd, Hseen.
  destruct (decide (id = "")) as [E|NE].
  - f_equal. by apply IH.
  - apply NoDup_cons in Hnd as [Hnotin Hnd].
    destruct (decide (id ∈ seen)) as [Hin|_].
    + exfalso. apply (Hseen id); [by left|done].
    + f_equal. apply IH; [done|]. intros id' Hid' Hin'.
      apply elem_of_cons in Hin' as [->|Hin']; [done|].
      apply (Hseen id'); [by right|done].
Qed.

Lemma firsts_all (ids : list string) :
  NoDup (supplied ids) -> firsts [] ids = repeat true (length ids).
Proof. intros H. apply firsts_distinct; [done|]. intros id _. apply not_elem_of_nil. Qed.

Lemma pick_all {A : Type} (l : list A) : pick (repeat true (length l)) l = l.
Proof. induction l; simpl; [done|]. by f_equal. Qed.

Lemma put_all {A : Type} (new old : list A) :
  length new = length old -> put (repeat true (length old)) new old = new.
Proof.
  revert new. induction old as [|x old IH]; intros [|y new] Hlen; simpl in *; try done.
  f_equal. apply IH. lia.
Qed.

Lemma put_Forall2 {A : Type} (P Q : A -> A -> Prop) (mask : list bool) (new old : list A) :
  (forall x, Q x x) -> (forall x y, P x y -> Q x y) ->
  Forall2 P (pick mask old) new -> Forall2 Q old (put mask new old).
Proof.
  intros Hrefl Himpl. revert new old.
  induction mask as [|b mask IH]; intros new old H.
  - destruct old; simpl; apply Forall_Forall2_diag, Forall_forall; auto.
  - destruct b, old as [|x old]; simpl in *; try constructor; auto.
    inversion H as [|x0 y l new' Hxy Hrest]; subst. constructor; auto.
Qed.

Section HasManyFacts.
Context {A : Type} (R : HasMany A) (with_ID : string -> A -> A).
Context (L : HasManyLaws R with_ID).

Lemma child_hook_hooked (env : Env) (c c' : A) (g g' : nat) :
  hm_BeforeCreate R env c g = (c', g') ->
  (g <= g')%nat /\ hooked (hm_ID R) with_ID env g g' c c'.
Proof.
  rewrite (law_hook R with_ID L). unfold hooked.
  destruct (decide (hm_ID R c = "")); intros [= <- <-].
  - split; [lia|]. exists g. split; [lia|done].
  - split; [lia|done].
Qed.

Lemma hooked_same_supplied (env : Env) (lo hi : nat) (c c' : A) :
  hooked (hm_ID R) with_ID env lo hi c c' -> hm_ID R c <> "" -> hm_ID R c' = hm_ID R c.
Proof.
  unfold hooked. destruct (decide (hm_ID R c = "")); [done|]. by intros ->.
Qed.

Lemma item_stage_mono (env : Env) (lo hi lo' hi' : nat) (oi oi' : OrderItem.t) :
  item_stage R with_ID env lo hi oi oi' -> (lo' <= lo)%nat -> (hi <= hi')%nat ->
  item_stage R with_ID env lo' hi' oi oi'.
Proof.
  intros (cs & -> & HF) Hlo Hhi. exists cs. split; [done|].
  eapply Forall2_impl; [exact HF|]. intros c c' Hc. by eapply hooked_mono.
Qed.

(** The rows of a batch, handed back to their items. *)
Lemma with_all_children_same (items : list OrderItem.t) :
  with_all_children R (all_children R items) items = items.
Proof.
  unfold all_children. induction items as [|oi items IH]; simpl; [done|].
  rewrite take_app_length, drop_app_length, IH.
  by rewrite (law_with_children R with_ID L).
Qed.

Lemma with_all_children_Forall2 (P : A -> A -> Prop) (cs : list A)
    (items : list OrderItem.t) :
  Forall2 P (all_children R items) cs ->
  Forall2 (fun oi oi' =>
             exists cs', oi' = hm_with_children R cs' oi /\
                         Forall2 P (hm_children R oi) cs')
          items (with_all_children R cs items).
Proof.
  unfold all_children. revert cs.
  induction items as [|oi items IH]; intros cs H; simpl in *; [constructor|].
  apply Forall2_app_inv_l in H as (c1 & c2 & H1 & H2 & ->).
  rewrite (Forall2_length _ _ _ H1), take_app_length, drop_app_length.
  constructor; [eauto|by apply IH].
Qed.

Lemma with_all_children_children (cs : list A) (items : list OrderItem.t) :
  length cs = length (all_children R items) ->
  all_children R (with_all_children R cs items) = cs.
Proof.
  unfold all_children. revert cs.
  induction items as [|oi items IH]; intros cs Hlen; simpl in *.
  - by destruct cs.
  - rewrite length_app in Hlen.
    rewrite (law_children_with R with_ID L), IH, take_drop; [done|].
    rewrite length_drop. lia.
Qed.

Lemma set_owner_IDs (items : list OrderItem.t) :
  map (hm_ID R) (all_children R (map (set_owner R) items)) =
  map (hm_ID R) (all_children R items).
Proof.
  unfold all_children. induction items as [|oi items IH]; simpl; [done|].
  rewrite !map_app, IH. f_equal.
  unfold set_owner. rewrite (law_children_with R with_ID L), map_map.
  apply map_ext. intros c. apply (law_ID_with_owner R with_ID L).
Qed.

(** What [saveHasMany] computes, whatever the batch: [elems] are the rows
    that were hooked and sent to the database. *)
Lemma saveHasMany_unfold (env : Env) (items items' : list OrderItem.t) (st st' : St)
    (e : option error) :
  saveHasMany R env items st = (e, items', st') ->
  exists elems,
    (generated st <= generated st')%nat /\
    Forall2 (hooked (hm_ID R) with_ID env (generated st) (generated st'))
      (pick (firsts [] (map (hm_ID R) (all_children R (map (set_owner R) items))))
            (all_children R (map (set_owner R) items)))
      elems /\
    items' =
      with_all_children R
        (put (firsts [] (map (hm_ID R) (all_children R (map (set_owner R) items))))
             elems (all_children R (map (set_owner R) items)))
        (map (set_owner R) items) /\
    (e = None ->
     store st' =
       hm_with_table R (upsert_rows R (hm_table R (store st)) elems) (store st)).
Proof.
  unfold saveHasMany.
  destruct (all_children R (map (set_owner R) items)) as [|c cs] eqn:Hc.
  - intros [= <- <- <-]. exists []. simpl.
    split; [lia|]. split; [constructor|]. split.
    + pose proof (with_all_children_same (map (set_owner R) items)) as Hs.
      rewrite Hc in Hs. by rewrite Hs.
    + intros _. symmetry. apply (law_with_table R with_ID L).
  - destruct (mapAccum _ _ (generated st)) as [elems g] eqn:Hm.
    apply (mapAccum_Forall2 _ (hooked (hm_ID R) with_ID env)) in Hm;
      [|intros; by apply child_hook_hooked|intros; by eapply hooked_mono].
    destruct Hm as [Hle HF].
    unfold exec. simpl.
    destruct (faulty env (executed st)); intros [= <- <- <-]; simpl;
      exists elems; (split; [exact Hle|]); (split; [exact HF|]); (split; [reflexivity|]).
    + discriminate.
    + reflexivity.
Qed.

Lemma stage_of_set_owner (P : A -> A -> Prop) (items items' : list OrderItem.t) :
  Forall2 (fun oi oi' =>
             exists cs', oi' = hm_with_children R cs' oi /\
                         Forall2 P (hm_children R oi) cs')
          (map (set_owner R) items) items' ->
  Forall2 (fun oi oi' =>
             exists cs', oi' = hm_with_children R cs' oi /\
                         Forall2 (fun c c' => P (hm_with_OrderItemID R (OrderItem.ID oi) c) c')
                                 (hm_children R oi) cs')
          items items'.
Proof.
  intros H. apply Forall2_map_left in H.
  eapply Forall2_impl; [exact H|]. intros oi oi' (cs' & -> & HF).
  exists cs'. unfold set_owner in *.
  rewrite (law_children_with R with_ID L) in HF.
  split; [apply (law_with_with R with_ID L)|]. by apply Forall2_map_left in HF.
Qed.

(** When no supplied identifier repeats in the batch, every row is hooked
    and sent. *)
Lemma saveHasMany_spec (env : Env) (items items' : list OrderItem.t) (st st' : St)
    (e : option error) :
  NoDup (supplied (map (hm_ID R) (all_children R items))) ->
  saveHasMany R env items st = (e, items', st') ->
  (generated st <= generated st')%nat /\
  Forall2 (item_stage R with_ID env (generated st) (generated st')) items items' /\
  (e = None ->
   store st' =
     hm_with_table R (upsert_rows R (hm_table R (store st)) (all_children R items'))
       (store st)).
Proof.
  intros Hnd H. apply saveHasMany_unfold in H as (elems & Hle & HF & -> & Hs).
  rewrite <- set_owner_IDs in Hnd. apply firsts_all in Hnd.
  rewrite Hnd in *. rewrite length_map, pick_all in HF.
  rewrite length_map, put_all by (symmetry; by eapply Forall2_length).
  split; [exact Hle|]. split.
  - apply stage_of_set_owner. by apply with_all_children_Forall2.
  - rewrite with_all_children_children by (symmetry; by eapply Forall2_length).
    exact Hs.
Qed.

(** Whatever the batch, a row that came with an identifier keeps it. *)
Lemma saveHasMany_kept (env : Env) (items items' : list OrderItem.t) (st st' : St)
    (e : option error) :
  saveHasMany R env items st = (e, items', st') ->
  Forall2 (fun oi oi' =>
             exists cs', oi' = hm_with_children R cs' oi /\
                         same_supplied (hm_ID R) (hm_children R oi) cs')
          items items'.
Proof.
  intros H. apply saveHasMany_unfold in H as (elems & _ & HF & -> & _).
  eapply (put_Forall2 _ (fun c c' => hm_ID R c <> "" -> hm_ID R c' = hm_ID R c)) in HF;
    [|done|intros c c' Hc; by eapply hooked_same_supplied].
  apply with_all_children_Forall2, stage_of_set_owner in HF.
  eapply Forall2_impl; [exact HF|]. intros oi oi' (cs' & -> & Hcs).
  exists cs'. split; [done|]. unfold same_supplied.
  eapply Forall2_impl; [exact Hcs|]. intros c c' Hc. cbv beta in Hc.
  by rewrite (law_ID_with_owner R with_ID L) in Hc.
Qed.

End HasManyFacts.

(** ** The associations of a batch of items *)

Lemma Forall2_compose {X Y Z : Type} (P : X -> Y -> Prop) (Q : Y -> Z -> Prop)
    (l : list X) (k : list Y) (m : list Z) :
  Forall2 P l k -> Forall2 Q k m -> Forall2 (fun x z => exists y, P x y /\ Q y z) l m.
Proof.
  intros H. revert m. induction H; intros m HQ; inversion HQ; subst; constructor; eauto.
Qed.

Lemma all_children_ext {A : Type} (R : HasMany A) (l k : list OrderItem.t) :
  Forall2 (fun x y => hm_children R x = hm_children R y) l k ->
  all_children R l = all_children R k.
Proof.
  unfold all_children. induction 1; simpl; [done|]. by f_equal.
Qed.

Lemma child_created_mono {A : Type} (R : HasMany A) (with_ID : string -> A -> A)
    (env : Env) (lo hi lo' hi' : nat) (owner : string) (l k : list A) :
  Forall2 (child_created R with_ID env lo hi owner) l k ->
  (lo' <= lo)%nat -> (hi <= hi')%nat ->
  Forall2 (child_created R with_ID env lo' hi' owner) l k.
Proof.
  intros H Hlo Hhi. eapply Forall2_impl; [exact H|].
  intros c c' Hc. by eapply hooked_mono.
Qed.

Lemma saveItemAssociations_success (env : Env) (items items' : list OrderItem.t)
    (st st' : St) :
  NoDup (supplied (map OrderItemDietaryRequirement.ID
                     (all_children DietaryRequirement_rel items))) ->
  NoDup (supplied (map OrderItemTopping.ID (all_children Toppings_rel items))) ->
  NoDup (supplied (map OrderItemAllergy.ID (all_children Allergies_rel items))) ->
  saveItemAssociations env items st = (None, items', st') ->
  (generated st <= generated st')%nat /\
  Forall2 (fun oi oi' =>
             exists ds ts als,
               oi' = OrderItem.mk (OrderItem.ID oi) (OrderItem.OrderID oi)
                       (OrderItem.Size oi) (OrderItem.Pizza oi)
                       (OrderItem.Instructions oi) ds ts als /\
               Forall2 (child_created DietaryRequirement_rel Dietary_with_ID env
                          (generated st) (generated st') (OrderItem.ID oi))
                       (OrderItem.DietaryRequirement oi) ds /\
               Forall2 (child_created Toppings_rel Topping_with_ID env
                          (generated st) (generated st') (OrderItem.ID oi))
                       (OrderItem.Toppings oi) ts /\
               Forall2 (child_created Allergies_rel Allergy_with_ID env
                          (generated st) (generated st') (OrderItem.ID oi))
                       (OrderItem.Allergies oi) als)
          items items' /\
  store st' =
    mkStore (orders (store st)) (order_items (store st))
      (upsert_rows DietaryRequirement_rel (order_item_dietary_requirements (store st))
         (all_children DietaryRequirement_rel items'))
      (upsert_rows Toppings_rel (order_item_toppings (store st))
         (all_children Toppings_rel items'))
      (upsert_rows Allergies_rel (order_item_allergies (store st))
         (all_children Allergies_rel items')).
Proof.
  intros Hd Ht Ha. unfold saveItemAssociations.
  destruct (saveHasMany DietaryRequirement_rel env items st) as [[e1 items1] st1] eqn:H1.
  destruct e1 as [err|]; [discriminate|].
  destruct (saveHasMany Toppings_rel env items1 st1) as [[e2 items2] st2] eqn:H2.
  destruct e2 as [err|]; [discriminate|].
  intros H3.
  apply (saveHasMany_spec _ _ DietaryRequirement_laws) in H1 as (Hg1 & HF1 & Hs1);
    [|exact Hd].
  assert (Et : all_children Toppings_rel items = all_children Toppings_rel items1).
  { apply all_children_ext. eapply Forall2_impl; [exact HF1|].
    intros x y (ds & -> & _). by destruct x. }
  apply (saveHasMany_spec _ _ Toppings_laws) in H2 as (Hg2 & HF2 & Hs2);
    [|by rewrite <- Et].
  assert (Ea : all_children Allergies_rel items = all_children Allergies_rel items2).
  { apply all_children_ext.
    eapply Forall2_impl; [exact (Forall2_compose _ _ _ _ _ HF1 HF2)|].
    intros x z (y & (ds & -> & _) & (ts & -> & _)). by destruct x. }
  apply (saveHasMany_spec _ _ Allergies_laws) in H3 as (Hg3 & HF3 & Hs3);
    [|by rewrite <- Ea].
  specialize (Hs1 eq_refl). specialize (Hs2 eq_refl). specialize (Hs3 eq_refl).
  split; [lia|].
  pose proof (Forall2_compose _ _ _ _ _ (Forall2_compose _ _ _ _ _ HF1 HF2) HF3) as HF.
  split.
  - eapply Forall2_impl; [exact HF|].
    intros oi oi3 (oi2 & (oi1 & (ds & -> & Hd') & (ts & -> & Ht')) & (als & -> & Ha')).
    exists ds, ts, als. destruct oi; simpl in *.
    split; [reflexivity|]. split; [|split].
    + eapply child_created_mono; [exact Hd'|lia|lia].
    + eapply child_created_mono; [exact Ht'|lia|lia].
    + eapply child_created_mono; [exact Ha'|lia|lia].
  - assert (E1 : all_children DietaryRequirement_rel items1 =
                 all_children DietaryRequirement_rel items').
    { apply all_children_ext.
      eapply Forall2_impl; [exact (Forall2_compose _ _ _ _ _ HF2 HF3)|].
      intros x z (y & (ts & -> & _) & (als & -> & _)). by destruct x. }
    assert (E2 : all_children Toppings_rel items2 = all_children Toppings_rel items').
    { apply all_children_ext. eapply Forall2_impl; [exact HF3|].
      intros x z (als & -> & _). by destruct x. }
    rewrite Hs3, Hs2, Hs1, E1, E2. simpl. reflexivity.
Qed.

(** Whatever the graph: the rows that came with an identifier keep it, and
    each junction table is the old one with some rows upserted. *)
Lemma saveItemAssociations_any (env : Env) (items items' : list OrderItem.t)
    (st st' : St) :
  saveItemAssociations env items st = (None, items', st') ->
  Forall2 (fun oi oi' =>
             OrderItem.ID oi' = OrderItem.ID oi /\ item_same_supplied oi oi')
          items items' /\
  exists ds ts als,
    store st' =
      mkStore (orders (store st)) (order_items (store st))
        (upsert_rows DietaryRequirement_rel (order_item_dietary_requirements (store st)) ds)
        (upsert_rows Toppings_rel (order_item_toppings (store st)) ts)
        (upsert_rows Allergies_rel (order_item_allergies (store st)) als).
Proof.
  unfold saveItemAssociations.
  destruct (saveHasMany DietaryRequirement_rel env items st) as [[e1 items1] st1] eqn:H1.
  destruct e1 as [err|]; [discriminate|].
  destruct (saveHasMany Toppings_rel env items1 st1) as [[e2 items2] st2] eqn:H2.
  destruct e2 as [err|]; [discriminate|].
  intros H3.
  pose proof (saveHasMany_kept _ _ DietaryRequirement_laws _ _ _ _ _ _ H1) as HF1.
  pose proof (saveHasMany_kept _ _ Toppings_laws _ _ _ _ _ _ H2) as HF2.
  pose proof (saveHasMany_kept _ _ Allergies_laws _ _ _ _ _ _ H3) as HF3.
  apply (saveHasMany_unfold _ _ DietaryRequirement_laws) in H1 as (ds & _ & _ & _ & Hs1).
  apply (saveHasMany_unfold _ _ Toppings_laws) in H2 as (ts & _ & _ & _ & Hs2).
  apply (saveHasMany_unfold _ _ Allergies_laws) in H3 as (als & _ & _ & _ & Hs3).
  specialize (Hs1 eq_refl). specialize (Hs2 eq_refl). specialize (Hs3 eq_refl).
  split.
  - eapply Forall2_impl;
      [exact (Forall2_compose _ _ _ _ _ (Forall2_compose _ _ _ _ _ HF1 HF2) HF3)|].
    intros oi oi3 (oi2 & (oi1 & (cd & -> & Hd) & (ct & -> & Ht)) & (ca & -> & Ha)).
    destruct oi; simpl in *. split; [reflexivity|].
    unfold item_same_supplied. simpl. repeat split; done.
  - exists ds, ts, als. rewrite Hs3, Hs2, Hs1. simpl. reflexivity.
Qed.

(** ** Saving the items, and the order *)

Lemma map_item_row_ext (l k : list OrderItem.t) :
  Forall2 (fun x y => item_row x = item_row y) l k -> map item_row l = map item_row k.
Proof. induction 1; simpl; [done|]. by f_equal. Qed.

Lemma with_OrderID_IDs (oid : string) (items : list OrderItem.t) :
  map OrderItem.ID (map (OrderItem_with_OrderID oid) items) = map OrderItem.ID items.
Proof. rewrite map_map. apply map_ext. by intros []. Qed.

Lemma same_supplied_refl {A : Type} (ID : A -> string) (l : list A) : same_supplied ID l l.
Proof. apply Forall_Forall2_diag, Forall_forall. auto. Qed.

Lemma item_same_supplied_refl (oi : OrderItem.t) : item_same_supplied oi oi.
Proof. repeat split; try done; apply same_supplied_refl. Qed.

Lemma item_hooked_fields (env : Env) (lo hi : nat) (oi oi' : OrderItem.t) :
  hooked OrderItem.ID OrderItem_with_ID env lo hi oi oi' ->
  OrderItem.OrderID oi' = OrderItem.OrderID oi /\
  OrderItem.Size oi' = OrderItem.Size oi /\
  OrderItem.Pizza oi' = OrderItem.Pizza oi /\
  OrderItem.Instructions oi' = OrderItem.Instructions oi /\
  OrderItem.DietaryRequirement oi' = OrderItem.DietaryRequirement oi /\
  OrderItem.Toppings oi' = OrderItem.Toppings oi /\
  OrderItem.Allergies oi' = OrderItem.Allergies oi.
Proof.
  unfold hooked. destruct (decide (OrderItem.ID oi = "")) as [_|_].
  - intros (k & _ & ->). by destruct oi.
  - intros ->. by destruct oi.
Qed.

Lemma saveItems_success (env : Env) (o o' : Order.t) (st st' : St) :
  distinct_supplied o ->
  saveItems env o st = (None, o', st') ->
  (generated st <= generated st')%nat /\
  exists items',
    o' = Order_with_Items items' o /\
    Forall2 (item_created env (generated st) (generated st') (Order.ID o))
            (Order.Items o) items' /\
    store st' =
      mkStore (orders (store st))
        (upsert_item_rows (order_items (store st)) (map item_row items'))
        (upsert_rows DietaryRequirement_rel (order_item_dietary_requirements (store st))
           (all_children DietaryRequirement_rel items'))
        (upsert_rows Toppings_rel (order_item_toppings (store st))
           (all_children Toppings_rel items'))
        (upsert_rows Allergies_rel (order_item_allergies (store st))
           (all_children Allergies_rel items')).
Proof.
  intros Hdist. unfold saveItems, distinct_supplied in *.
  destruct (Order.Items o) as [|oi0 items0] eqn:Hitems.
  - simpl. intros [= <- <-]. split; [lia|]. exists [].
    split; [destruct o; simpl in *; by subst|].
    split; [constructor|]. by destruct (store st).
  - remember (oi0 :: items0) as items eqn:Hi.
    destruct Hdist as (Hdi & Hdd & Hdt & Hda).
    destruct (map (OrderItem_with_OrderID (Order.ID o)) items) as [|x xs] eqn:Hmap;
      [subst items; discriminate|].
    rewrite <- Hmap. clear Hmap x xs.
    assert (Hsaved :
      firsts [] (map OrderItem.ID (map (OrderItem_with_OrderID (Order.ID o)) items)) =
      repeat true (length (map (OrderItem_with_OrderID (Order.ID o)) items))).
    { rewrite with_OrderID_IDs, length_map, <- (length_map OrderItem.ID).
      by apply firsts_all. }
    rewrite Hsaved, pick_all.
    destruct (mapAccum (OrderItem_BeforeCreate env) _ (generated st)) as [items2 g] eqn:Hm.
    apply (mapAccum_Forall2 _ (hooked OrderItem.ID OrderItem_with_ID env)) in Hm;
      [|intros; by apply OrderItem_hook_hooked|intros; by eapply hooked_mono].
    destruct Hm as [Hle HF].
    pose proof (Forall2_length _ _ _ HF) as Hlen2.
    apply Forall2_map_left in HF.
    unfold exec. simpl.
    destruct (faulty env (executed st)); [discriminate|]. simpl.
    destruct (saveItemAssociations env items2 _) as [[e3 items3] st3] eqn:Ha.
    intros [= -> <- <-].
    assert (Ech : forall {B : Type} (R : HasMany B),
               (forall oid oi, hm_children R (OrderItem_with_OrderID oid oi) =
                               hm_children R oi) ->
               (forall oi oi', OrderItem.DietaryRequirement oi' = OrderItem.DietaryRequirement oi ->
                               OrderItem.Toppings oi' = OrderItem.Toppings oi ->
                               OrderItem.Allergies oi' = OrderItem.Allergies oi ->
                               hm_children R oi' = hm_children R oi) ->
               all_children R items = all_children R items2).
    { intros B R Hw Hc. apply all_children_ext. eapply Forall2_impl; [exact HF|].
      intros x y Hxy. apply item_hooked_fields in Hxy as (_ & _ & _ & _ & E1 & E2 & E3).
      rewrite <- (Hw (Order.ID o) x). symmetry. by apply Hc. }
    apply saveItemAssociations_success in Ha as (Hle3 & HF3 & Hs3).
    2:{ rewrite <- (Ech _ DietaryRequirement_rel); [exact Hdd|by intros ? []|].
        intros ? ? E _ _. exact E. }
    2:{ rewrite <- (Ech _ Toppings_rel); [exact Hdt|by intros ? []|].
        intros ? ? _ E _. exact E. }
    2:{ rewrite <- (Ech _ Allergies_rel); [exact Hda|by intros ? []|].
        intros ? ? _ _ E. exact E. }
    simpl in *.
    rewrite put_all by (rewrite Hlen2; symmetry; by eapply Forall2_length).
    split; [lia|]. exists items3. split; [reflexivity|]. split.
    + eapply Forall2_impl; [exact (Forall2_compose _ _ _ _ _ HF HF3)|].
      intros oi oi3 (oi2 & Hh & (ds & ts & als & -> & Hd & Ht & Hal)).
      exists (OrderItem.ID oi2), ds, ts, als.
      assert (Hfields :
        OrderItem.OrderID oi2 = Order.ID o /\ OrderItem.Size oi2 = OrderItem.Size oi /\
        OrderItem.Pizza oi2 = OrderItem.Pizza oi /\
        OrderItem.Instructions oi2 = OrderItem.Instructions oi /\
        OrderItem.DietaryRequirement oi2 = OrderItem.DietaryRequirement oi /\
        OrderItem.Toppings oi2 = OrderItem.Toppings oi /\
        OrderItem.Allergies oi2 = OrderItem.Allergies oi).
      { unfold hooked in Hh. simpl in Hh.
        destruct (decide (OrderItem.ID oi = "")) as [_|_].
        - destruct Hh as (k & _ & ->). by destruct oi.
        - subst oi2. by destruct oi. }
      destruct Hfields as (-> & -> & -> & -> & Ed & Et & Ea).
      rewrite Ed in Hd. rewrite Et in Ht. rewrite Ea in Hal.
      split.
      { apply (hooked_assigned OrderItem.ID OrderItem_with_ID) in Hh; [|done].
        simpl in Hh. eapply assigned_mono; [exact Hh|lia|lia]. }
      split; [reflexivity|]. split; [|split].
      * eapply child_created_mono; [exact Hd|lia|lia].
      * eapply child_created_mono; [exact Ht|lia|lia].
      * eapply child_created_mono; [exact Hal|lia|lia].
    + rewrite Hs3. simpl. f_equal. f_equal. apply map_item_row_ext.
      eapply Forall2_impl; [exact HF3|].
      intros x y (ds & ts & als & -> & _). by destruct x.
Qed.

Lemma saveItems_any (env : Env) (o o' : Order.t) (st st' : St) :
  saveItems env o st = (None, o', st') ->
  exists items',
    o' = Order_with_Items items' o /\
    Forall2 item_same_supplied (Order.Items o) items' /\
    exists rows ds ts als,
      store st' =
        mkStore (orders (store st)) (upsert_item_rows (order_items (store st)) rows)
          (upsert_rows DietaryRequirement_rel (order_item_dietary_requirements (store st)) ds)
          (upsert_rows Toppings_rel (order_item_toppings (store st)) ts)
          (upsert_rows Allergies_rel (order_item_allergies (store st)) als).
Proof.
  unfold saveItems.
  destruct (Order.Items o) as [|oi0 items0] eqn:Hitems.
  - simpl. intros [= <- <-]. exists [].
    split; [destruct o; simpl in *; by subst|].
    split; [constructor|]. exists [], [], [], []. by destruct (store st).
  - remember (oi0 :: items0) as items eqn:Hi.
    destruct (map (OrderItem_with_OrderID (Order.ID o)) items) as [|x xs] eqn:Hmap;
      [subst items; discriminate|].
    rewrite <- Hmap. clear Hmap x xs.
    set (items1 := map (OrderItem_with_OrderID (Order.ID o)) items).
    set (saved := firsts [] (map OrderItem.ID items1)).
    destruct (mapAccum (OrderItem_BeforeCreate env) _ (generated st)) as [elems g] eqn:Hm.
    apply (mapAccum_Forall2 _ (hooked OrderItem.ID OrderItem_with_ID env)) in Hm;
      [|intros; by apply OrderItem_hook_hooked|intros; by eapply hooked_mono].
    destruct Hm as [Hle HF].
    unfold exec. simpl.
    destruct (faulty env (executed st)); [discriminate|]. simpl.
    destruct (saveItemAssociations env elems _) as [[e3 elems'] st3] eqn:Ha.
    intros [= -> <- <-].
    apply saveItemAssociations_any in Ha as (HF3 & ds & ts & als & Hs3). simpl in *.
    exists (put saved elems' items1). split; [reflexivity|]. split.
    + pose proof (Forall2_compose _ _ _ _ _ HF HF3) as HP.
      eapply (put_Forall2 _ item_same_supplied) in HP.
      * subst items1. apply Forall2_map_left in HP.
        eapply Forall2_impl; [exact HP|]. intros oi oi'. by destruct oi.
      * apply item_same_supplied_refl.
      * intros x z (y & Hh & Hid & (_ & Hd & Ht & Hal)).
        pose proof (item_hooked_fields _ _ _ _ _ Hh) as (_ & _ & _ & _ & Ed & Et & Ea).
        rewrite Ed in Hd. rewrite Et in Ht. rewrite Ea in Hal.
        split; [|done]. intros Hx. rewrite Hid.
        unfold hooked in Hh. destruct (decide (OrderItem.ID x = "")); [done|].
        by subst y.
    + exists (map item_row elems), ds, ts, als. rewrite Hs3. reflexivity.
Qed.

(** The order before the insert: hooked, and stamped when it carried no
    time. *)
Lemma stamped_fields (env : Env) (order o1 : Order.t) (lo hi : nat) :
  hooked Order.ID Order_with_ID env lo hi order o1 ->
  let o2 := if decide (Order.CreatedAt o1 = zero_time)
            then Order_with_CreatedAt (clock env) o1 else o1 in
  Order.ID o2 = Order.ID o1 /\ Order.Status o2 = Order.Status order /\
  Order.CustomerName o2 = Order.CustomerName order /\
  Order.Phone o2 = Order.Phone order /\ Order.Address o2 = Order.Address order /\
  Order.Items o2 = Order.Items order /\
  Order.CreatedAt o2 =
    (if decide (Order.CreatedAt order = zero_time) then clock env
     else Order.CreatedAt order).
Proof.
  intros Hh o2.
  assert (H1 : Order.Status o1 = Order.Status order /\
               Order.CustomerName o1 = Order.CustomerName order /\
               Order.Phone o1 = Order.Phone order /\
               Order.Address o1 = Order.Address order /\
               Order.Items o1 = Order.Items order /\
               Order.CreatedAt o1 = Order.CreatedAt order).
  { unfold hooked in Hh. destruct (decide (Order.ID order = "")).
    - destruct Hh as (k & _ & ->). by destruct order.
    - by subst o1. }
  destruct H1 as (E1 & E2 & E3 & E4 & E5 & E6).
  subst o2. rewrite <- E1, <- E2, <- E3, <- E4, <- E5, <- E6.
  destruct (decide (Order.CreatedAt o1 = zero_time)); by destruct o1.
Qed.

Lemma create_callbacks_success (env : Env) (order order' : Order.t) (st st' : St) :
  distinct_supplied order ->
  create_callbacks env order st = (None, order', st') ->
  (generated st <= generated st')%nat /\
  created env (generated st) (generated st') order order' /\
  (Order.ID order' ∉ map Order.ID (orders (store st))) /\
  store st' = committed (store st) order'.
Proof.
  intros Hdist. unfold create_callbacks.
  destruct (Order_BeforeCreate env order (generated st)) as [o1 g] eqn:Hh.
  apply Order_hook_hooked in Hh as [Hle Hh].
  pose proof (stamped_fields env _ _ _ _ Hh) as Ho2. cbv zeta in Ho2.
  set (o2 := if decide (Order.CreatedAt o1 = zero_time)
             then Order_with_CreatedAt (clock env) o1 else o1) in *.
  destruct Ho2 as (EID & ESt & ENa & EPh & EAd & EIt & ECr).
  unfold exec. simpl.
  destruct (faulty env (executed st)); [discriminate|].
  unfold insert_order.
  destruct (decide (Order.ID o2 ∈ map Order.ID (orders (store st)))) as [Hin|Hnin];
    [discriminate|].
  intros Hs. apply saveItems_success in Hs as (Hle2 & items' & -> & HF & Hst);
    [|unfold distinct_supplied; by rewrite EIt].
  simpl in *.
  split; [lia|]. split; [|split].
  - exists (Order.ID o2), items'. split; [|split].
    + apply (hooked_assigned Order.ID Order_with_ID) in Hh; [|done].
      rewrite EID. eapply assigned_mono; [exact Hh|lia|lia].
    + unfold Order_with_Items. by rewrite ESt, ENa, EPh, EAd, ECr.
    + rewrite <- EIt. eapply Forall2_impl; [exact HF|].
      intros x y (id' & ds & ts & als & Hid & -> & Hd & Ht & Ha).
      exists id', ds, ts, als. split; [|split; [reflexivity|split; [|split]]].
      * eapply assigned_mono; [exact Hid|lia|lia].
      * eapply child_created_mono; [exact Hd|lia|lia].
      * eapply child_created_mono; [exact Ht|lia|lia].
      * eapply child_created_mono; [exact Ha|lia|lia].
  - exact Hnin.
  - rewrite Hst. unfold committed. simpl. reflexivity.
Qed.

Lemma create_callbacks_any (env : Env) (order order' : Order.t) (st st' : St) :
  create_callbacks env order st = (None, order', st') ->
  Forall2 item_same_supplied (Order.Items order) (Order.Items order') /\
  (Order.ID order' ∉ map Order.ID (orders (store st))) /\
  exists rows ds ts als,
    store st' =
      mkStore (orders (store st) ++ [order_row order'])
        (upsert_item_rows (order_items (store st)) rows)
        (upsert_rows DietaryRequirement_rel (order_item_dietary_requirements (store st)) ds)
        (upsert_rows Toppings_rel (order_item_toppings (store st)) ts)
        (upsert_rows Allergies_rel (order_item_allergies (store st)) als).
Proof.
  unfold create_callbacks.
  destruct (Order_BeforeCreate env order (generated st)) as [o1 g] eqn:Hh.
  apply Order_hook_hooked in Hh as [Hle Hh].
  pose proof (stamped_fields env _ _ _ _ Hh) as Ho2. cbv zeta in Ho2.
  set (o2 := if decide (Order.CreatedAt o1 = zero_time)
             then Order_with_CreatedAt (clock env) o1 else o1) in *.
  destruct Ho2 as (EID & ESt & ENa & EPh & EAd & EIt & ECr).
  unfold exec. simpl.
  destruct (faulty env (executed st)); [discriminate|].
  unfold insert_order.
  destruct (decide (Order.ID o2 ∈ map Order.ID (orders (store st)))) as [Hin|Hnin];
    [discriminate|].
  intros Hs.
  apply saveItems_any in Hs as (items' & -> & HF & rows & ds & ts & als & Hst).
  simpl in *. split; [by rewrite <- EIt|]. split; [exact Hnin|].
  exists rows, ds, ts, als. rewrite Hst. reflexivity.
Qed.

(** ** The transaction around [Create] *)

Lemma gorm_Create_success (db : gorm.DB) (env : Env) (order order' : Order.t)
    (st st' : St) :
  gorm.SkipDefaultTransaction (gorm.config db) = false ->
  distinct_supplied order ->
  gorm_Create db env order st = (None, order', st') ->
  (generated st <= generated st')%nat /\
  created env (generated st) (generated st') order order' /\
  (Order.ID order' ∉ map Order.ID (orders (store st))) /\
  store st' = committed (store st) order'.
Proof.
  intros Hcfg Hdist. unfold gorm_Create. rewrite Hcfg. unfold exec, no_op. simpl.
  destruct (faulty env (executed st)); [discriminate|].
  destruct (create_callbacks env order _) as [[e o] st1] eqn:Hc.
  destruct e as [err|]; [discriminate|].
  destruct (faulty env (executed st1)); [discriminate|].
  intros [= <- <-]. simpl.
  apply create_callbacks_success in Hc; [|exact Hdist]. simpl in Hc. exact Hc.
Qed.

(** Whatever the graph, a successful [Create] adds the header and upserts
    rows, and the rows that came with an identifier still carry it. *)
Lemma gorm_Create_any (db : gorm.DB) (env : Env) (order order' : Order.t)
    (st st' : St) :
  gorm.SkipDefaultTransaction (gorm.config db) = false ->
  gorm_Create db env order st = (None, order', st') ->
  Forall2 item_same_supplied (Order.Items order) (Order.Items order') /\
  (Order.ID order' ∉ map Order.ID (orders (store st))) /\
  exists rows ds ts als,
    store st' =
      mkStore (orders (store st) ++ [order_row order'])
        (upsert_item_rows (order_items (store st)) rows)
        (upsert_rows DietaryRequirement_rel (order_item_dietary_requirements (store st)) ds)
        (upsert_rows Toppings_rel (order_item_toppings (store st)) ts)
        (upsert_rows Allergies_rel (order_item_allergies (store st)) als).
Proof.
  intros Hcfg. unfold gorm_Create. rewrite Hcfg. unfold exec, no_op. simpl.
  destruct (faulty env (executed st)); [discriminate|].
  destruct (create_callbacks env order _) as [[e o] st1] eqn:Hc.
  destruct e as [err|]; [discriminate|].
  destruct (faulty env (executed st1)); [discriminate|].
  intros [= <- <-]. simpl.
  apply create_callbacks_any in Hc. simpl in Hc. exact Hc.
Qed.

Lemma gorm_Create_failure (db : gorm.DB) (env : Env) (order order' : Order.t)
    (st st' : St) (err : error) :
  gorm.SkipDefaultTransaction (gorm.config db) = false ->
  gorm_Create db env order st = (Some err, order', st') ->
  store st' = store st.
Proof.
  intros Hcfg. unfold gorm_Create. rewrite Hcfg. unfold exec, no_op. simpl.
  destruct (faulty env (executed st)); [by intros [= <- <- <-]|].
  destruct (create_callbacks env order _) as [[e o] st1] eqn:Hc.
  destruct e as [err1|]; [by intros [= <- <- <-]|].
  destruct (faulty env (executed st1)); [by intros [= <- <- <-]|].
  discriminate.
Qed.

(** ** Supplied identifiers that do not repeat *)

Lemma same_supplied_elem {A : Type} (ID : A -> string) (l l' : list A) (id : string) :
  same_supplied ID l l' -> id ∈ supplied (map ID l) -> id ∈ map ID l'.
Proof.
  induction 1 as [|x x' l l' Hx _ IH]; simpl; [done|].
  rewrite supplied_cons. destruct (decide (ID x = "")) as [E|NE].
  - intros Hin. right. by apply IH.
  - intros Hin. apply elem_of_cons in Hin as [->|Hin].
    + rewrite <- (Hx NE). by left.
    + right. by apply IH.
Qed.

Lemma same_supplied_NoDup {A : Type} (ID : A -> string) (l l' : list A) :
  same_supplied ID l l' -> NoDup (map ID l') -> NoDup (supplied (map ID l)).
Proof.
  intros H. induction H as [|x x' l l' Hx HF IH]; simpl; intros Hnd.
  - apply NoDup_nil_2.
  - apply NoDup_cons in Hnd as [Hnotin Hnd]. rewrite supplied_cons.
    destruct (decide (ID x = "")) as [E|NE]; [by apply IH|].
    apply NoDup_cons. split; [|by apply IH].
    intros Hin. apply Hnotin. rewrite (Hx NE).
    by eapply same_supplied_elem.
Qed.

Lemma same_supplied_concat {A : Type} (ID : A -> string) (ls ls' : list (list A)) :
  Forall2 (same_supplied ID) ls ls' -> same_supplied ID (concat ls) (concat ls').
Proof.
  unfold same_supplied. induction 1; simpl; [constructor|]. by apply Forall2_app.
Qed.

Lemma items_same_supplied_distinct (items items' : list OrderItem.t) :
  Forall2 item_same_supplied items items' ->
  NoDup (map OrderItem.ID items') ->
  NoDup (map OrderItemDietaryRequirement.ID (all_children DietaryRequirement_rel items')) ->
  NoDup (map OrderItemTopping.ID (all_children Toppings_rel items')) ->
  NoDup (map OrderItemAllergy.ID (all_children Allergies_rel items')) ->
  NoDup (supplied (map OrderItem.ID items)) /\
  NoDup (supplied (map OrderItemDietaryRequirement.ID
                     (all_children DietaryRequirement_rel items))) /\
  NoDup (supplied (map OrderItemTopping.ID (all_children Toppings_rel items))) /\
  NoDup (supplied (map OrderItemAllergy.ID (all_children Allergies_rel items))).
Proof.
  intros HF Hi Hd Ht Ha. unfold all_children in *. repeat split.
  - eapply same_supplied_NoDup; [|exact Hi].
    eapply Forall2_impl; [exact HF|]. by intros x y (? & _).
  - eapply same_supplied_NoDup; [|exact Hd]. apply same_supplied_concat.
    apply Forall2_fmap. eapply Forall2_impl; [exact HF|]. by intros x y (_ & ? & _).
  - eapply same_supplied_NoDup; [|exact Ht]. apply same_supplied_concat.
    apply Forall2_fmap. eapply Forall2_impl; [exact HF|]. by intros x y (_ & _ & ? & _).
  - eapply same_supplied_NoDup; [|exact Ha]. apply same_supplied_concat.
    apply Forall2_fmap. eapply Forall2_impl; [exact HF|]. by intros x y (_ & _ & _ & ?).
Qed.

(** When the identifiers of the created graph are pairwise distinct, no
    supplied identifier was repeated in the submitted one. *)
Lemma fresh_distinct (db : gorm.DB) (env : Env) (order order' : Order.t) (st st' : St)
    (s : Store) :
  gorm.SkipDefaultTransaction (gorm.config db) = false ->
  gorm_Create db env order st = (None, order', st') ->
  fresh_graph s order' ->
  distinct_supplied order.
Proof.
  intros Hcfg H (_ & Hi & _ & (Hd & _) & (Ht & _) & (Ha & _)).
  apply gorm_Create_any in H as (HF & _); [|exact Hcfg].
  by apply (items_same_supplied_distinct _ _ HF).
Qed.

Lemma unidentified_distinct (o : Order.t) : unidentified o -> distinct_supplied o.
Proof.
  intros (_ & HF). unfold distinct_supplied, all_children.
  assert (Hi : Forall (fun id => id = "") (map OrderItem.ID (Order.Items o))).
  { apply Forall_fmap. eapply Forall_impl; [exact HF|]. by intros oi (? & _). }
  assert (Hc : forall {B : Type} (ID : B -> string) (ch : OrderItem.t -> list B),
             Forall (fun oi => Forall (fun c => ID c = "") (ch oi)) (Order.Items o) ->
             Forall (fun id => id = "") (map ID (concat (map ch (Order.Items o))))).
  { intros B ID ch H. apply Forall_fmap, Forall_concat, Forall_fmap.
    eapply Forall_impl; [exact H|]. done. }
  repeat split; rewrite supplied_all_empty; try apply NoDup_nil_2; try done.
  - apply Hc. eapply Forall_impl; [exact HF|]. by intros oi (_ & ? & _).
  - apply Hc. eapply Forall_impl; [exact HF|]. by intros oi (_ & _ & ? & _).
  - apply Hc. eapply Forall_impl; [exact HF|]. by intros oi (_ & _ & _ & ?).
Qed.

(** ** Upserts *)

Section Upsert.
Context {A : Type} (pk : A -> string) (update : A -> A -> A).
Context (Hpk : forall old new, pk (update old new) = pk old).

Lemma upsert_keys (tbl : list A) (row : A) (id : string) :
  id ∈ map pk (upsert pk update tbl row) <-> id ∈ map pk tbl \/ id = pk row.
Proof.
  induction tbl as [|r tbl IH]; simpl.
  - rewrite list_elem_of_singleton. split; [auto|]. intros [Hq|Hq]; [inversion Hq|done].
  - destruct (decide (pk r = pk row)) as [E|NE]; simpl.
    + rewrite Hpk, !elem_of_cons. split; [tauto|].
      intros [[?|?]|?]; [tauto|tauto|left; congruence].
    + rewrite !elem_of_cons, IH. tauto.
Qed.

Lemma upsert_all_keys (rows tbl : list A) (id : string) :
  id ∈ map pk (upsert_all pk update tbl rows) <-> id ∈ map pk tbl \/ id ∈ map pk rows.
Proof.
  unfold upsert_all. revert tbl. induction rows as [|r rows IH]; intros tbl; simpl.
  - split; [auto|]. intros [Hq|Hq]; [done|inversion Hq].
  - rewrite IH, upsert_keys, elem_of_cons. tauto.
Qed.

Lemma upsert_fresh (tbl : list A) (row : A) :
  pk row ∉ map pk tbl -> upsert pk update tbl row = tbl ++ [row].
Proof.
  induction tbl as [|r tbl IH]; simpl; [done|].
  intros Hq. apply not_elem_of_cons in Hq as [Hne Hnin].
  rewrite decide_False by congruence. by rewrite IH.
Qed.

Lemma upsert_all_fresh (rows tbl : list A) :
  NoDup (map pk rows) ->
  (forall id, id ∈ map pk rows -> id ∉ map pk tbl) ->
  upsert_all pk update tbl rows = tbl ++ rows.
Proof.
  unfold upsert_all. revert tbl. induction rows as [|r rows IH]; intros tbl Hnd Hfresh; simpl.
  - by rewrite app_nil_r.
  - simpl in Hnd. apply NoDup_cons in Hnd as [Hr Hnd].
    rewrite upsert_fresh by (apply Hfresh; simpl; left).
    rewrite IH; [by rewrite <- app_assoc| exact Hnd |].
    intros id Hid. rewrite map_app. simpl. intros Hin.
    apply elem_of_app in Hin as [Hin|Hin].
    + eapply Hfresh; [|exact Hin]. simpl. by right.
    + apply list_elem_of_singleton in Hin. subst id. by apply Hr.
Qed.

End Upsert.

(** ** Queries *)

Lemma filter_none {A : Type} (P : A -> Prop) `{!forall x, Decision (P x)} (l : list A) :
  (forall x, x ∈ l -> ~ P x) -> filter P l = [].
Proof.
  induction l as [|x l IH]; intros Hq; [done|].
  rewrite filter_cons, decide_False by (apply Hq; left).
  apply IH. intros y Hy. apply Hq. by right.
Qed.

Lemma filter_all {A : Type} (P : A -> Prop) `{!forall x, Decision (P x)} (l : list A) :
  (forall x, x ∈ l -> P x) -> filter P l = l.
Proof.
  induction l as [|x l IH]; intros Hq; [done|].
  rewrite filter_cons, decide_True by (apply Hq; left).
  f_equal. apply IH. intros y Hy. apply Hq. by right.
Qed.

Lemma elem_of_all_children {A : Type} (R : HasMany A) (items : list OrderItem.t) (c : A) :
  c ∈ all_children R items <-> exists oi, oi ∈ items /\ c ∈ hm_children R oi.
Proof.
  unfold all_children. rewrite list_elem_of_In, in_concat. split.
  - intros (cs & Hcs & Hc). apply in_map_iff in Hcs as (oi & <- & Hoi).
    exists oi. by rewrite !list_elem_of_In.
  - intros (oi & Hoi & Hc). exists (hm_children R oi).
    rewrite <- !list_elem_of_In. split; [|done].
    apply list_elem_of_In, in_map, list_elem_of_In, Hoi.
Qed.

(** The rows an owner gets back are its own children, provided the owners'
    keys are pairwise distinct and every child carries its owner's key. *)
Lemma select_own_children {A : Type} (R : HasMany A) (items : list OrderItem.t)
    (oi : OrderItem.t) :
  NoDup (map OrderItem.ID items) ->
  Forall (fun x => Forall (fun c => hm_OrderItemID R c = OrderItem.ID x) (hm_children R x))
         items ->
  oi ∈ items ->
  select_eq (hm_OrderItemID R) (OrderItem.ID oi) (all_children R items) = hm_children R oi.
Proof.
  unfold select_eq, all_children.
  induction items as [|x items IH]; intros Hnd Hl Hin; [inversion Hin|].
  simpl in *. apply NoDup_cons in Hnd as [Hx Hnd].
  apply Forall_cons in Hl as [Hlx Hl].
  rewrite filter_app.
  destruct (decide (oi = x)) as [->|Hne].
  - rewrite filter_all by (intros c Hc; by eapply Forall_forall in Hlx).
    rewrite filter_none; [by rewrite app_nil_r|].
    intros c Hc Hfk. apply Hx.
    apply (elem_of_all_children R) in Hc as (y & Hy & Hc).
    eapply Forall_forall in Hl; [|exact Hy].
    eapply Forall_forall in Hl; [|exact Hc].
    rewrite <- Hfk, Hl. apply list_elem_of_fmap. eauto.
  - apply elem_of_cons in Hin as [?|Hin]; [done|].
    rewrite filter_none; [simpl; by apply IH|].
    intros c Hc Hfk. apply Hx.
    eapply Forall_forall in Hlx; [|exact Hc].
    rewrite <- Hlx, Hfk. apply list_elem_of_fmap. eauto.
Qed.

(** ** What a created graph looks like *)

Lemma child_created_owner {A : Type} (R : HasMany A) (with_ID : string -> A -> A)
    (L : HasManyLaws R with_ID) (env : Env) (lo hi : nat) (owner : string) (c c' : A) :
  child_created R with_ID env lo hi owner c c' ->
  hm_OrderItemID R c' = owner /\ assigned env lo hi (hm_ID R c) (hm_ID R c').
Proof.
  intros H. split.
  - unfold child_created, hooked in H.
    destruct (decide _); [destruct H as (k & _ & ->)|subst c'].
    + by rewrite (law_owner_with_ID R with_ID L), (law_owner_with_owner R with_ID L).
    + apply (law_owner_with_owner R with_ID L).
  - apply (hooked_assigned _ _ _ _ _ _ _ (law_ID_with_ID R with_ID L)) in H.
    by rewrite (law_ID_with_owner R with_ID L) in H.
Qed.

Lemma children_created_owned {A : Type} (R : HasMany A) (with_ID : string -> A -> A)
    (L : HasManyLaws R with_ID) (env : Env) (lo hi : nat) (owner : string) (l k : list A) :
  Forall2 (child_created R with_ID env lo hi owner) l k ->
  Forall (fun c => hm_OrderItemID R c = owner) k /\
  Forall2 (fun c c' => assigned env lo hi (hm_ID R c) (hm_ID R c')) l k.
Proof.
  induction 1 as [|c c' l k Hc _ [IH1 IH2]]; [split; constructor|].
  destruct (child_created_owner R with_ID L _ _ _ _ _ _ Hc) as [Ho Ha].
  split; constructor; auto.
Qed.

Lemma created_linked (env : Env) (lo hi : nat) (o o' : Order.t) :
  created env lo hi o o' -> linked o'.
Proof.
  intros (id' & items' & _ & -> & HF). unfold linked. simpl.
  induction HF as [|oi oi' l k Hi _ IH]; constructor; [|exact IH].
  destruct Hi as (iid & ds & ts & als & _ & -> & Hd & Ht & Ha). simpl.
  unfold owned_children. simpl.
  split; [reflexivity|]. split; [|split].
  - apply (children_created_owned _ _ DietaryRequirement_laws) in Hd. apply Hd.
  - apply (children_created_owned _ _ Toppings_laws) in Ht. apply Ht.
  - apply (children_created_owned _ _ Allergies_laws) in Ha. apply Ha.
Qed.

Lemma created_graph_assigned (env : Env) (lo hi : nat) (o o' : Order.t) :
  created env lo hi o o' -> graph_assigned env lo hi o o'.
Proof.
  intros (id' & items' & Hid & -> & HF). split; [exact Hid|]. simpl.
  eapply Forall2_impl; [exact HF|].
  intros oi oi' (iid & ds & ts & als & Hiid & -> & Hd & Ht & Ha).
  unfold children_assigned. simpl.
  split; [exact Hiid|]. split; [|split].
  - apply (children_created_owned _ _ DietaryRequirement_laws) in Hd. apply Hd.
  - apply (children_created_owned _ _ Toppings_laws) in Ht. apply Ht.
  - apply (children_created_owned _ _ Allergies_laws) in Ha. apply Ha.
Qed.

Lemma created_strip (env : Env) (lo hi : nat) (o o' : Order.t) :
  created env lo hi o o' -> strip o' = strip o.
Proof.
  intros (id' & items' & _ & -> & HF). unfold strip. simpl. f_equal.
  induction HF as [|oi oi' l k Hi _ IH]; simpl; [done|]. f_equal; [|exact IH].
  destruct Hi as (iid & ds & ts & als & _ & -> & Hd & Ht & Ha).
  unfold strip_item. simpl. f_equal.
  - clear Ht Ha. induction Hd as [|c c' cl ck Hc _ IHd]; simpl; [done|].
    f_equal; [|exact IHd].
    unfold child_created, hooked in Hc. simpl in Hc.
    destruct (decide _); [destruct Hc as (n & _ & ->)|subst c']; reflexivity.
  - clear Hd Ha. induction Ht as [|c c' cl ck Hc _ IHd]; simpl; [done|].
    f_equal; [|exact IHd].
    unfold child_created, hooked in Hc. simpl in Hc.
    destruct (decide _); [destruct Hc as (n & _ & ->)|subst c']; reflexivity.
  - clear Hd Ht. induction Ha as [|c c' cl ck Hc _ IHd]; simpl; [done|].
    f_equal; [|exact IHd].
    unfold child_created, hooked in Hc. simpl in Hc.
    destruct (decide _); [destruct Hc as (n & _ & ->)|subst c']; reflexivity.
Qed.

Lemma created_status (env : Env) (lo hi : nat) (o o' : Order.t) :
  created env lo hi o o' -> Order.Status o' = Order.Status o.
Proof. by intros (id' & items' & _ & -> & _). Qed.

(** ** Every row of an appended graph is in the database *)

Lemma appended_persisted (s : Store) (o : Order.t) : persisted (appended s o) o.
Proof.
  unfold persisted, appended, children_persisted. simpl.
  split; [|split; [|split; [|split]]].
  - apply elem_of_app. right. by left.
  - apply Forall_forall. intros oi Hoi. apply elem_of_app. right.
    apply list_elem_of_fmap. eauto.
  - apply Forall_forall. intros oi Hoi. apply Forall_forall. intros c Hc.
    apply elem_of_app. right. apply (elem_of_all_children DietaryRequirement_rel). eauto.
  - apply Forall_forall. intros oi Hoi. apply Forall_forall. intros c Hc.
    apply elem_of_app. right. apply (elem_of_all_children Toppings_rel). eauto.
  - apply Forall_forall. intros oi Hoi. apply Forall_forall. intros c Hc.
    apply elem_of_app. right. apply (elem_of_all_children Allergies_rel). eauto.
Qed.

(** ** Reading back *)

Lemma preloadHasMany_hydrate {A : Type} (R : HasMany A) (env : Env)
    (f : OrderItem.t -> OrderItem.t) (items : list OrderItem.t) (old : list A) (st : St) :
  faulty env (executed st) = false ->
  hm_table R (store st) = old ++ all_children R items ->
  (forall oi, OrderItem.ID (f oi) = OrderItem.ID oi) ->
  NoDup (map OrderItem.ID items) ->
  (forall id, id ∈ map OrderItem.ID items -> id ∉ map (hm_OrderItemID R) old) ->
  Forall (owned_children R) items ->
  preloadHasMany R env (map f items) st =
    (None,
     map (fun oi => hm_with_children R (hm_children R oi) (f oi)) items,
     mkSt (store st) (generated st) (S (executed st))).
Proof.
  intros Hok Htbl Hf Hnd Hfresh Hown.
  unfold preloadHasMany, query. rewrite Hok, Htbl.
  assert (Hids : map OrderItem.ID (map f items) = map OrderItem.ID items).
  { rewrite map_map. apply map_ext. exact Hf. }
  rewrite Hids. unfold select_in. rewrite filter_app.
  rewrite filter_none.
  2:{ intros r Hr Hin. eapply Hfresh; [exact Hin|].
      apply list_elem_of_fmap. eauto. }
  rewrite filter_all.
  2:{ intros c Hc. apply (elem_of_all_children R) in Hc as (oi & Hoi & Hc).
      eapply Forall_forall in Hown; [|exact Hoi].
      eapply Forall_forall in Hown; [|exact Hc].
      rewrite Hown. apply list_elem_of_fmap. eauto. }
  simpl. f_equal. f_equal. rewrite map_map.
  apply map_ext_in. intros oi Hoi. rewrite Hf. f_equal.
  apply select_own_children; [done|done|by apply list_elem_of_In].
Qed.

Lemma committed_fresh (s : Store) (o : Order.t) :
  fresh_graph s o ->
  committed s o =
    mkStore (orders s ++ [order_row o])
      (order_items s ++ map item_row (Order.Items o))
      (order_item_dietary_requirements s ++
       all_children DietaryRequirement_rel (Order.Items o))
      (order_item_toppings s ++ all_children Toppings_rel (Order.Items o))
      (order_item_allergies s ++ all_children Allergies_rel (Order.Items o)).
Proof.
  intros (_ & Hnd & Hfr & (Hd1 & Hd2 & _) & (Ht1 & Ht2 & _) & (Ha1 & Ha2 & _)).
  assert (Hrow : map OrderItem.ID (map item_row (Order.Items o)) =
                 map OrderItem.ID (Order.Items o)).
  { rewrite map_map. apply map_ext. by intros []. }
  unfold committed, upsert_item_rows, upsert_rows. f_equal.
  - apply upsert_all_fresh; rewrite Hrow; done.
  - by apply upsert_all_fresh.
  - by apply upsert_all_fresh.
  - by apply upsert_all_fresh.
Qed.

Lemma GetOrder_committed (m : OrderModel) (env : Env) (s : Store) (o : Order.t) (st : St) :
  store st = committed s o ->
  (Order.ID o ∉ map Order.ID (orders s)) ->
  linked o ->
  fresh_graph s o ->
  no_faults_from env (executed st) ->
  fst (GetOrder m env (Order.ID o) st) = (o, None).
Proof.
  intros Hst Hnew Hlink Hfresh Hok.
  rewrite (committed_fresh _ _ Hfresh) in Hst.
  destruct Hfresh as (Hown & Hnd & _ & (_ & _ & Hd) & (_ & _ & Ht) & (_ & _ & Ha)).
  unfold GetOrder, query. rewrite (Hok (executed st)) by lia.
  rewrite Hst. simpl. unfold select_eq. rewrite filter_app.
  rewrite filter_none.
  2:{ intros r Hr Hid. apply Hnew. rewrite <- Hid. apply list_elem_of_fmap. eauto. }
  rewrite filter_cons, decide_True by (by destruct o). simpl.
  unfold preloadItems, query. simpl. rewrite (Hok (S (executed st))) by lia.
  unfold select_in. rewrite filter_app.
  rewrite filter_none.
  2:{ intros r Hr Hin. apply Hown. apply list_elem_of_singleton in Hin.
      replace (Order.ID (order_row o)) with (Order.ID o) in Hin by (by destruct o).
      rewrite <- Hin. apply list_elem_of_fmap. eauto. }
  rewrite filter_all.
  2:{ intros r Hr. apply list_elem_of_fmap in Hr as (oi & -> & Hoi).
      eapply Forall_forall in Hlink; [|exact Hoi]. destruct Hlink as (Ho & _).
      apply list_elem_of_singleton. destruct o, oi; simpl in *. exact Ho. }
  simpl.
  remember (map item_row (Order.Items o)) as rows eqn:Hrows in |- *.
  destruct rows as [|r0 rs].
  - simpl. f_equal. destruct o; simpl in *.
    destruct Items; [reflexivity|discriminate].
  - cbv iota. rewrite Hrows. clear Hrows r0 rs.
    set (st1 := mkSt _ (generated st) (S (S (executed st)))).
    assert (HownD : Forall (owned_children DietaryRequirement_rel) (Order.Items o)).
    { eapply Forall_impl; [exact Hlink|]. by intros oi (_ & ? & _). }
    assert (HownT : Forall (owned_children Toppings_rel) (Order.Items o)).
    { eapply Forall_impl; [exact Hlink|]. by intros oi (_ & _ & ? & _). }
    assert (HownA : Forall (owned_children Allergies_rel) (Order.Items o)).
    { eapply Forall_impl; [exact Hlink|]. by intros oi (_ & _ & _ & ?). }
    rewrite (preloadHasMany_hydrate Allergies_rel env item_row (Order.Items o)
               (order_item_allergies s) st1);
      [|apply Hok; simpl; lia|reflexivity|by intros []|done|done|done].
    unfold andThen at 2. unfold andThen at 1.
    rewrite (preloadHasMany_hydrate DietaryRequirement_rel env
               (fun oi => hm_with_children Allergies_rel (hm_children Allergies_rel oi)
                            (item_row oi))
               (Order.Items o) (order_item_dietary_requirements s));
      [|apply Hok; simpl; lia|reflexivity|by intros []|done|done|done].
    rewrite (preloadHasMany_hydrate Toppings_rel env
               (fun oi => hm_with_children DietaryRequirement_rel
                            (hm_children DietaryRequirement_rel oi)
                            (hm_with_children Allergies_rel (hm_children Allergies_rel oi)
                               (item_row oi)))
               (Order.Items o) (order_item_toppings s));
      [|apply Hok; simpl; lia|reflexivity|by intros []|done|done|done].
    simpl. f_equal.
    rewrite (map_ext _ id) by (by intros []). rewrite map_id. by destruct o.
Qed.

Lemma GetOrder_missing (m : OrderModel) (env : Env) (id : string) (st : St) :
  id ∉ map Order.ID (orders (store st)) ->
  fst (GetOrder m env id st) =
    (zero_Order,
     Some (if faulty env (executed st) then ErrStorage else ErrRecordNotFound)).
Proof.
  intros Hid. unfold GetOrder, query.
  destruct (faulty env (executed st)); [reflexivity|].
  unfold select_eq. rewrite filter_none; [reflexivity|].
  intros r Hr Hrid. apply Hid. rewrite <- Hrid. apply list_elem_of_fmap. eauto.
Qed.

Lemma preloadHasMany_cases {A : Type} (R : HasMany A) (env : Env)
    (items : list OrderItem.t) (st : St) :
  preloadHasMany R env items st =
    if faulty env (executed st)
    then (Some ErrStorage, items, mkSt (store st) (generated st) (S (executed st)))
    else (None, preload_rel R (store st) items,
          mkSt (store st) (generated st) (S (executed st))).
Proof.
  unfold preloadHasMany, query, preload_rel. by destruct (faulty env (executed st)).
Qed.

Lemma GetOrder_healthy (m : OrderModel) (env : Env) (id : string) (st : St) :
  no_faults_from env (executed st) ->
  fst (GetOrder m env id st) = read_order (store st) id.
Proof.
  intros Hok. unfold GetOrder, read_order, query. simpl.
  rewrite (Hok (executed st)) by lia.
  destruct (select_eq Order.ID id (orders (store st))) as [|row rest]; [reflexivity|].
  unfold preloadItems, query. simpl. rewrite (Hok (S (executed st))) by lia.
  destruct (select_in OrderItem.OrderID [Order.ID row] (order_items (store st)))
    as [|oi items]; [reflexivity|].
  unfold andThen. rewrite !preloadHasMany_cases. simpl.
  rewrite (Hok (S (S (executed st)))) by lia.
  rewrite preloadHasMany_cases. simpl.
  rewrite (Hok (S (S (S (executed st))))) by lia.
  rewrite preloadHasMany_cases. simpl.
  rewrite (Hok (S (S (S (S (executed st)))))) by lia.
  reflexivity.
Qed.

Lemma fresh_on_empty_store (o : Order.t) :
  NoDup (map OrderItem.ID (Order.Items o)) ->
  NoDup (map OrderItemDietaryRequirement.ID
           (all_children DietaryRequirement_rel (Order.Items o))) ->
  NoDup (map OrderItemTopping.ID (all_children Toppings_rel (Order.Items o))) ->
  NoDup (map OrderItemAllergy.ID (all_children Allergies_rel (Order.Items o))) ->
  fresh_graph empty_Store o.
Proof.
  intros H1 H2 H3 H4. unfold fresh_graph, children_fresh, item_owners, item_keys,
    child_keys, child_owners. simpl.
  repeat split; try assumption; intros; apply not_elem_of_nil.
Qed.

(** ** The repository *)

Lemma InitDB_transactional :
  gorm.SkipDefaultTransaction (gorm.config (DB (Order InitDB))) = false.
Proof. reflexivity. Qed.

(** C1, as amended. [CreateOrder] is atomic. When it succeeds and the
    identifiers the graph then carries are unused, the graph in memory is
    the submitted one in every field but the identifiers, the owner keys
    and the time stamp, and the database is the old one with the header,
    every item and every junction row of that graph added to their tables:
    each of these rows is in its table, and no other row is changed. When
    it returns an error, the database is the one it started from: a read
    the storage engine answers returns what the database held before the
    call, and [GetOrder] answers not-found for every identifier that named
    no order before the call. *)
Theorem CreateOrder_atomic (env : Env) (order order' : Order.t) (st st' : St)
    (e : option error) :
  CreateOrder (Order InitDB) env order st = (e, order', st') ->
  match e with
  | None =>
      fresh_graph (store st) order' ->
      strip order' = strip order /\
      (Order.ID order' ∉ map Order.ID (orders (store st))) /\
      store st' = appended (store st) order' /\
      persisted (store st') order'
  | Some _ =>
      store st' = store st /\
      (forall id,
          no_faults_from env (executed st') ->
          fst (GetOrder (Order InitDB) env id st') = read_order (store st) id) /\
      (forall id,
          id ∉ map Order.ID (orders (store st)) ->
          faulty env (executed st') = false ->
          fst (GetOrder (Order InitDB) env id st') =
            (zero_Order, Some ErrRecordNotFound))
  end.
Proof.
  unfold CreateOrder. intros H. destruct e as [err|].
  - apply gorm_Create_failure in H; [|exact InitDB_transactional].
    split; [exact H|]. split.
    + intros id Hok. rewrite GetOrder_healthy by exact Hok. by rewrite H.
    + intros id Hid Hok.
      rewrite GetOrder_missing by (by rewrite H). by rewrite Hok.
  - intros Hfresh.
    pose proof (fresh_distinct _ _ _ _ _ _ _ InitDB_transactional H Hfresh) as Hdist.
    apply gorm_Create_success in H as (_ & Hc & Hnew & Hs);
      [|exact InitDB_transactional|exact Hdist].
    assert (Hs' : store st' = appended (store st) order').
    { rewrite Hs. by apply committed_fresh. }
    split; [by eapply created_strip|]. split; [exact Hnew|]. split; [exact Hs'|].
    rewrite Hs'. apply appended_persisted.
Qed.

Lemma CreateOrder_atomic_witness :
  (CreateOrder (Order InitDB) healthy_env two_pizzas_order st0 = created_result /\
   fresh_graph (store st0) (snd (fst created_result)) /\
   strip (snd (fst created_result)) = strip two_pizzas_order /\
   store (snd created_result) = appended (store st0) (snd (fst created_result)) /\
   persisted (store (snd created_result)) (snd (fst created_result))) /\
  (CreateOrder (Order InitDB) failing_env two_pizzas_order st0 = failed_result /\
   fst (fst failed_result) = Some ErrStorage /\
   store (snd failed_result) = empty_Store /\
   fst (GetOrder (Order InitDB) failing_env "id-0" (snd failed_result)) =
     (zero_Order, Some ErrRecordNotFound)).
Proof.
  split.
  - assert (H : CreateOrder (Order InitDB) healthy_env two_pizzas_order st0 =
                created_result) by (vm_compute; reflexivity).
    assert (Hf : fresh_graph (store st0) (snd (fst created_result))).
    { apply fresh_on_empty_store; by_computation. }
    split; [exact H|]. split; [exact Hf|].
    destruct (CreateOrder_atomic healthy_env two_pizzas_order
                (snd (fst created_result)) st0 (snd created_result) None H Hf)
      as (Hstrip & _ & Hs & Hp).
    split; [exact Hstrip|]. split; [exact Hs|exact Hp].
  - assert (H : CreateOrder (Order InitDB) failing_env two_pizzas_order st0 =
                failed_result) by (vm_compute; reflexivity).
    split; [exact H|]. split; [reflexivity|].
    destruct (CreateOrder_atomic failing_env two_pizzas_order
                (snd (fst failed_result)) st0 (snd failed_result)
                (Some ErrStorage) H) as (Hs & _ & Hget).
    split; [exact Hs|].
    apply Hget; [|reflexivity].
    simpl. apply not_elem_of_nil.
Defined.

(** C1 as stated fails, in both of its halves. A creation that is refused
    for a duplicated key leaves the identifier it carried naming the order
    stored before: [GetOrder] returns that order, not not-found. And a
    creation that succeeds with an item that carries the identifier of a
    stored item writes the header but not the item: the stored row is only
    given the new owner, and the submitted size and pizza are in no row. *)
Lemma atomicity_counterexample :
  (CreateOrder (Order InitDB) healthy_env duplicate_order (snd supplied_result) =
     duplicate_result /\
   fst (fst duplicate_result) = Some ErrDuplicatedKey /\
   Order.ID (snd (fst duplicate_result)) = "my-order" /\
   fst (GetOrder (Order InitDB) healthy_env "my-order" (snd duplicate_result)) =
     duplicate_read /\
   snd duplicate_read = None /\
   Order.CustomerName (fst duplicate_read) = "Bob" /\
   Order.CustomerName duplicate_order = "Eve") /\
  (CreateOrder (Order InitDB) healthy_env colliding_order (snd supplied_result) =
     colliding_result /\
   fst (fst colliding_result) = None /\
   (order_row (snd (fst colliding_result)) ∈ orders (store (snd colliding_result))) /\
   map OrderItem.Size (Order.Items (snd (fst colliding_result))) = ["Family"] /\
   Forall (fun row => OrderItem.Size row <> "Family")
          (order_items (store (snd colliding_result))) /\
   ~ persisted (store (snd colliding_result)) (snd (fst colliding_result))).
Proof.
  split.
  - split; [vm_compute; reflexivity|]. split; [reflexivity|]. split; [reflexivity|].
    split; [vm_compute; reflexivity|]. split; [reflexivity|]. split; reflexivity.
  - split; [vm_compute; reflexivity|]. split; [reflexivity|].
    split; [by_computation|]. split; [reflexivity|].
    assert (Hno : Forall (fun row => OrderItem.Size row <> "Family")
                    (order_items (store (snd colliding_result)))) by by_computation.
    split; [exact Hno|].
    intros (_ & Hitems & _).
    apply Forall_cons in Hitems as [Hin _].
    eapply Forall_forall in Hno; [|exact Hin]. by apply Hno.
Qed.

(** The transaction is what makes it so: with [SkipDefaultTransaction] the
    same failure leaves the order and its items behind, without their
    junction rows. *)
Example partial_write_without_transaction :
  let '(e, _, st') :=
    gorm_Create (gorm.Open (gorm.mkConfig true)) failing_env two_pizzas_order
      (mkSt empty_Store 0 1) in
  e = Some ErrStorage /\
  map Order.ID (orders (store st')) = ["id-0"] /\
  map OrderItem.ID (order_items (store st')) = ["id-1"; "id-2"] /\
  order_item_toppings (store st') = [].
Proof. vm_compute. repeat split. Qed.

(** C2, as amended. When [CreateOrder] succeeds and the identifiers the
    graph then carries are unused (pairwise distinct within a table, absent
    from the database and owning nothing there), [GetOrder] on the order's
    identifier, answered by the storage engine, returns the very graph
    [CreateOrder] left in memory; that graph equals the submitted one in
    every field but the identifiers, the owner keys and the time stamp,
    items and junction rows in their order. *)
Theorem roundtrip_of_fresh_graph (env : Env) (G G' : Order.t) (st st' : St) :
  CreateOrder (Order InitDB) env G st = (None, G', st') ->
  fresh_graph (store st) G' ->
  no_faults_from env (executed st') ->
  fst (GetOrder (Order InitDB) env (Order.ID G') st') = (G', None) /\
  strip G' = strip G.
Proof.
  unfold CreateOrder. intros H Hfresh Hok.
  pose proof (fresh_distinct _ _ _ _ _ _ _ InitDB_transactional H Hfresh) as Hdist.
  apply gorm_Create_success in H as (_ & Hc & Hnew & Hs);
    [|exact InitDB_transactional|exact Hdist].
  split.
  - eapply GetOrder_committed; eauto. by eapply created_linked.
  - by eapply created_strip.
Qed.

Lemma roundtrip_of_fresh_graph_witness :
  CreateOrder (Order InitDB) healthy_env two_pizzas_order st0 = created_result /\
  fresh_graph (store st0) (snd (fst created_result)) /\
  no_faults_from healthy_env (executed (snd created_result)) /\
  fst (GetOrder (Order InitDB) healthy_env "id-0" (snd created_result)) =
    (snd (fst created_result), None) /\
  strip (snd (fst created_result)) = strip two_pizzas_order.
Proof.
  assert (H : CreateOrder (Order InitDB) healthy_env two_pizzas_order st0 = created_result)
    by (vm_compute; reflexivity).
  assert (Hf : fresh_graph (store st0) (snd (fst created_result))).
  { apply fresh_on_empty_store; by_computation. }
  assert (Hok : no_faults_from healthy_env (executed (snd created_result)))
    by (intros k _; reflexivity).
  split; [exact H|]. split; [exact Hf|]. split; [exact Hok|].
  exact (roundtrip_of_fresh_graph healthy_env two_pizzas_order
           (snd (fst created_result)) st0 (snd created_result) H Hf Hok).
Defined.

(** C2 as stated fails: the second order is created without error, yet its
    item carried the identifier of a stored item, so the upsert only moved
    that item to the new order, and [GetOrder] returns the stored item's
    size, pizza and toppings instead of the submitted ones. *)
Lemma roundtrip_counterexample :
  CreateOrder (Order InitDB) healthy_env colliding_order (snd supplied_result) =
    colliding_result /\
  fst (fst colliding_result) = None /\
  fst (GetOrder (Order InitDB) healthy_env (Order.ID (snd (fst colliding_result)))
         (snd colliding_result)) = colliding_read /\
  snd colliding_read = None /\
  map OrderItem.Size (Order.Items colliding_order) = ["Family"] /\
  map OrderItem.Size (Order.Items (fst colliding_read)) = ["Small"] /\
  map OrderItem.Pizza (Order.Items colliding_order) = ["Supreme"] /\
  map OrderItem.Pizza (Order.Items (fst colliding_read)) = ["Hawaiian"] /\
  strip (fst colliding_read) <> strip colliding_order.
Proof.
  split; [vm_compute; reflexivity|]. split; [reflexivity|].
  split; [vm_compute; reflexivity|].
  repeat (split; [reflexivity|]).
  vm_compute. discriminate.
Qed.

(** C5. For an identifier that names no order, [GetOrder] returns an error,
    never a nil error next to the zero order: [ErrRecordNotFound] when the
    storage engine answers the query, which differs from the error of a
    storage failure. [serveCustomer] then answers 404 and renders
    nothing. *)
Theorem GetOrder_not_found (env : Env) (id : string) (st : St) :
  id ∉ map Order.ID (orders (store st)) ->
  let r := fst (GetOrder (Order InitDB) env id st) in
  snd r <> None /\
  (faulty env (executed st) = false -> r = (zero_Order, Some ErrRecordNotFound)) /\
  (faulty env (executed st) = true -> r = (zero_Order, Some ErrStorage)) /\
  ErrRecordNotFound <> ErrStorage /\
  fst (serveCustomer (NewHandler InitDB) env id st) =
    Replied ((if decide (id = "")
              then [ReplyString StatusBadRequest "Order ID is required"] else []) ++
             [ReplyString StatusNotFound "Order Not Found"]).
Proof.
  intros Hid r. subst r.
  pose proof (GetOrder_missing (Order InitDB) env id st Hid) as H.
  split; [by rewrite H|]. split; [intros Hok; by rewrite H, Hok|].
  split; [intros Hbad; by rewrite H, Hbad|]. split; [discriminate|].
  destruct (GetOrder (Order InitDB) env id st) as [[order err] st'] eqn:Hg.
  simpl in H. injection H as -> ->.
  unfold serveCustomer, NewHandler. cbn [Handler.orders]. rewrite Hg. reflexivity.
Qed.

Lemma GetOrder_not_found_witness :
  ("zzzzzzzzz" ∉ map Order.ID (orders (store (snd created_result)))) /\
  fst (GetOrder (Order InitDB) healthy_env "zzzzzzzzz" (snd created_result)) =
    (zero_Order, Some ErrRecordNotFound).
Proof.
  assert (H : "zzzzzzzzz" ∉ map Order.ID (orders (store (snd created_result)))).
  { by_computation. }
  split; [exact H|].
  destruct (GetOrder_not_found healthy_env "zzzzzzzzz" (snd created_result) H)
    as (_ & Hnf & _).
  apply Hnf. reflexivity.
Defined.

(** C6, as amended. After a successful [CreateOrder] of a graph whose
    supplied identifiers do not repeat among the items nor among the
    junction rows of one kind, the order, every item and every junction row
    whose identifier field was empty carries an identifier the generator
    produced during the call; a row that came with an identifier keeps
    it. *)
Theorem identifiers_assigned_when_empty (env : Env) (order order' : Order.t)
    (st st' : St) :
  distinct_supplied order ->
  CreateOrder (Order InitDB) env order st = (None, order', st') ->
  graph_assigned env (generated st) (generated st') order order'.
Proof.
  unfold CreateOrder. intros Hdist H.
  apply gorm_Create_success in H as (_ & Hc & _);
    [|exact InitDB_transactional|exact Hdist].
  by apply created_graph_assigned.
Qed.

Lemma identifiers_assigned_when_empty_witness :
  distinct_supplied mixed_order /\
  CreateOrder (Order InitDB) healthy_env mixed_order st0 = mixed_result /\
  graph_assigned healthy_env 0 (generated (snd mixed_result)) mixed_order
    (snd (fst mixed_result)) /\
  map OrderItem.ID (Order.Items (snd (fst mixed_result))) = ["item-a"; "id-1"].
Proof.
  assert (Hd : distinct_supplied mixed_order) by (repeat split; by_computation).
  assert (H : CreateOrder (Order InitDB) healthy_env mixed_order st0 = mixed_result)
    by (vm_compute; reflexivity).
  split; [exact Hd|]. split; [exact H|]. split; [|reflexivity].
  exact (identifiers_assigned_when_empty healthy_env mixed_order
           (snd (fst mixed_result)) st0 (snd mixed_result) Hd H).
Defined.

(** C6 as stated fails: the hooks keep an identifier the caller supplied.
    The order, its item and its topping row are created with the
    identifiers they came with, none of which the generator produced. *)
Lemma identifier_counterexample :
  CreateOrder (Order InitDB) healthy_env supplied_order st0 = supplied_result /\
  fst (fst supplied_result) = None /\
  Order.ID (snd (fst supplied_result)) = Order.ID supplied_order /\
  Order.ID supplied_order = "my-order" /\
  map OrderItem.ID (Order.Items (snd (fst supplied_result))) = ["my-item"] /\
  map OrderItemTopping.ID
      (all_children Toppings_rel (Order.Items (snd (fst supplied_result)))) =
    ["my-topping"] /\
  generated (snd supplied_result) = generated st0 /\
  (forall k, shortid_seq healthy_env k <> "my-order").
Proof.
  split; [vm_compute; reflexivity|].
  repeat (split; [reflexivity|]).
  intros k. simpl. unfold sample_shortid. discriminate.
Qed.

Lemma buildOrder_unidentified (form : OrderRequest.t) (order : Order.t) :
  buildOrder form = Some order -> unidentified order.
Proof.
  intros Hb. apply buildOrder_items in Hb as [Hitems Ho].
  split; [by rewrite Ho|].
  apply Forall_forall. intros item Hin.
  apply list_elem_of_lookup in Hin as [i Hi].
  pose proof (buildItems_lookup _ _ _ _ Hitems Hi) as H.
  apply buildItem_Some in H as (size & pizza & _ & _ & ->).
  unfold unidentified_children, dietaryRows, toppingRows, allergyRows. simpl.
  split; [reflexivity|].
  repeat split; apply Forall_forall; intros c Hc;
    apply list_elem_of_fmap in Hc as (x & -> & _); reflexivity.
Qed.

(** The condition on the supplied identifiers is needed. Of two items
    that carry the same identifier only the first is saved: the second is
    neither hooked nor inserted, its topping row stays without identifier
    and is stored nowhere, and two identifiers are generated, not three. Of
    two topping rows that carry the same identifier only the first is
    stored, under its own item. *)
Example repeated_identifier_is_skipped :
  (CreateOrder (Order InitDB) healthy_env repeated_order st0 = repeated_result /\
   fst (fst repeated_result) = None /\
   generated (snd repeated_result) = 2%nat /\
   map OrderItem.Size (order_items (store (snd repeated_result))) = ["Small"] /\
   map OrderItemTopping.Topping (order_item_toppings (store (snd repeated_result))) =
     ["Ham"] /\
   map OrderItemTopping.ID
       (all_children Toppings_rel (Order.Items (snd (fst repeated_result)))) =
     ["id-1"; ""] /\
   ~ distinct_supplied repeated_order /\
   ~ graph_assigned healthy_env 0 2 repeated_order (snd (fst repeated_result))) /\
  (CreateOrder (Order InitDB) healthy_env shared_order st0 = shared_result /\
   fst (fst shared_result) = None /\
   order_item_toppings (store (snd shared_result)) =
     [OrderItemTopping.mk "t" "a" "Ham" false] /\
   ~ distinct_supplied shared_order).
Proof.
  split.
  - split; [vm_compute; reflexivity|]. repeat (split; [reflexivity|]). split.
    + intros (Hnd & _). vm_compute in Hnd.
      apply NoDup_cons in Hnd as [Hnotin _]. apply Hnotin. by left.
    + intros (_ & HF). vm_compute in HF.
      apply Forall2_cons in HF as [_ HF]. apply Forall2_cons in HF as [(_ & _ & Ht & _) _].
      apply Forall2_cons in Ht as [Ht _]. unfold assigned in Ht. simpl in Ht.
      destruct Ht as (k & _ & Hk). vm_compute in Hk. discriminate.
  - split; [vm_compute; reflexivity|]. repeat (split; [reflexivity|]).
    intros (_ & _ & Hnd & _). vm_compute in Hnd.
    apply NoDup_cons in Hnd as [Hnotin _]. apply Hnotin. by left.
Qed.

(** C8. The order the handler builds has status "Order Placed", the first
    of the five statuses; [CreateOrder] leaves the status alone, and the row
    it stores carries it. *)
Theorem initial_status_is_placed (form : OrderRequest.t) (order : Order.t) :
  buildOrder form = Some order ->
  Order.Status order = "Order Placed" /\
  OrderStatuses = ["Order Placed"; "Preparing"; "Cooking"; "Quality Check"; "Ready"] /\
  (forall env st order' st',
      CreateOrder (Order InitDB) env order st = (None, order', st') ->
      Order.Status order' = "Order Placed" /\
      exists row, row ∈ orders (store st') /\
                  Order.ID row = Order.ID order' /\
                  Order.Status row = "Order Placed").
Proof.
  intros Hb.
  pose proof (unidentified_distinct _ (buildOrder_unidentified _ _ Hb)) as Hdist.
  apply buildOrder_items in Hb as [_ Ho].
  assert (Hst : Order.Status order = "Order Placed") by (by rewrite Ho).
  split; [exact Hst|]. split; [reflexivity|].
  intros env st order' st' H. unfold CreateOrder in H.
  apply gorm_Create_success in H as (_ & Hc & _ & Hs);
    [|exact InitDB_transactional|exact Hdist].
  apply created_status in Hc. rewrite Hst in Hc.
  split; [exact Hc|]. exists (order_row order').
  rewrite Hs. unfold committed. simpl.
  split; [apply elem_of_app; right; by left|]. by destruct order'.
Qed.

Lemma initial_status_is_placed_witness :
  buildOrder two_pizzas_form = Some two_pizzas_order /\
  Order.Status two_pizzas_order = "Order Placed" /\
  Order.Status (snd (fst created_result)) = "Order Placed".
Proof.
  assert (Hb : buildOrder two_pizzas_form = Some two_pizzas_order)
    by (vm_compute; reflexivity).
  destruct (initial_status_is_placed two_pizzas_form two_pizzas_order Hb)
    as (Hs & _ & Hc).
  split; [exact Hb|]. split; [exact Hs|].
  assert (H : CreateOrder (Order InitDB) healthy_env two_pizzas_order st0 = created_result)
    by (vm_compute; reflexivity).
  exact (proj1 (Hc healthy_env st0 (snd (fst created_result)) (snd created_result) H)).
Defined.

(** * Further properties of the code *)

(** ** The order the handler builds *)

Lemma mapM_ext_in {X Y : Type} (f g : X -> option Y) (l : list X) :
  (forall x, x ∈ l -> f x = g x) -> mapM f l = mapM g l.
Proof.
  induction l as [|x l IH]; intros Hfg; [done|].
  simpl. rewrite (Hfg x) by left. rewrite IH; [done|].
  intros y Hy. apply Hfg. by right.
Qed.

Lemma buildItem_is_Some (form : OrderRequest.t) (tm : gmap Z (list string)) (i : nat) :
  is_Some (buildItem form tm i) <->
  (i < length (OrderRequest.Sizes form))%nat /\
  (i < length (OrderRequest.PizzaTypes form))%nat.
Proof.
  unfold buildItem. rewrite <- !lookup_lt_is_Some.
  destruct (OrderRequest.Sizes form !! i) as [size|]; simpl.
  - destruct (OrderRequest.PizzaTypes form !! i) as [pizza|]; simpl.
    + split; [intros _; split; eauto | eauto].
    + split; [intros [? ?]; discriminate | intros [_ [? ?]]; discriminate].
  - split; [intros [? ?]; discriminate | intros [[? ?] _]; discriminate].
Qed.

(** X1. The handler panics (index out of range) exactly when the form has
    fewer pizza types than sizes. *)
Theorem buildOrder_panics_iff (form : OrderRequest.t) :
  buildOrder form = None <->
  (length (OrderRequest.PizzaTypes form) < length (OrderRequest.Sizes form))%nat.
Proof.
  unfold buildOrder, buildItems.
  set (tm := parseToppings (OrderRequest.Toppings form)).
  set (n := length (OrderRequest.Sizes form)).
  assert (Hs : is_Some (mapM (buildItem form tm) (seq 0 n)) <->
               (n <= length (OrderRequest.PizzaTypes form))%nat).
  { rewrite mapM_is_Some, Forall_forall. split.
    - intros H. destruct n as [|n']; [lia|].
      assert (Hin : n' ∈ seq 0 (S n')) by (apply elem_of_seq; lia).
      specialize (H _ Hin). apply buildItem_is_Some in H. lia.
    - intros Hle i Hi. apply elem_of_seq in Hi.
      apply buildItem_is_Some. subst n. lia. }
  destruct (mapM (buildItem form tm) (seq 0 n)) as [items|] eqn:Hm; simpl.
  - split; [discriminate|]. intros Hlt.
    assert (is_Some (Some items)) as Hsome by eauto.
    apply Hs in Hsome. lia.
  - split; [|done]. intros _.
    destruct (decide (length (OrderRequest.PizzaTypes form) < n)%nat) as [|Hge]; [done|].
    assert (is_Some (@None (list OrderItem.t))) as [? ?]; [|discriminate].
    apply Hs. lia.
Qed.

Lemma buildOrder_panics_iff_witness :
  (length (OrderRequest.PizzaTypes short_form) <
   length (OrderRequest.Sizes short_form))%nat /\
  buildOrder short_form = None.
Proof.
  assert (H : (length (OrderRequest.PizzaTypes short_form) <
               length (OrderRequest.Sizes short_form))%nat) by (simpl; lia).
  split; [exact H|].
  exact (proj2 (buildOrder_panics_iff short_form) H).
Defined.

(** X2. When the handler does not panic, the order has one item per size, in
    order: item [i] has the [i]-th size and pizza type and the [i]-th
    instruction, or none when there are fewer instructions; pizza types
    beyond the sizes are ignored; the header is the form's name, phone and
    address. *)
Theorem buildOrder_shape (form : OrderRequest.t) (order : Order.t) :
  buildOrder form = Some order ->
  Order.CustomerName order = OrderRequest.Name form /\
  Order.Phone order = OrderRequest.Phone form /\
  Order.Address order = OrderRequest.Address form /\
  map OrderItem.Size (Order.Items order) = OrderRequest.Sizes form /\
  map OrderItem.Pizza (Order.Items order) =
    take (length (OrderRequest.Sizes form)) (OrderRequest.PizzaTypes form) /\
  (forall i item,
      Order.Items order !! i = Some item ->
      OrderItem.Instructions item = default "" (OrderRequest.Instructions form !! i)).
Proof.
  intros Hb. pose proof Hb as Hb'. apply buildOrder_items in Hb' as [Hitems Ho].
  assert (Hlook : forall i item, Order.Items order !! i = Some item ->
            OrderRequest.Sizes form !! i = Some (OrderItem.Size item) /\
            OrderRequest.PizzaTypes form !! i = Some (OrderItem.Pizza item) /\
            OrderItem.Instructions item = default "" (OrderRequest.Instructions form !! i)).
  { intros i item Hi.
    pose proof (buildItems_lookup _ _ _ _ Hitems Hi) as H.
    apply buildItem_Some in H as (size & pizza & Hs & Hp & ->). simpl.
    split; [done|]. split; [done|]. reflexivity. }
  assert (Hlen : length (Order.Items order) = length (OrderRequest.Sizes form)).
  { unfold buildItems in Hitems. apply length_mapM in Hitems.
    by rewrite length_seq in Hitems. }
  rewrite Ho at 1 2 3. simpl.
  split; [done|]. split; [done|]. split; [done|]. split; [|split].
  - apply list_eq. intros i. rewrite list_lookup_fmap.
    destruct (Order.Items order !! i) as [item|] eqn:Hi; simpl.
    + by destruct (Hlook _ _ Hi) as (-> & _).
    + symmetry. apply lookup_ge_None. apply lookup_ge_None in Hi. lia.
  - apply list_eq. intros i. rewrite list_lookup_fmap.
    destruct (Order.Items order !! i) as [item|] eqn:Hi; simpl.
    + destruct (Hlook _ _ Hi) as (_ & Hp & _).
      rewrite lookup_take_lt; [done|].
      apply lookup_lt_Some in Hi. lia.
    + symmetry. apply lookup_ge_None. apply lookup_ge_None in Hi.
      rewrite length_take. lia.
  - intros i item Hi. by destruct (Hlook _ _ Hi) as (_ & _ & ?).
Qed.

Lemma buildOrder_shape_witness :
  buildOrder long_form = Some long_order /\
  map OrderItem.Size (Order.Items long_order) = ["Small"] /\
  map OrderItem.Pizza (Order.Items long_order) = ["Hawaiian"].
Proof.
  assert (Hb : buildOrder long_form = Some long_order) by (vm_compute; reflexivity).
  destruct (buildOrder_shape long_form long_order Hb) as (_ & _ & _ & Hs & Hp & _).
  split; [exact Hb|]. split; [exact Hs|exact Hp].
Defined.

Lemma buildItems_index_ext (form : OrderRequest.t) (tm tm' : gmap Z (list string)) :
  (forall i, (i < length (OrderRequest.Sizes form))%nat ->
             map_index tm (Z.of_nat i) = map_index tm' (Z.of_nat i)) ->
  mapM (buildItem form tm) (seq 0 (length (OrderRequest.Sizes form))) =
  mapM (buildItem form tm') (seq 0 (length (OrderRequest.Sizes form))).
Proof.
  intros H. apply mapM_ext_in. intros i Hi. apply elem_of_seq in Hi.
  unfold buildItem, pizzaToppingsOf. rewrite H by lia. reflexivity.
Qed.

Lemma labels_at_skip (k index : Z) (label t : string) (l1 l2 : list string) :
  entry_of t = Some (index, label) -> index <> k ->
  labels_at k (l1 ++ t :: l2) = labels_at k (l1 ++ l2).
Proof.
  intros He Hne. unfold labels_at. rewrite !omap_app. simpl.
  rewrite He. by rewrite decide_False.
Qed.

(** X3. A well-formed topping entry whose index is negative or not below the
    number of sizes names no item: the order built is the one built without
    the entry. *)
Theorem out_of_range_entries_ignored (form : OrderRequest.t) (l1 l2 : list string)
    (t label : string) (index : Z) :
  OrderRequest.Toppings form = l1 ++ t :: l2 ->
  entry_of t = Some (index, label) ->
  index < 0 \/ Z.of_nat (length (OrderRequest.Sizes form)) <= index ->
  buildOrder form = buildOrder (with_Toppings (l1 ++ l2) form).
Proof.
  intros Hl He Hrange. unfold buildOrder, buildItems. simpl.
  rewrite (buildItems_index_ext form (parseToppings (OrderRequest.Toppings form))
             (parseToppings (l1 ++ l2))); [reflexivity|].
  intros i Hi. rewrite !parseToppings_index, Hl.
  eapply labels_at_skip; [exact He|]. lia.
Qed.

Lemma out_of_range_entries_ignored_witness :
  OrderRequest.Toppings long_form = ["-1:Basil"; "0:Ham"] ++ "7:Corn" :: [] /\
  entry_of "7:Corn" = Some (7, "Corn") /\
  buildOrder long_form = buildOrder (with_Toppings (["-1:Basil"; "0:Ham"] ++ []) long_form).
Proof.
  assert (Hl : OrderRequest.Toppings long_form = ["-1:Basil"; "0:Ham"] ++ "7:Corn" :: [])
    by reflexivity.
  assert (He : entry_of "7:Corn" = Some (7, "Corn")) by (vm_compute; reflexivity).
  split; [exact Hl|]. split; [exact He|].
  apply (out_of_range_entries_ignored long_form _ _ _ _ _ Hl He).
  right. simpl. lia.
Defined.

(** X4. For a pizza type without default toppings (a type that is not a key
    of [PizzaDefaultToppings], or "Make Your Own"), the topping rows are the
    parsed selection, every one marked extra; with no selection there is no
    row at all. *)
Theorem no_defaults_all_extra (form : OrderRequest.t) (order : Order.t) (i : nat)
    (item : OrderItem.t) :
  buildOrder form = Some order ->
  Order.Items order !! i = Some item ->
  map_index PizzaDefaultToppings (OrderItem.Pizza item) = [] ->
  OrderItem.Toppings item =
    map (fun t => OrderItemTopping.mk "" "" t true)
        (map_index (parseToppings (OrderRequest.Toppings form)) (Z.of_nat i)).
Proof.
  intros Hb Hi Hd.
  destruct (item_toppings_cases _ _ _ _ Hb Hi) as (-> & _ & _).
  unfold pizzaToppingsOf, toppingRows. rewrite Hd.
  destruct (map_index (parseToppings (OrderRequest.Toppings form)) (Z.of_nat i)) as [|x l];
    reflexivity.
Qed.

Lemma no_defaults_all_extra_witness :
  buildOrder own_form = Some own_order /\
  Order.Items own_order !! 0%nat = Some own_item /\
  map_index PizzaDefaultToppings (OrderItem.Pizza own_item) = [] /\
  OrderItem.Toppings own_item =
    [ OrderItemTopping.mk "" "" "Ham" true; OrderItemTopping.mk "" "" "Basil" true ].
Proof.
  assert (Hb : buildOrder own_form = Some own_order) by (vm_compute; reflexivity).
  assert (Hi : Order.Items own_order !! 0%nat = Some own_item) by reflexivity.
  assert (Hd : map_index PizzaDefaultToppings (OrderItem.Pizza own_item) = [])
    by (vm_compute; reflexivity).
  split; [exact Hb|]. split; [exact Hi|]. split; [exact Hd|].
  exact (no_defaults_all_extra own_form own_order 0 own_item Hb Hi Hd).
Defined.

Lemma buildOrder_blank (form : OrderRequest.t) (order : Order.t) :
  buildOrder form = Some order -> strip order = order.
Proof.
  intros Hb. pose proof Hb as Hb'. apply buildOrder_items in Hb' as [Hitems Ho].
  rewrite Ho. unfold strip. simpl. f_equal.
  rewrite <- (map_id (Order.Items order)) at 2.
  apply map_ext_in. intros item Hin. apply list_elem_of_In in Hin.
  apply list_elem_of_lookup in Hin as [i Hi].
  pose proof (buildItems_lookup _ _ _ _ Hitems Hi) as H.
  apply buildItem_Some in H as (size & pizza & _ & _ & ->).
  unfold strip_item, dietaryRows, toppingRows, allergyRows. simpl.
  rewrite !map_map. simpl. reflexivity.
Qed.

(** X5. The handler never fills an identifier, an owner key or the time
    stamp: the order it builds is its own blanked form. *)
Theorem built_order_carries_no_identifier (form : OrderRequest.t) (order : Order.t) :
  buildOrder form = Some order -> strip order = order.
Proof. exact (buildOrder_blank form order). Qed.

Lemma built_order_carries_no_identifier_witness :
  buildOrder two_pizzas_form = Some two_pizzas_order /\
  strip two_pizzas_order = two_pizzas_order.
Proof.
  assert (Hb : buildOrder two_pizzas_form = Some two_pizzas_order)
    by (vm_compute; reflexivity).
  split; [exact Hb|].
  exact (built_order_carries_no_identifier two_pizzas_form two_pizzas_order Hb).
Defined.

Lemma assigned_empty (env : Env) (lo hi : nat) (new : string) :
  assigned env lo hi "" new -> generated_id env lo hi new.
Proof. unfold assigned. rewrite decide_True by done. auto. Qed.

Lemma Forall2_Forall_r {X Y : Type} (P : X -> Y -> Prop) (Q : Y -> Prop) (l : list X)
    (k : list Y) :
  Forall2 P l k -> (forall x y, x ∈ l -> P x y -> Q y) -> Forall Q k.
Proof.
  induction 1 as [|x y l k Hxy _ IH]; intros HPQ; constructor.
  - eapply HPQ; [left|exact Hxy].
  - apply IH. intros x' y' Hx'. apply HPQ. by right.
Qed.

(** X6. Every identifier of an order submitted through the handler is one
    the generator produced during the call: after a successful
    [CreateOrder] of the order the handler built, the order, each item and
    each junction row carry generated identifiers. *)
Theorem submitted_identifiers_are_generated (form : OrderRequest.t) (order order' : Order.t)
    (env : Env) (st st' : St) :
  buildOrder form = Some order ->
  CreateOrder (Order InitDB) env order st = (None, order', st') ->
  generated_id env (generated st) (generated st') (Order.ID order') /\
  Forall (fun oi =>
            generated_id env (generated st) (generated st') (OrderItem.ID oi) /\
            Forall (fun c => generated_id env (generated st) (generated st')
                               (OrderItemDietaryRequirement.ID c))
                   (OrderItem.DietaryRequirement oi) /\
            Forall (fun c => generated_id env (generated st) (generated st')
                               (OrderItemTopping.ID c))
                   (OrderItem.Toppings oi) /\
            Forall (fun c => generated_id env (generated st) (generated st')
                               (OrderItemAllergy.ID c))
                   (OrderItem.Allergies oi))
         (Order.Items order').
Proof.
  intros Hb Hc.
  pose proof (buildOrder_blank _ _ Hb) as Hstrip.
  pose proof (unidentified_distinct _ (buildOrder_unidentified _ _ Hb)) as Hdist.
  unfold CreateOrder in Hc.
  apply gorm_Create_success in Hc as (_ & Hcr & _);
    [|exact InitDB_transactional|exact Hdist].
  apply created_graph_assigned in Hcr as [Hid HF].
  assert (Hoid : Order.ID order = "") by (rewrite <- Hstrip; reflexivity).
  assert (Hitems : Forall (fun oi => strip_item oi = oi) (Order.Items order)).
  { apply Forall_forall. intros oi Hoi.
    assert (E : map strip_item (Order.Items order) = Order.Items order)
      by (rewrite <- Hstrip at 2; reflexivity).
    apply list_elem_of_lookup in Hoi as [i Hi].
    assert (E' : map strip_item (Order.Items order) !! i = Some (strip_item oi))
      by (by rewrite list_lookup_fmap, Hi).
    rewrite E, Hi in E'. by injection E'. }
  split; [rewrite Hoid in Hid; by apply assigned_empty|].
  eapply Forall2_Forall_r; [exact HF|].
  intros oi oi' Hoi (Hi & Hd & Ht & Ha). simpl.
  eapply Forall_forall in Hitems; [|exact Hoi].
  unfold children_assigned in *. simpl in *.
  split; [|split; [|split]].
  - rewrite <- Hitems in Hi. by apply assigned_empty.
  - eapply Forall2_Forall_r; [exact Hd|]. intros c c' Hcin Hca.
    rewrite <- Hitems in Hcin. simpl in Hcin.
    apply list_elem_of_fmap in Hcin as (c0 & -> & _). by apply assigned_empty.
  - eapply Forall2_Forall_r; [exact Ht|]. intros c c' Hcin Hca.
    rewrite <- Hitems in Hcin. simpl in Hcin.
    apply list_elem_of_fmap in Hcin as (c0 & -> & _). by apply assigned_empty.
  - eapply Forall2_Forall_r; [exact Ha|]. intros c c' Hcin Hca.
    rewrite <- Hitems in Hcin. simpl in Hcin.
    apply list_elem_of_fmap in Hcin as (c0 & -> & _). by apply assigned_empty.
Qed.

Lemma submitted_identifiers_are_generated_witness :
  buildOrder two_pizzas_form = Some two_pizzas_order /\
  CreateOrder (Order InitDB) healthy_env two_pizzas_order st0 = created_result /\
  generated_id healthy_env 0 16 (Order.ID (snd (fst created_result))).
Proof.
  assert (Hb : buildOrder two_pizzas_form = Some two_pizzas_order)
    by (vm_compute; reflexivity).
  assert (H : CreateOrder (Order InitDB) healthy_env two_pizzas_order st0 = created_result)
    by (vm_compute; reflexivity).
  split; [exact Hb|]. split; [exact H|].
  exact (proj1 (submitted_identifiers_are_generated two_pizzas_form two_pizzas_order
                  (snd (fst created_result)) healthy_env st0 (snd created_result) Hb H)).
Defined.

(** ** Reading *)

(** X7. [GetOrder] only reads: whatever it returns, the database and the
    generator are as before, and it has sent at least one and at most five
    queries, however many items the order has. *)
Theorem GetOrder_reads_only (m : OrderModel) (env : Env) (id : string) (st : St) :
  let st' := snd (GetOrder m env id st) in
  store st' = store st /\
  generated st' = generated st /\
  (executed st < executed st' <= executed st + 5)%nat.
Proof.
  unfold GetOrder, query. simpl.
  destruct (faulty env (executed st)); [simpl; repeat split; lia|].
  destruct (select_eq Order.ID id (orders (store st))) as [|row rest];
    [simpl; repeat split; lia|].
  unfold preloadItems, query. simpl.
  destruct (faulty env (S (executed st))); [simpl; repeat split; lia|].
  destruct (select_in OrderItem.OrderID [Order.ID row] (order_items (store st)))
    as [|oi items]; [simpl; repeat split; lia|].
  unfold andThen. rewrite !preloadHasMany_cases. simpl.
  destruct (faulty env (S (S (executed st)))); [simpl; repeat split; lia|].
  rewrite preloadHasMany_cases. simpl.
  destruct (faulty env (S (S (S (executed st))))); [simpl; repeat split; lia|].
  rewrite preloadHasMany_cases. simpl.
  destruct (faulty env (S (S (S (S (executed st)))))); simpl; repeat split; lia.
Qed.

Lemma GetOrder_success (m : OrderModel) (env : Env) (id : string) (st : St) :
  snd (fst (GetOrder m env id st)) = None ->
  fst (GetOrder m env id st) = read_order (store st) id.
Proof.
  unfold GetOrder, read_order, query. simpl.
  destruct (faulty env (executed st)); [discriminate|].
  destruct (select_eq Order.ID id (orders (store st))) as [|row rest]; [discriminate|].
  unfold preloadItems, query. simpl.
  destruct (faulty env (S (executed st))); [discriminate|].
  destruct (select_in OrderItem.OrderID [Order.ID row] (order_items (store st)))
    as [|oi items]; [reflexivity|].
  unfold andThen. rewrite !preloadHasMany_cases. simpl.
  destruct (faulty env (S (S (executed st)))); [discriminate|].
  rewrite preloadHasMany_cases. simpl.
  destruct (faulty env (S (S (S (executed st))))); [discriminate|].
  rewrite preloadHasMany_cases. simpl.
  destruct (faulty env (S (S (S (S (executed st)))))); [discriminate|].
  reflexivity.
Qed.

Lemma elem_of_select_eq {A : Type} (col : A -> string) (v : string) (tbl : list A) (r : A) :
  r ∈ select_eq col v tbl <-> col r = v /\ r ∈ tbl.
Proof. unfold select_eq. by rewrite list_elem_of_filter. Qed.

Lemma elem_of_select_in {A : Type} (col : A -> string) (vs : list string) (tbl : list A)
    (r : A) :
  r ∈ select_in col vs tbl <-> col r ∈ vs /\ r ∈ tbl.
Proof. unfold select_in. by rewrite list_elem_of_filter. Qed.

Section PreloadFacts.
Context {A : Type} (R : HasMany A) (with_ID : string -> A -> A).
Context (L : HasManyLaws R with_ID).

Lemma preload_rel_IDs (s : Store) (items : list OrderItem.t) :
  map OrderItem.ID (preload_rel R s items) = map OrderItem.ID items.
Proof.
  unfold preload_rel. rewrite map_map. apply map_ext. intros oi.
  apply (law_item_ID R with_ID L).
Qed.

Lemma preload_rel_owned (s : Store) (items : list OrderItem.t) :
  Forall (owned_children R) (preload_rel R s items).
Proof.
  unfold preload_rel. apply Forall_forall. intros oi' Hoi'.
  apply list_elem_of_fmap in Hoi' as (oi & -> & _).
  unfold owned_children. rewrite (law_children_with R with_ID L), (law_item_ID R with_ID L).
  apply Forall_forall. intros c Hc. by apply elem_of_select_eq in Hc as [? _].
Qed.

End PreloadFacts.

Lemma preload_all (s : Store) (items : list OrderItem.t) :
  preload_rel Toppings_rel s
    (preload_rel DietaryRequirement_rel s (preload_rel Allergies_rel s items)) =
  map (hydrated s (map OrderItem.ID items)) items.
Proof.
  pose proof (preload_rel_IDs _ _ Allergies_laws s items) as HA.
  pose proof (preload_rel_IDs _ _ DietaryRequirement_laws s
                (preload_rel Allergies_rel s items)) as HD.
  rewrite HA in HD.
  unfold preload_rel at 1. rewrite HD.
  unfold preload_rel at 1. rewrite HA.
  unfold preload_rel. rewrite !map_map. apply map_ext. intros oi. reflexivity.
Qed.

Lemma read_order_found (s : Store) (id : string) (row : Order.t) (rest : list Order.t) :
  select_eq Order.ID id (orders s) = row :: rest ->
  read_order s id =
    (Order_with_Items
       (match select_in OrderItem.OrderID [id] (order_items s) with
        | [] => Order.Items row
        | items => map (hydrated s (map OrderItem.ID items)) items
        end) row,
     None) /\
  Order.ID row = id /\ row ∈ orders s.
Proof.
  intros Hsel.
  assert (Hrow : row ∈ select_eq Order.ID id (orders s)) by (rewrite Hsel; left).
  apply elem_of_select_eq in Hrow as [Hid Hin].
  split; [|done]. unfold read_order. rewrite Hsel, Hid.
  destruct (select_in OrderItem.OrderID [id] (order_items s)) as [|oi items] eqn:Hi.
  - by destruct row.
  - by rewrite preload_all.
Qed.

(** X8. What [GetOrder] returns without error is consistent: the order has
    the identifier asked for, every item is a row owned by that order, and
    every junction row of an item is owned by that item. *)
Theorem GetOrder_returns_own_rows (m : OrderModel) (env : Env) (id : string) (st : St)
    (order : Order.t) :
  header_rows (store st) ->
  fst (GetOrder m env id st) = (order, None) ->
  Order.ID order = id /\ linked order.
Proof.
  intros Hrows Hget.
  rewrite GetOrder_success in Hget by (by rewrite Hget).
  destruct (select_eq Order.ID id (orders (store st))) as [|row rest] eqn:Hsel;
    [unfold read_order in Hget; rewrite Hsel in Hget; discriminate|].
  destruct (read_order_found _ _ _ _ Hsel) as (Hread & Hid & Hin).
  rewrite Hread in Hget. injection Hget as <-.
  split; [exact Hid|].
  unfold linked. cbn [Order.Items Order.ID Order_with_Items].
  remember (select_in OrderItem.OrderID [id] (order_items (store st))) as its eqn:Hi.
  destruct its as [|oi items].
  - eapply Forall_forall in Hrows; [|exact Hin]. rewrite Hrows. constructor.
  - apply Forall_forall. intros x Hx.
    change (x ∈ map (hydrated (store st) (map OrderItem.ID (oi :: items))) (oi :: items))
      in Hx.
    apply list_elem_of_fmap in Hx as (y & -> & Hy).
    rewrite Hi in Hy.
    apply elem_of_select_in in Hy as [Hy _]. apply list_elem_of_singleton in Hy.
    unfold owned_children, hydrated. simpl.
    split; [congruence|].
    split; [|split]; apply Forall_forall; intros c Hc;
      by apply elem_of_select_eq in Hc as [? _].
Qed.

Lemma GetOrder_returns_own_rows_witness :
  header_rows (store (snd colliding_result)) /\
  fst (GetOrder (Order InitDB) healthy_env "id-0" (snd colliding_result)) =
    colliding_read /\
  Order.ID (fst colliding_read) = "id-0" /\
  linked (fst colliding_read).
Proof.
  assert (Hr : header_rows (store (snd colliding_result)))
    by (repeat constructor).
  assert (Hg : fst (GetOrder (Order InitDB) healthy_env "id-0" (snd colliding_result)) =
               (fst colliding_read, None)) by (vm_compute; reflexivity).
  split; [exact Hr|]. split; [exact Hg|].
  exact (GetOrder_returns_own_rows (Order InitDB) healthy_env "id-0"
           (snd colliding_result) (fst colliding_read) Hr Hg).
Defined.

(** ** Creating next to what is stored *)

Lemma select_in_frame {A : Type} (col : A -> string) (ids : list string)
    (tbl extra : list A) :
  (forall c, c ∈ extra -> col c ∉ ids) ->
  select_in col ids (tbl ++ extra) = select_in col ids tbl.
Proof.
  intros H. unfold select_in. rewrite filter_app.
  rewrite (filter_none _ extra); [by rewrite app_nil_r|].
  intros c Hc Hin. by apply (H c Hc).
Qed.

Lemma read_order_frame (s : Store) (o : Order.t) (id : string) :
  fresh_graph s o -> linked o -> id <> Order.ID o ->
  read_order (committed s o) id = read_order s id.
Proof.
  intros Hfresh Hlink Hne. rewrite (committed_fresh _ _ Hfresh).
  destruct Hfresh as (_ & _ & Hkeys & _).
  set (s' := mkStore _ _ _ _ _).
  assert (Hsel : select_eq Order.ID id (orders s') = select_eq Order.ID id (orders s)).
  { subst s'. simpl. unfold select_eq. rewrite filter_app, filter_cons, decide_False;
      [by rewrite app_nil_r|]. by destruct o. }
  assert (Hits : select_in OrderItem.OrderID [id] (order_items s') =
                 select_in OrderItem.OrderID [id] (order_items s)).
  { subst s'. simpl. apply select_in_frame. intros r Hr Hin.
    apply list_elem_of_fmap in Hr as (oi & -> & Hoi).
    eapply Forall_forall in Hlink; [|exact Hoi]. destruct Hlink as (Ho & _).
    apply list_elem_of_singleton in Hin. apply Hne.
    rewrite <- Hin, <- Ho. by destruct oi. }
  destruct (select_eq Order.ID id (orders s)) as [|row rest] eqn:Hrow.
  - unfold read_order. by rewrite Hsel, Hrow.
  - destruct (read_order_found s' id row rest) as (-> & _ & _); [by rewrite Hsel|].
    destruct (read_order_found s id row rest Hrow) as (-> & _ & _).
    rewrite Hits. f_equal. f_equal.
    remember (select_in OrderItem.OrderID [id] (order_items s)) as its eqn:Hi.
    assert (Hsub : forall x, x ∈ map OrderItem.ID its -> x ∈ item_keys s).
    { intros x Hx. apply list_elem_of_fmap in Hx as (oi & -> & Hoi).
      rewrite Hi in Hoi. apply elem_of_select_in in Hoi as [_ Hoi].
      apply list_elem_of_fmap. eauto. }
    assert (Hnew : forall oi, oi ∈ Order.Items o -> OrderItem.ID oi ∉ map OrderItem.ID its).
    { intros oi Hoi Hin. eapply Hkeys; [|apply Hsub; exact Hin].
      apply list_elem_of_fmap. eauto. }
    clear Hi. destruct its as [|oi0 its0]; [reflexivity|].
    remember (oi0 :: its0) as its eqn:Hits0. clear Hits0 oi0 its0.
    apply map_ext. intros oi. unfold hydrated. subst s'. simpl. f_equal.
    + f_equal. apply select_in_frame. intros c Hc.
      apply (elem_of_all_children DietaryRequirement_rel) in Hc as (x & Hx & Hc).
      pose proof Hx as Hx'. eapply Forall_forall in Hx'; [|exact Hlink].
      destruct Hx' as (_ & Hd & _). eapply Forall_forall in Hd; [|exact Hc].
      simpl in Hd. rewrite Hd. by apply Hnew.
    + f_equal. apply select_in_frame. intros c Hc.
      apply (elem_of_all_children Toppings_rel) in Hc as (x & Hx & Hc).
      pose proof Hx as Hx'. eapply Forall_forall in Hx'; [|exact Hlink].
      destruct Hx' as (_ & _ & Hd & _). eapply Forall_forall in Hd; [|exact Hc].
      simpl in Hd. rewrite Hd. by apply Hnew.
    + f_equal. apply select_in_frame. intros c Hc.
      apply (elem_of_all_children Allergies_rel) in Hc as (x & Hx & Hc).
      pose proof Hx as Hx'. eapply Forall_forall in Hx'; [|exact Hlink].
      destruct Hx' as (_ & _ & _ & Hd). eapply Forall_forall in Hd; [|exact Hc].
      simpl in Hd. rewrite Hd. by apply Hnew.
Qed.

(** X9. Creating an order whose identifiers are unused does not touch the
    other orders: with a storage engine that answers, [GetOrder] returns for
    every other identifier exactly what it returned before. *)
Theorem CreateOrder_leaves_other_orders (env : Env) (G G' : Order.t) (st st' : St)
    (id : string) :
  CreateOrder (Order InitDB) env G st = (None, G', st') ->
  fresh_graph (store st) G' ->
  no_faults_from env 0 ->
  id <> Order.ID G' ->
  fst (GetOrder (Order InitDB) env id st') = fst (GetOrder (Order InitDB) env id st).
Proof.
  unfold CreateOrder. intros H Hfresh Hok Hne.
  pose proof (fresh_distinct _ _ _ _ _ _ _ InitDB_transactional H Hfresh) as Hdist.
  apply gorm_Create_success in H as (_ & Hc & _ & Hs);
    [|exact InitDB_transactional|exact Hdist].
  rewrite !GetOrder_healthy by (intros k _; apply Hok; lia).
  rewrite Hs. apply read_order_frame; [done| |done]. by eapply created_linked.
Qed.

Lemma fresh_graph_intro (s : Store) (o : Order.t) :
  Order.ID o ∉ item_owners s ->
  NoDup (map OrderItem.ID (Order.Items o)) ->
  Forall (fun id => id ∉ item_keys s) (map OrderItem.ID (Order.Items o)) ->
  NoDup (map OrderItemDietaryRequirement.ID
           (all_children DietaryRequirement_rel (Order.Items o))) ->
  Forall (fun id => id ∉ child_keys DietaryRequirement_rel s)
         (map OrderItemDietaryRequirement.ID
            (all_children DietaryRequirement_rel (Order.Items o))) ->
  Forall (fun id => id ∉ child_owners DietaryRequirement_rel s)
         (map OrderItem.ID (Order.Items o)) ->
  NoDup (map OrderItemTopping.ID (all_children Toppings_rel (Order.Items o))) ->
  Forall (fun id => id ∉ child_keys Toppings_rel s)
         (map OrderItemTopping.ID (all_children Toppings_rel (Order.Items o))) ->
  Forall (fun id => id ∉ child_owners Toppings_rel s)
         (map OrderItem.ID (Order.Items o)) ->
  NoDup (map OrderItemAllergy.ID (all_children Allergies_rel (Order.Items o))) ->
  Forall (fun id => id ∉ child_keys Allergies_rel s)
         (map OrderItemAllergy.ID (all_children Allergies_rel (Order.Items o))) ->
  Forall (fun id => id ∉ child_owners Allergies_rel s)
         (map OrderItem.ID (Order.Items o)) ->
  fresh_graph s o.
Proof.
  intros. unfold fresh_graph, children_fresh.
  repeat split; try assumption; intros id Hid;
    match goal with
    | H : Forall _ ?l, Hin : _ ∈ ?l |- _ => exact (proj1 (Forall_forall _ _) H _ Hin)
    end.
Qed.

Lemma CreateOrder_leaves_other_orders_witness :
  CreateOrder (Order InitDB) healthy_env own_order (snd created_result) = second_result /\
  fresh_graph (store (snd created_result)) (snd (fst second_result)) /\
  no_faults_from healthy_env 0 /\
  "id-0" <> Order.ID (snd (fst second_result)) /\
  fst (GetOrder (Order InitDB) healthy_env "id-0" (snd second_result)) =
  fst (GetOrder (Order InitDB) healthy_env "id-0" (snd created_result)).
Proof.
  assert (H : CreateOrder (Order InitDB) healthy_env own_order (snd created_result) =
              second_result) by (vm_compute; reflexivity).
  assert (Hf : fresh_graph (store (snd created_result)) (snd (fst second_result))).
  { apply fresh_graph_intro; by_computation. }
  assert (Hok : no_faults_from healthy_env 0) by (intros k _; reflexivity).
  assert (Hne : "id-0" <> Order.ID (snd (fst second_result))) by (vm_compute; discriminate).
  split; [exact H|]. split; [exact Hf|]. split; [exact Hok|]. split; [exact Hne|].
  exact (CreateOrder_leaves_other_orders healthy_env own_order (snd (fst second_result))
           (snd created_result) (snd second_result) "id-0" H Hf Hok Hne).
Defined.

(** ** What [CreateOrder] does to the stored rows *)

Lemma upserted_keys (s s' : Store) (row : Order.t) (rows : list OrderItem.t)
    (ds : list OrderItemDietaryRequirement.t) (ts : list OrderItemTopping.t)
    (als : list OrderItemAllergy.t) :
  s' = mkStore (orders s ++ [row]) (upsert_item_rows (order_items s) rows)
         (upsert_rows DietaryRequirement_rel (order_item_dietary_requirements s) ds)
         (upsert_rows Toppings_rel (order_item_toppings s) ts)
         (upsert_rows Allergies_rel (order_item_allergies s) als) ->
  orders s `prefix_of` orders s' /\
  item_keys s ⊆ item_keys s' /\
  child_keys DietaryRequirement_rel s ⊆ child_keys DietaryRequirement_rel s' /\
  child_keys Toppings_rel s ⊆ child_keys Toppings_rel s' /\
  child_keys Allergies_rel s ⊆ child_keys Allergies_rel s'.
Proof.
  intros ->. unfold item_keys, child_keys, upsert_item_rows, upsert_rows. simpl.
  split; [by eexists|].
  repeat split; intros id Hid; apply upsert_all_keys; auto.
Qed.

(** X10. [CreateOrder] never deletes and never rewrites an order header:
    whatever its outcome, the stored headers are still there, unchanged and
    in place, and every identifier stored in the item table and in the
    three junction tables is still stored. *)
Theorem CreateOrder_never_deletes (env : Env) (order order' : Order.t) (st st' : St)
    (e : option error) :
  CreateOrder (Order InitDB) env order st = (e, order', st') ->
  orders (store st) `prefix_of` orders (store st') /\
  item_keys (store st) ⊆ item_keys (store st') /\
  child_keys DietaryRequirement_rel (store st) ⊆
    child_keys DietaryRequirement_rel (store st') /\
  child_keys Toppings_rel (store st) ⊆ child_keys Toppings_rel (store st') /\
  child_keys Allergies_rel (store st) ⊆ child_keys Allergies_rel (store st').
Proof.
  unfold CreateOrder. intros H. destruct e as [err|].
  - apply gorm_Create_failure in H; [|exact InitDB_transactional]. rewrite H.
    repeat split; done.
  - apply gorm_Create_any in H as (_ & _ & rows & ds & ts & als & Hs);
      [|exact InitDB_transactional].
    by eapply upserted_keys.
Qed.

Lemma CreateOrder_never_deletes_witness :
  CreateOrder (Order InitDB) healthy_env colliding_order (snd supplied_result) =
    colliding_result /\
  orders (store (snd supplied_result)) `prefix_of` orders (store (snd colliding_result)) /\
  item_keys (store (snd supplied_result)) ⊆ item_keys (store (snd colliding_result)).
Proof.
  assert (H : CreateOrder (Order InitDB) healthy_env colliding_order (snd supplied_result) =
              colliding_result) by (vm_compute; reflexivity).
  split; [exact H|].
  destruct (CreateOrder_never_deletes healthy_env colliding_order
              (snd (fst colliding_result)) (snd supplied_result) (snd colliding_result)
              (fst (fst colliding_result)) H) as (Hp & Hi & _).
  split; [exact Hp|exact Hi].
Defined.

Section UpsertNoDup.
Context {A : Type} (pk : A -> string) (update : A -> A -> A).
Context (Hpk : forall old new, pk (update old new) = pk old).

Lemma upsert_NoDup (tbl : list A) (row : A) :
  NoDup (map pk tbl) -> NoDup (map pk (upsert pk update tbl row)).
Proof.
  induction tbl as [|r tbl IH]; simpl; intros Hnd.
  - apply NoDup_singleton.
  - apply NoDup_cons in Hnd as [Hr Hnd].
    destruct (decide (pk r = pk row)) as [E|NE]; simpl.
    + rewrite Hpk. by apply NoDup_cons.
    + apply NoDup_cons. split; [|by apply IH].
      intros Hin. apply (upsert_keys pk update Hpk) in Hin as [Hin|Hin]; [done|].
      by apply NE.
Qed.

Lemma upsert_all_NoDup (rows tbl : list A) :
  NoDup (map pk tbl) -> NoDup (map pk (upsert_all pk update tbl rows)).
Proof.
  unfold upsert_all. revert tbl. induction rows as [|r rows IH]; intros tbl Hnd; simpl.
  - exact Hnd.
  - apply IH. by apply upsert_NoDup.
Qed.

End UpsertNoDup.

(** X11. Primary keys stay unique: if no two rows of a table share their
    identifier before [CreateOrder], none do after, whatever identifiers
    the submitted graph carries and whatever the outcome. *)
Theorem CreateOrder_keeps_keys_unique (env : Env) (order order' : Order.t) (st st' : St)
    (e : option error) :
  CreateOrder (Order InitDB) env order st = (e, order', st') ->
  keys_unique (store st) ->
  keys_unique (store st').
Proof.
  unfold CreateOrder. intros H (Ho & Hi & Hd & Ht & Ha). destruct e as [err|].
  - apply gorm_Create_failure in H; [|exact InitDB_transactional]. rewrite H.
    repeat split; done.
  - apply gorm_Create_any in H as (_ & Hnew & rows & ds & ts & als & ->);
      [|exact InitDB_transactional].
    unfold keys_unique, item_keys, child_keys, upsert_item_rows, upsert_rows.
    simpl. split; [|repeat split; by apply upsert_all_NoDup].
    rewrite map_app. simpl. apply NoDup_app. split; [exact Ho|].
    split; [|apply NoDup_singleton].
    intros id Hid Hin. apply list_elem_of_singleton in Hin. subst id.
    apply Hnew. by destruct order'.
Qed.

Lemma CreateOrder_keeps_keys_unique_witness :
  CreateOrder (Order InitDB) healthy_env colliding_order (snd supplied_result) =
    colliding_result /\
  keys_unique (store (snd supplied_result)) /\
  keys_unique (store (snd colliding_result)).
Proof.
  assert (H : CreateOrder (Order InitDB) healthy_env colliding_order (snd supplied_result) =
              colliding_result) by (vm_compute; reflexivity).
  assert (Hk : keys_unique (store (snd supplied_result))).
  { repeat split; by_computation. }
  split; [exact H|]. split; [exact Hk|].
  exact (CreateOrder_keeps_keys_unique healthy_env colliding_order
           (snd (fst colliding_result)) (snd supplied_result) (snd colliding_result)
           (fst (fst colliding_result)) H Hk).
Defined.

(** ** The errors of [CreateOrder] *)

Lemma no_faults_from_le (env : Env) (n m : nat) :
  no_faults_from env n -> (n <= m)%nat -> no_faults_from env m.
Proof. intros H Hle k Hk. apply H. lia. Qed.

Lemma saveHasMany_healthy {A : Type} (R : HasMany A) (env : Env)
    (items items' : list OrderItem.t) (st st' : St) (e : option error) :
  no_faults_from env (executed st) ->
  saveHasMany R env items st = (e, items', st') ->
  e = None /\ no_faults_from env (executed st').
Proof.
  intros Hok. unfold saveHasMany.
  destruct (all_children R (map (set_owner R) items)) as [|c cs].
  - by intros [= <- <- <-].
  - destruct (mapAccum _ _ (generated st)) as [items2 g].
    unfold exec. simpl. rewrite (Hok (executed st)) by lia.
    intros [= <- <- <-]. split; [done|]. simpl.
    eapply no_faults_from_le; [exact Hok|lia].
Qed.

Lemma saveItemAssociations_healthy (env : Env) (items items' : list OrderItem.t)
    (st st' : St) (e : option error) :
  no_faults_from env (executed st) ->
  saveItemAssociations env items st = (e, items', st') ->
  e = None /\ no_faults_from env (executed st').
Proof.
  intros Hok. unfold saveItemAssociations.
  destruct (saveHasMany DietaryRequirement_rel env items st) as [[e1 items1] st1] eqn:H1.
  apply (saveHasMany_healthy _ _ _ _ _ _ _ Hok) in H1 as [-> Hok1].
  destruct (saveHasMany Toppings_rel env items1 st1) as [[e2 items2] st2] eqn:H2.
  apply (saveHasMany_healthy _ _ _ _ _ _ _ Hok1) in H2 as [-> Hok2].
  intros H3. by apply (saveHasMany_healthy _ _ _ _ _ _ _ Hok2) in H3.
Qed.

Lemma saveItems_healthy (env : Env) (o o' : Order.t) (st st' : St) (e : option error) :
  no_faults_from env (executed st) ->
  saveItems env o st = (e, o', st') ->
  e = None /\ no_faults_from env (executed st').
Proof.
  intros Hok. unfold saveItems.
  destruct (map (OrderItem_with_OrderID (Order.ID o)) (Order.Items o)) as [|x xs].
  - by intros [= <- <- <-].
  - destruct (mapAccum _ _ (generated st)) as [items2 g].
    unfold exec. simpl. rewrite (Hok (executed st)) by lia. simpl.
    destruct (saveItemAssociations env items2 _) as [[e3 items3] st3] eqn:Ha.
    apply saveItemAssociations_healthy in Ha as [-> Hok3].
    + by intros [= <- <- <-].
    + simpl. eapply no_faults_from_le; [exact Hok|lia].
Qed.

Lemma saveItems_key (env : Env) (o o' : Order.t) (st st' : St) (e : option error) :
  saveItems env o st = (e, o', st') -> Order.ID o' = Order.ID o.
Proof.
  unfold saveItems.
  destruct (map (OrderItem_with_OrderID (Order.ID o)) (Order.Items o)) as [|x xs].
  - by intros [= _ <- _].
  - destruct (mapAccum _ _ (generated st)) as [items2 g].
    destruct (exec env _ _) as [e1 st1].
    destruct e1 as [err|]; [by intros [= _ <- _]|].
    destruct (saveItemAssociations env items2 st1) as [[e3 items3] st3].
    by intros [= _ <- _].
Qed.

Lemma create_callbacks_key (env : Env) (order order' : Order.t) (st st' : St)
    (e : option error) :
  create_callbacks env order st = (e, order', st') ->
  Order.ID order' = order_key env order st.
Proof.
  unfold create_callbacks, order_key, Order_BeforeCreate, MustGenerate.
  destruct (decide (Order.ID order = "")) as [He|He].
  - match goal with
    | |- context [exec env (insert_order ?o2) ?s] =>
        destruct (exec env (insert_order o2) s) as [e1 st1] eqn:Hx;
        assert (Hk : Order.ID o2 = shortid_seq env (generated st))
          by (destruct (decide _); reflexivity)
    end.
    destruct e1 as [err|]; [intros [= _ <- _]; exact Hk|].
    intros Hs. apply saveItems_key in Hs. by rewrite Hs.
  - match goal with
    | |- context [exec env (insert_order ?o2) ?s] =>
        destruct (exec env (insert_order o2) s) as [e1 st1] eqn:Hx;
        assert (Hk : Order.ID o2 = Order.ID order)
          by (destruct (decide _); reflexivity)
    end.
    destruct e1 as [err|]; [intros [= _ <- _]; exact Hk|].
    intros Hs. apply saveItems_key in Hs. by rewrite Hs.
Qed.

Lemma create_callbacks_healthy (env : Env) (order : Order.t) (st : St) :
  no_faults_from env (executed st) ->
  let '(e, _, st') := create_callbacks env order st in
  e = (if decide (order_key env order st ∈ map Order.ID (orders (store st)))
       then Some ErrDuplicatedKey else None) /\
  no_faults_from env (executed st').
Proof.
  intros Hok.
  destruct (create_callbacks env order st) as [[e o'] st'] eqn:Hc.
  pose proof (create_callbacks_key _ _ _ _ _ _ Hc) as Hkey.
  revert Hc. unfold create_callbacks.
  destruct (Order_BeforeCreate env order (generated st)) as [o1 g].
  unfold exec. simpl. rewrite (Hok (executed st)) by lia.
  unfold insert_order.
  match goal with
  | |- context [decide (Order.ID ?x ∈ _)] => set (o2 := x)
  end.
  destruct (decide (Order.ID o2 ∈ map Order.ID (orders (store st)))) as [Hin|Hnin].
  - intros [= <- <- <-]. rewrite <- Hkey. rewrite decide_True by done.
    split; [done|]. simpl. eapply no_faults_from_le; [exact Hok|lia].
  - intros Hs. pose proof (saveItems_key _ _ _ _ _ _ Hs) as Hk2.
    apply saveItems_healthy in Hs as [-> Hok'].
    + rewrite <- Hkey, Hk2. rewrite decide_False by done. done.
    + simpl. eapply no_faults_from_le; [exact Hok|lia].
Qed.

(** X12. With a storage engine that answers, [CreateOrder] fails for one
    reason only: the identifier of the order (the supplied one, or the next
    generated one when none is supplied) is already that of a stored order.
    Identifiers of items and junction rows that are already stored never
    make it fail. *)
Theorem CreateOrder_fails_only_on_duplicate (env : Env) (order : Order.t) (st : St) :
  no_faults_from env (executed st) ->
  fst (fst (CreateOrder (Order InitDB) env order st)) =
    if decide (order_key env order st ∈ map Order.ID (orders (store st)))
    then Some ErrDuplicatedKey else None.
Proof.
  intros Hok. unfold CreateOrder, gorm_Create. simpl.
  unfold exec at 1. unfold no_op at 1. rewrite (Hok (executed st)) by lia. simpl.
  set (st0 := mkSt (store st) (generated st) (S (executed st))).
  assert (Hok0 : no_faults_from env (executed st0))
    by (eapply no_faults_from_le; [exact Hok|simpl; lia]).
  pose proof (create_callbacks_healthy env order st0 Hok0) as Hc.
  destruct (create_callbacks env order st0) as [[e o'] st1].
  destruct Hc as [-> Hok1]. unfold order_key. simpl.
  destruct (decide _) as [Hin|Hnin]; [reflexivity|].
  unfold exec, no_op. rewrite (Hok1 (executed st1)) by lia. reflexivity.
Qed.

Lemma CreateOrder_fails_only_on_duplicate_witness :
  no_faults_from healthy_env (executed (snd supplied_result)) /\
  fst (fst (CreateOrder (Order InitDB) healthy_env supplied_order (snd supplied_result))) =
    Some ErrDuplicatedKey.
Proof.
  assert (Hok : no_faults_from healthy_env (executed (snd supplied_result)))
    by (intros k _; reflexivity).
  split; [exact Hok|].
  rewrite (CreateOrder_fails_only_on_duplicate healthy_env supplied_order
             (snd supplied_result) Hok).
  vm_compute. reflexivity.
Defined.

(** ** The handlers *)

Lemma CreateOrder_key (env : Env) (order order' : Order.t) (st st' : St) :
  CreateOrder (Order InitDB) env order st = (None, order', st') ->
  Order.ID order' = order_key env order st.
Proof.
  unfold CreateOrder, gorm_Create. simpl. unfold exec at 1. unfold no_op at 1.
  destruct (faulty env (executed st)); [discriminate|]. simpl.
  destruct (create_callbacks env order _) as [[e o] st1] eqn:Hc.
  apply create_callbacks_key in Hc.
  destruct e as [err|]; [discriminate|].
  destruct (exec env no_op st1) as [e2 st2].
  destruct e2; [discriminate|]. intros [= <- _]. exact Hc.
Qed.

(** X13. The submission handler changes the database only when it
    redirects: after a binding error, a panic or a failed [CreateOrder] the
    database is the one before the request. When it redirects, the target
    is "/customer/" followed by the identifier the generator returned first,
    and an order with that identifier, absent before, is stored. *)
Theorem HandleNewOrder_writes_only_on_redirect (env : Env)
    (bound : string + OrderRequest.t) (st : St) :
  let '(out, st') := HandleNewOrder (NewHandler InitDB) env bound st in
  match out with
  | Replied [ReplyRedirect code location] =>
      code = StatusSeeOther /\
      location = "/customer/" +:+ shortid_seq env (generated st) /\
      (shortid_seq env (generated st) ∈ map Order.ID (orders (store st'))) /\
      (shortid_seq env (generated st) ∉ map Order.ID (orders (store st)))
  | _ => store st' = store st
  end.
Proof.
  unfold HandleNewOrder, NewHandler. cbn [Handler.orders].
  destruct bound as [err|form]; [reflexivity|].
  destruct (buildOrder form) as [order|] eqn:Hb; [|reflexivity].
  destruct (CreateOrder (Order InitDB) env order st) as [[e order'] st'] eqn:Hc.
  destruct e as [err|].
  - unfold CreateOrder in Hc.
    apply gorm_Create_failure in Hc; [exact Hc|exact InitDB_transactional].
  - pose proof (CreateOrder_key _ _ _ _ _ Hc) as Hkey.
    pose proof (buildOrder_blank _ _ Hb) as Hstrip.
    assert (Hoid : Order.ID order = "") by (rewrite <- Hstrip; reflexivity).
    unfold order_key in Hkey. rewrite decide_True in Hkey by done.
    pose proof (unidentified_distinct _ (buildOrder_unidentified _ _ Hb)) as Hdist.
    unfold CreateOrder in Hc.
    apply gorm_Create_success in Hc as (_ & _ & Hnew & Hs);
      [|exact InitDB_transactional|exact Hdist].
    rewrite <- Hkey. split; [reflexivity|]. split; [reflexivity|]. split; [|exact Hnew].
    rewrite Hs. unfold committed. simpl. rewrite map_app. apply elem_of_app. right.
    simpl. left.
Qed.

(** X14. A submission that is redirected can be tracked: with a storage
    engine that answers, the status page of the identifier in the redirect
    renders the order with that identifier, status "Order Placed", the
    name, phone and address of the form, and the five statuses. *)
Theorem submit_then_track (env : Env) (form : OrderRequest.t) (st st' : St)
    (location : string) :
  HandleNewOrder (NewHandler InitDB) env (inr form) st =
    (Replied [ReplyRedirect StatusSeeOther location], st') ->
  no_faults_from env (executed st') ->
  exists id first data,
    location = "/customer/" +:+ id /\
    fst (serveCustomer (NewHandler InitDB) env id st') =
      Replied (first ++ [ReplyHTML StatusOK "customer.tmpl" data]) /\
    CustomerData.Title data = "Pizza Order Status" +:+ id /\
    CustomerData.Statuses data = OrderStatuses /\
    Order.ID (CustomerData.Order data) = id /\
    Order.Status (CustomerData.Order data) = "Order Placed" /\
    Order.CustomerName (CustomerData.Order data) = OrderRequest.Name form /\
    Order.Phone (CustomerData.Order data) = OrderRequest.Phone form /\
    Order.Address (CustomerData.Order data) = OrderRequest.Address form.
Proof.
  unfold HandleNewOrder, NewHandler. cbn [Handler.orders].
  destruct (buildOrder form) as [order|] eqn:Hb; [|discriminate].
  destruct (CreateOrder (Order InitDB) env order st) as [[e order'] st1] eqn:Hc.
  destruct e as [err|]; [discriminate|].
  intros [= <- <-] Hok.
  pose proof (unidentified_distinct _ (buildOrder_unidentified _ _ Hb)) as Hdist.
  apply buildOrder_items in Hb as [_ Ho].
  assert (Hstatus : Order.Status order = "Order Placed") by (by rewrite Ho).
  assert (Hn : Order.CustomerName order = OrderRequest.Name form) by (by rewrite Ho).
  assert (Hp : Order.Phone order = OrderRequest.Phone form) by (by rewrite Ho).
  assert (Ha : Order.Address order = OrderRequest.Address form) by (by rewrite Ho).
  unfold CreateOrder in Hc.
  apply gorm_Create_success in Hc as (_ & Hcr & Hnew & Hs);
    [|exact InitDB_transactional|exact Hdist].
  assert (Hsel : select_eq Order.ID (Order.ID order') (orders (store st1)) =
                 [order_row order']).
  { rewrite Hs. unfold committed, select_eq. simpl. rewrite filter_app.
    rewrite filter_none.
    - rewrite filter_cons, decide_True by (by destruct order'). reflexivity.
    - intros r Hr Hid. apply Hnew. rewrite <- Hid. apply list_elem_of_fmap. eauto. }
  destruct (read_order_found _ _ _ _ Hsel) as (Hread & _ & _).
  pose proof (GetOrder_healthy (Order InitDB) env (Order.ID order') st1 Hok) as Hg.
  rewrite Hread in Hg.
  destruct Hcr as (id' & items' & _ & Ho' & _).
  exists (Order.ID order').
  exists (if decide (Order.ID order' = "")
          then [ReplyString StatusBadRequest "Order ID is required"] else []).
  eexists. split; [reflexivity|]. split.
  - unfold serveCustomer. cbn [Handler.orders].
    destruct (GetOrder (Order InitDB) env (Order.ID order') st1) as [[ord err] st2].
    simpl in Hg. injection Hg as -> ->. reflexivity.
  - simpl. rewrite Ho'. simpl. rewrite Hstatus, Hn, Hp, Ha. repeat split.
Qed.

Lemma submit_then_track_witness :
  HandleNewOrder (NewHandler InitDB) healthy_env (inr two_pizzas_form) st0 =
    (Replied [ReplyRedirect StatusSeeOther "/customer/id-0"], snd created_result) /\
  no_faults_from healthy_env (executed (snd created_result)) /\
  exists id first data,
    "/customer/id-0" = "/customer/" +:+ id /\
    fst (serveCustomer (NewHandler InitDB) healthy_env id (snd created_result)) =
      Replied (first ++ [ReplyHTML StatusOK "customer.tmpl" data]) /\
    Order.CustomerName (CustomerData.Order data) = "Ada".
Proof.
  assert (H : HandleNewOrder (NewHandler InitDB) healthy_env (inr two_pizzas_form) st0 =
              (Replied [ReplyRedirect StatusSeeOther "/customer/id-0"], snd created_result))
    by (vm_compute; reflexivity).
  assert (Hok : no_faults_from healthy_env (executed (snd created_result)))
    by (intros k _; reflexivity).
  split; [exact H|]. split; [exact Hok|].
  destruct (submit_then_track healthy_env two_pizzas_form st0 (snd created_result)
              "/customer/id-0" H Hok)
    as (id & first & data & Hl & Hs & _ & _ & _ & _ & Hn & _).
  exists id, first, data. split; [exact Hl|]. split; [exact Hs|exact Hn].
Defined.

(** X15. The status page does not tell a storage failure from a missing
    order: whenever [GetOrder] returns the error of a storage failure, for a
    stored order too, the answer is 404 "Order Not Found". *)
Theorem storage_failure_is_reported_as_not_found (env : Env) (id : string) (st : St) :
  snd (fst (GetOrder (Order InitDB) env id st)) = Some ErrStorage ->
  fst (serveCustomer (NewHandler InitDB) env id st) =
    Replied ((if decide (id = "")
              then [ReplyString StatusBadRequest "Order ID is required"] else []) ++
             [ReplyString StatusNotFound "Order Not Found"]).
Proof.
  intros H. unfold serveCustomer, NewHandler. cbn [Handler.orders].
  destruct (GetOrder (Order InitDB) env id st) as [[ord err] st2].
  simpl in H. subst err. reflexivity.
Qed.

Lemma storage_failure_is_reported_as_not_found_witness :
  ("id-0" ∈ map Order.ID (orders (store (snd created_result)))) /\
  snd (fst (GetOrder (Order InitDB) read_failing_env "id-0" (snd created_result))) =
    Some ErrStorage /\
  fst (serveCustomer (NewHandler InitDB) read_failing_env "id-0" (snd created_result)) =
    Replied [ReplyString StatusNotFound "Order Not Found"].
Proof.
  assert (H : snd (fst (GetOrder (Order InitDB) read_failing_env "id-0"
                          (snd created_result))) = Some ErrStorage)
    by (vm_compute; reflexivity).
  split; [simpl; left|]. split; [exact H|].
  exact (storage_failure_is_reported_as_not_found read_failing_env "id-0"
           (snd created_result) H).
Defined.

(** ** The validators and the tables *)

Lemma Contains_elem_of (s : list string) (v : string) : Contains s v = true <-> v ∈ s.
Proof.
  induction s as [|x s IH]; simpl.
  - split; [discriminate|]. intros Hin. inversion Hin.
  - destruct (decide (x = v)) as [->|Hne].
    + split; [intros _; left|done].
    + rewrite IH. split; [by right|].
      intros Hin. apply elem_of_cons in Hin as [->|Hin]; done.
Qed.

Lemma toppingValidatorOver_spec (entries : list (string * list string)) (topping : string) :
  toppingValidatorOver entries topping = true <->
  exists category toppings, (category, toppings) ∈ entries /\ topping ∈ toppings.
Proof.
  unfold toppingValidatorOver. rewrite existsb_exists. split.
  - intros ([category toppings] & Hin & Hc). exists category, toppings.
    split; [by apply list_elem_of_In|]. by apply Contains_elem_of.
  - intros (category & toppings & Hin & Hc). exists (category, toppings).
    split; [by apply list_elem_of_In|]. by apply Contains_elem_of.
Qed.

Lemma createToppingValidator_spec (topping : string) :
  createToppingValidator topping = true <->
  exists category toppings,
    ToppingCategories !! category = Some toppings /\ topping ∈ toppings.
Proof.
  unfold createToppingValidator. rewrite toppingValidatorOver_spec.
  split; intros (category & toppings & Hin & Hc); exists category, toppings;
    (split; [|exact Hc]); by apply elem_of_map_to_list.
Qed.

Lemma default_toppings_entry (pizza : string) (defaults : list string) :
  PizzaDefaultToppings !! pizza = Some defaults ->
  (pizza, defaults) ∈ PizzaDefaultToppings_entries.
Proof. unfold PizzaDefaultToppings. apply elem_of_list_to_map_2. Qed.

(** X16. The topping validator accepts a topping exactly when some category
    lists it, in whatever order the categories are visited. Every default
    topping of every pizza type passes it, with one exception: "Garlic", a
    default of the pizza type "Garlic", is in no category and is
    rejected. *)
Theorem default_toppings_validity :
  (forall entries topping,
      entries ≡ₚ map_to_list ToppingCategories ->
      toppingValidatorOver entries topping = createToppingValidator topping) /\
  (forall pizza defaults topping,
      PizzaDefaultToppings !! pizza = Some defaults ->
      topping ∈ defaults ->
      createToppingValidator topping = true \/ (pizza = "Garlic" /\ topping = "Garlic")) /\
  ("Garlic" ∈ map_index PizzaDefaultToppings "Garlic") /\
  createToppingValidator "Garlic" = false.
Proof.
  split; [|split; [|split]].
  - intros entries topping Hperm.
    apply eq_true_iff_eq. unfold createToppingValidator.
    rewrite !toppingValidatorOver_spec.
    split; intros (c & l & Hin & Hl); exists c, l; (split; [|exact Hl]).
    + by rewrite <- Hperm.
    + by rewrite Hperm.
  - intros pizza defaults topping Hp Ht.
    apply default_toppings_entry in Hp.
    assert (Hall : Forall (fun kv =>
                     Forall (fun t => createToppingValidator t = true \/
                                      (fst kv = "Garlic" /\ t = "Garlic")) (snd kv))
                   PizzaDefaultToppings_entries) by by_computation.
    eapply Forall_forall in Hall; [|exact Hp].
    eapply Forall_forall in Hall; [|exact Ht]. exact Hall.
  - by_computation.
  - vm_compute. reflexivity.
Qed.

Lemma default_toppings_validity_witness :
  PizzaDefaultToppings !! "Hawaiian" =
    Some ["Tomato Sauce"; "Mozzarella"; "Ham"; "Pineapple"] /\
  ("Pineapple" ∈ ["Tomato Sauce"; "Mozzarella"; "Ham"; "Pineapple"]) /\
  (createToppingValidator "Pineapple" = true \/
   ("Hawaiian" = "Garlic" /\ "Pineapple" = "Garlic")).
Proof.
  assert (Hp : PizzaDefaultToppings !! "Hawaiian" =
               Some ["Tomato Sauce"; "Mozzarella"; "Ham"; "Pineapple"])
    by (vm_compute; reflexivity).
  assert (Ht : "Pineapple" ∈ ["Tomato Sauce"; "Mozzarella"; "Ham"; "Pineapple"])
    by by_computation.
  split; [exact Hp|]. split; [exact Ht|].
  exact (proj1 (proj2 default_toppings_validity) "Hawaiian" _ "Pineapple" Hp Ht).
Defined.

(** X17. The pizza types the validator accepts are exactly the keys of
    [PizzaDefaultToppings]: a validated pizza type always finds its entry,
    and no entry belongs to a type the validator rejects. *)
Theorem valid_pizza_types_are_the_default_keys (pizza : string) :
  createSliceValidator PizzaTypes pizza = true <->
  is_Some (PizzaDefaultToppings !! pizza).
Proof.
  unfold createSliceValidator. rewrite Contains_elem_of. split.
  - intros H. destruct (known_type_has_defaults _ H) as [d Hd]. by exists d.
  - intros [d Hd]. apply default_toppings_entry in Hd.
    assert (Hall : Forall (fun kv => fst kv ∈ PizzaTypes) PizzaDefaultToppings_entries)
      by by_computation.
    eapply Forall_forall in Hall; [|exact Hd]. exact Hall.
Qed.

Lemma valid_pizza_types_are_the_default_keys_witness :
  createSliceValidator PizzaTypes "Supreme" = true /\
  is_Some (PizzaDefaultToppings !! "Supreme").
Proof.
  assert (H : createSliceValidator PizzaTypes "Supreme" = true) by reflexivity.
  split; [exact H|].
  exact (proj1 (valid_pizza_types_are_the_default_keys "Supreme") H).
Defined.

(** ** The identifiers of a graph that came without any *)

Lemma hooks_exact {A : Type} (ID : A -> string) (with_ID : string -> A -> A)
    (hook : A -> nat -> A * nat) (gen : nat -> string) :
  (forall x g, hook x g =
     if decide (ID x = "") then (with_ID (gen g) x, S g) else (x, g)) ->
  (forall id x, ID (with_ID id x) = id) ->
  forall l g l' g',
    Forall (fun x => ID x = "") l ->
    mapAccum hook l g = (l', g') ->
    g' = (g + length l)%nat /\ map ID l' = map gen (seq g (length l)).
Proof.
  intros Hhook HID. induction l as [|x l IH]; intros g l' g' Hempty H; simpl in H.
  - injection H as <- <-. split; [simpl; lia|reflexivity].
  - apply Forall_cons in Hempty as [Hx Hl].
    rewrite Hhook, decide_True in H by exact Hx.
    destruct (mapAccum hook l (S g)) as [l1 g1] eqn:Hm. injection H as <- <-.
    destruct (IH _ _ _ Hl Hm) as [-> Hids].
    split; [simpl; lia|]. simpl. by rewrite HID, Hids.
Qed.

Lemma mapAccum_length {A : Type} (f : A -> nat -> A * nat) (l l' : list A) (g g' : nat) :
  mapAccum f l g = (l', g') -> length l' = length l.
Proof.
  revert g l' g'. induction l as [|x l IH]; intros g l' g' H; simpl in H.
  - by injection H as <- <-.
  - destruct (f x g) as [x1 g1]. destruct (mapAccum f l g1) as [l1 g2] eqn:Hm.
    injection H as <- <-. simpl. f_equal. by eapply IH.
Qed.

Section StageExact.
Context {A : Type} (R : HasMany A) (with_ID : string -> A -> A).
Context (L : HasManyLaws R with_ID).

Lemma saveHasMany_exact (env : Env) (items items' : list OrderItem.t) (st st' : St)
    (e : option error) :
  Forall (fun oi => Forall (fun c => hm_ID R c = "") (hm_children R oi)) items ->
  saveHasMany R env items st = (e, items', st') ->
  generated st' = (generated st + length (all_children R items))%nat /\
  map (hm_ID R) (all_children R items') =
    map (shortid_seq env) (seq (generated st) (length (all_children R items))).
Proof.
  intros He.
  assert (Hids : Forall (fun id => id = "")
                   (map (hm_ID R) (all_children R (map (set_owner R) items)))).
  { rewrite (set_owner_IDs R with_ID L). apply Forall_fmap.
    unfold all_children. apply Forall_concat, Forall_fmap. exact He. }
  assert (Hlen : length (all_children R items) =
                 length (all_children R (map (set_owner R) items))).
  { rewrite <- (length_map (hm_ID R)), <- (set_owner_IDs R with_ID L), length_map.
    reflexivity. }
  rewrite Hlen. unfold saveHasMany.
  destruct (all_children R (map (set_owner R) items)) as [|c cs] eqn:Hc.
  - intros [= <- <- <-]. rewrite Hc. simpl. split; [lia|reflexivity].
  - rewrite <- Hc in *. clear Hc c cs.
    rewrite (firsts_all _ (eq_ind_r (fun l => NoDup l) (NoDup_nil_2)
                             (supplied_all_empty _ Hids))).
    rewrite length_map, pick_all.
    destruct (mapAccum _ _ (generated st)) as [elems g] eqn:Hm.
    pose proof (mapAccum_length _ _ _ _ _ Hm) as Hl.
    apply (hooks_exact (hm_ID R) with_ID _ (shortid_seq env)) in Hm;
      [|apply (law_hook R with_ID L)|apply (law_ID_with_ID R with_ID L)
       |by apply Forall_fmap in Hids].
    destruct Hm as [-> Hm].
    rewrite put_all by exact Hl.
    unfold exec. simpl.
    destruct (faulty env (executed st)); intros [= <- <- <-]; simpl;
      rewrite (with_all_children_children R with_ID L) by exact Hl; done.
Qed.

End StageExact.

Lemma saveItemAssociations_exact (env : Env) (items items' : list OrderItem.t)
    (st st' : St) :
  Forall unidentified_children items ->
  saveItemAssociations env items st = (None, items', st') ->
  let nD := length (all_children DietaryRequirement_rel items) in
  let nT := length (all_children Toppings_rel items) in
  let nA := length (all_children Allergies_rel items) in
  generated st' = (generated st + nD + nT + nA)%nat /\
  map OrderItemDietaryRequirement.ID (all_children DietaryRequirement_rel items') =
    map (shortid_seq env) (seq (generated st) nD) /\
  map OrderItemTopping.ID (all_children Toppings_rel items') =
    map (shortid_seq env) (seq (generated st + nD) nT) /\
  map OrderItemAllergy.ID (all_children Allergies_rel items') =
    map (shortid_seq env) (seq (generated st + nD + nT) nA).
Proof.
  intros Hun. unfold saveItemAssociations.
  destruct (saveHasMany DietaryRequirement_rel env items st) as [[e1 items1] st1] eqn:H1.
  destruct e1 as [err|]; [discriminate|].
  destruct (saveHasMany Toppings_rel env items1 st1) as [[e2 items2] st2] eqn:H2.
  destruct e2 as [err|]; [discriminate|].
  intros H3.
  pose proof (saveHasMany_kept _ _ DietaryRequirement_laws _ _ _ _ _ _ H1) as HF1.
  pose proof (saveHasMany_kept _ _ Toppings_laws _ _ _ _ _ _ H2) as HF2.
  pose proof (saveHasMany_kept _ _ Allergies_laws _ _ _ _ _ _ H3) as HF3.
  assert (ET1 : Forall2 (fun x y => OrderItem.Toppings x = OrderItem.Toppings y /\
                                    OrderItem.Allergies x = OrderItem.Allergies y)
                        items items1).
  { eapply Forall2_impl; [exact HF1|]. intros x y (cs & -> & _). by destruct x. }
  assert (EA2 : Forall2 (fun x y => OrderItem.Allergies x = OrderItem.Allergies y /\
                                    OrderItem.DietaryRequirement x =
                                      OrderItem.DietaryRequirement y)
                        items1 items2).
  { eapply Forall2_impl; [exact HF2|]. intros x y (cs & -> & _). by destruct x. }
  assert (ED3 : Forall2 (fun x y => OrderItem.DietaryRequirement x =
                                      OrderItem.DietaryRequirement y /\
                                    OrderItem.Toppings x = OrderItem.Toppings y)
                        items2 items').
  { eapply Forall2_impl; [exact HF3|]. intros x y (cs & -> & _). by destruct x. }
  assert (HT : all_children Toppings_rel items1 = all_children Toppings_rel items).
  { symmetry. apply all_children_ext. eapply Forall2_impl; [exact ET1|]. by intros x y [? _]. }
  assert (HA : all_children Allergies_rel items2 = all_children Allergies_rel items).
  { symmetry. etransitivity.
    - apply all_children_ext. eapply Forall2_impl; [exact ET1|]. by intros x y [_ ?].
    - apply all_children_ext. eapply Forall2_impl; [exact EA2|]. by intros x y [? _]. }
  assert (HD' : all_children DietaryRequirement_rel items1 =
                all_children DietaryRequirement_rel items').
  { etransitivity.
    - apply all_children_ext. eapply Forall2_impl; [exact EA2|]. by intros x y [_ ?].
    - apply all_children_ext. eapply Forall2_impl; [exact ED3|]. by intros x y [? _]. }
  assert (HT' : all_children Toppings_rel items2 = all_children Toppings_rel items').
  { apply all_children_ext. eapply Forall2_impl; [exact ED3|]. by intros x y [_ ?]. }
  assert (HeD : Forall (fun oi => Forall (fun c => OrderItemDietaryRequirement.ID c = "")
                                         (OrderItem.DietaryRequirement oi)) items).
  { eapply Forall_impl; [exact Hun|]. by intros oi (? & _). }
  assert (HeT : Forall (fun oi => Forall (fun c => OrderItemTopping.ID c = "")
                                         (OrderItem.Toppings oi)) items1).
  { apply Forall_forall. intros y Hy. apply list_elem_of_lookup in Hy as [i Hy].
    destruct (Forall2_lookup_r _ _ _ _ _ ET1 Hy) as (x & Hx & [E _]).
    rewrite <- E. apply list_elem_of_lookup_2 in Hx.
    eapply Forall_forall in Hun; [|exact Hx]. by destruct Hun as (_ & ? & _). }
  assert (HeA : Forall (fun oi => Forall (fun c => OrderItemAllergy.ID c = "")
                                         (OrderItem.Allergies oi)) items2).
  { apply Forall_forall. intros z Hz. apply list_elem_of_lookup in Hz as [i Hz].
    destruct (Forall2_lookup_r _ _ _ _ _ EA2 Hz) as (y & Hy & [E _]).
    destruct (Forall2_lookup_r _ _ _ _ _ ET1 Hy) as (x & Hx & [_ E']).
    rewrite <- E, <- E'. apply list_elem_of_lookup_2 in Hx.
    eapply Forall_forall in Hun; [|exact Hx]. by destruct Hun as (_ & _ & ?). }
  apply (saveHasMany_exact _ _ DietaryRequirement_laws _ _ _ _ _ _ HeD) in H1 as [G1 I1].
  apply (saveHasMany_exact _ _ Toppings_laws _ _ _ _ _ _ HeT) in H2 as [G2 I2].
  apply (saveHasMany_exact _ _ Allergies_laws _ _ _ _ _ _ HeA) in H3 as [G3 I3].
  rewrite HT in G2, I2. rewrite HA in G3, I3. rewrite HD' in I1. rewrite HT' in I2.
  cbv zeta. simpl in *. rewrite G3, G2, G1. rewrite G1 in I2. rewrite G2, G1 in I3.
  repeat split; assumption || lia.
Qed.

Lemma saveItems_exact (env : Env) (o o' : Order.t) (st st' : St) :
  Forall (fun oi => OrderItem.ID oi = "" /\ unidentified_children oi) (Order.Items o) ->
  saveItems env o st = (None, o', st') ->
  let n := length (Order.Items o) in
  let nD := length (all_children DietaryRequirement_rel (Order.Items o)) in
  let nT := length (all_children Toppings_rel (Order.Items o)) in
  let nA := length (all_children Allergies_rel (Order.Items o)) in
  generated st' = (generated st + n + nD + nT + nA)%nat /\
  map OrderItem.ID (Order.Items o') = map (shortid_seq env) (seq (generated st) n) /\
  map OrderItemDietaryRequirement.ID (all_children DietaryRequirement_rel (Order.Items o')) =
    map (shortid_seq env) (seq (generated st + n) nD) /\
  map OrderItemTopping.ID (all_children Toppings_rel (Order.Items o')) =
    map (shortid_seq env) (seq (generated st + n + nD) nT) /\
  map OrderItemAllergy.ID (all_children Allergies_rel (Order.Items o')) =
    map (shortid_seq env) (seq (generated st + n + nD + nT) nA).
Proof.
  intros Hun. unfold saveItems.
  destruct (Order.Items o) as [|oi0 items0] eqn:Hitems.
  - simpl. intros [= <- <-]. rewrite Hitems. simpl. repeat split; lia.
  - remember (oi0 :: items0) as items eqn:Hi.
    destruct (map (OrderItem_with_OrderID (Order.ID o)) items) as [|x xs] eqn:Hmap;
      [subst items; discriminate|].
    rewrite <- Hmap. clear Hmap x xs.
    assert (Hsaved :
      firsts [] (map OrderItem.ID (map (OrderItem_with_OrderID (Order.ID o)) items)) =
      repeat true (length (map (OrderItem_with_OrderID (Order.ID o)) items))).
    { rewrite with_OrderID_IDs, length_map, <- (length_map OrderItem.ID).
      apply firsts_all. rewrite supplied_all_empty; [apply NoDup_nil_2|].
      apply Forall_fmap. eapply Forall_impl; [exact Hun|]. by intros oi [? _]. }
    rewrite Hsaved, pick_all.
    destruct (mapAccum (OrderItem_BeforeCreate env) _ (generated st)) as [items2 g] eqn:Hm.
    pose proof (mapAccum_length _ _ _ _ _ Hm) as Hl2.
    pose proof Hm as Hm'.
    apply (mapAccum_Forall2 _ (hooked OrderItem.ID OrderItem_with_ID env)) in Hm';
      [|intros; by apply OrderItem_hook_hooked|intros; by eapply hooked_mono].
    destruct Hm' as [_ HF]. apply Forall2_map_left in HF.
    apply (hooks_exact OrderItem.ID OrderItem_with_ID _ (shortid_seq env)) in Hm;
      [|reflexivity|reflexivity|].
    2:{ apply Forall_forall. intros y Hy.
        apply list_elem_of_fmap in Hy as (y0 & -> & Hy0).
        eapply Forall_forall in Hun; [|exact Hy0]. by destruct Hun as [? _]. }
    rewrite length_map in Hm. destruct Hm as [-> Hids].
    unfold exec. simpl.
    destruct (faulty env (executed st)); [discriminate|]. simpl.
    destruct (saveItemAssociations env items2 _) as [[e3 items3] st3] eqn:Ha.
    intros [= -> <- <-].
    assert (Hsame : Forall2 (fun x y =>
              OrderItem.DietaryRequirement x = OrderItem.DietaryRequirement y /\
              OrderItem.Toppings x = OrderItem.Toppings y /\
              OrderItem.Allergies x = OrderItem.Allergies y) items items2).
    { eapply Forall2_impl; [exact HF|]. intros x y Hh. unfold hooked in Hh. simpl in Hh.
      destruct (decide (OrderItem.ID x = "")); [destruct Hh as (k & _ & ->)|subst y];
        by destruct x. }
    assert (HcD : all_children DietaryRequirement_rel items2 =
                  all_children DietaryRequirement_rel items).
    { symmetry. apply all_children_ext. eapply Forall2_impl; [exact Hsame|].
      by intros x y (? & _). }
    assert (HcT : all_children Toppings_rel items2 = all_children Toppings_rel items).
    { symmetry. apply all_children_ext. eapply Forall2_impl; [exact Hsame|].
      by intros x y (_ & ? & _). }
    assert (HcA : all_children Allergies_rel items2 = all_children Allergies_rel items).
    { symmetry. apply all_children_ext. eapply Forall2_impl; [exact Hsame|].
      by intros x y (_ & _ & ?). }
    assert (Hun2 : Forall unidentified_children items2).
    { apply Forall_forall. intros y Hy. apply list_elem_of_lookup in Hy as [i Hy].
      destruct (Forall2_lookup_r _ _ _ _ _ Hsame Hy) as (x & Hx & (E1 & E2 & E3)).
      apply list_elem_of_lookup_2 in Hx.
      eapply Forall_forall in Hun; [|exact Hx]. destruct Hun as [_ (U1 & U2 & U3)].
      unfold unidentified_children. by rewrite <- E1, <- E2, <- E3. }
    pose proof (saveItemAssociations_any _ _ _ _ _ Ha) as (HF3 & _).
    rewrite put_all by (rewrite <- Hl2; symmetry; by eapply Forall2_length).
    apply (saveItemAssociations_exact _ _ _ _ _ Hun2) in Ha. cbv zeta in Ha.
    rewrite HcD, HcT, HcA in Ha. simpl in Ha.
    destruct Ha as (G & I1 & I2 & I3).
    assert (Hid3 : map OrderItem.ID items3 = map OrderItem.ID items2).
    { clear -HF3. induction HF3 as [|x y l k Hxy _ IH]; simpl; [done|].
      destruct Hxy as (E & _). by rewrite E, IH. }
    cbv zeta. simpl. rewrite Hid3, Hids.
    repeat split; assumption || lia.
Qed.

Lemma CreateOrder_exact (env : Env) (order order' : Order.t) (st st' : St) :
  unidentified order ->
  CreateOrder (Order InitDB) env order st = (None, order', st') ->
  let g := generated st in
  let n := length (Order.Items order) in
  let nD := length (all_children DietaryRequirement_rel (Order.Items order)) in
  let nT := length (all_children Toppings_rel (Order.Items order)) in
  let nA := length (all_children Allergies_rel (Order.Items order)) in
  generated st' = (g + 1 + n + nD + nT + nA)%nat /\
  Order.ID order' = shortid_seq env g /\
  map OrderItem.ID (Order.Items order') = map (shortid_seq env) (seq (g + 1) n) /\
  map OrderItemDietaryRequirement.ID
      (all_children DietaryRequirement_rel (Order.Items order')) =
    map (shortid_seq env) (seq (g + 1 + n) nD) /\
  map OrderItemTopping.ID (all_children Toppings_rel (Order.Items order')) =
    map (shortid_seq env) (seq (g + 1 + n + nD) nT) /\
  map OrderItemAllergy.ID (all_children Allergies_rel (Order.Items order')) =
    map (shortid_seq env) (seq (g + 1 + n + nD + nT) nA).
Proof.
  intros [Hid Hun] Hc.
  pose proof (CreateOrder_key _ _ _ _ _ Hc) as Hkey.
  unfold order_key in Hkey. rewrite decide_True in Hkey by done.
  revert Hc. unfold CreateOrder, gorm_Create. simpl. unfold exec at 1. unfold no_op at 1.
  destruct (faulty env (executed st)); [discriminate|]. simpl.
  destruct (create_callbacks env order _) as [[e o] st1] eqn:Hc.
  destruct e as [err|]; [discriminate|].
  destruct (exec env no_op st1) as [e2 st2] eqn:Hx.
  destruct e2; [discriminate|]. intros [= <- <-].
  assert (Hg2 : generated st2 = generated st1).
  { unfold exec, no_op in Hx. destruct (faulty env (executed st1)); [discriminate|].
    by injection Hx as <-. }
  revert Hc. unfold create_callbacks, Order_BeforeCreate, MustGenerate.
  rewrite decide_True by done.
  match goal with
  | |- context [exec env (insert_order ?x) ?s] =>
      set (o2 := x); destruct (exec env (insert_order o2) s) as [e1 st3] eqn:Hins
  end.
  assert (Hitems2 : Order.Items o2 = Order.Items order)
    by (subst o2; destruct (decide _); by destruct order).
  destruct e1 as [err|]; [discriminate|].
  assert (Hg3 : generated st3 = S (generated st)).
  { unfold exec in Hins. simpl in Hins.
    destruct (faulty env (S (executed st))); [discriminate|].
    destruct (insert_order o2 (store st)) as [e' s']. by injection Hins as _ <-. }
  intros Hs. apply saveItems_exact in Hs; [|by rewrite Hitems2].
  cbv zeta in Hs. rewrite Hitems2, Hg3 in Hs.
  destruct Hs as (G & I0 & I1 & I2 & I3).
  cbv zeta. rewrite Hg2, G.
  replace (generated st + 1)%nat with (S (generated st)) by lia.
  repeat split; assumption || lia.
Qed.

(** ** Identifiers handed out in order *)

(** X18. A submission consumes one identifier per row, in a fixed order: the
    order takes the first identifier the generator returns, its items the
    next ones in item order, then all dietary rows, all topping rows and
    all allergy rows take theirs, item by item; nothing else is
    generated. *)
Theorem submission_identifiers_in_order (form : OrderRequest.t) (order order' : Order.t)
    (env : Env) (st st' : St) :
  buildOrder form = Some order ->
  CreateOrder (Order InitDB) env order st = (None, order', st') ->
  let g := generated st in
  let n := length (Order.Items order) in
  let nD := length (all_children DietaryRequirement_rel (Order.Items order)) in
  let nT := length (all_children Toppings_rel (Order.Items order)) in
  let nA := length (all_children Allergies_rel (Order.Items order)) in
  generated st' = (g + 1 + n + nD + nT + nA)%nat /\
  Order.ID order' = shortid_seq env g /\
  map OrderItem.ID (Order.Items order') = map (shortid_seq env) (seq (g + 1) n) /\
  map OrderItemDietaryRequirement.ID
      (all_children DietaryRequirement_rel (Order.Items order')) =
    map (shortid_seq env) (seq (g + 1 + n) nD) /\
  map OrderItemTopping.ID (all_children Toppings_rel (Order.Items order')) =
    map (shortid_seq env) (seq (g + 1 + n + nD) nT) /\
  map OrderItemAllergy.ID (all_children Allergies_rel (Order.Items order')) =
    map (shortid_seq env) (seq (g + 1 + n + nD + nT) nA).
Proof.
  intros Hb Hc. apply (CreateOrder_exact env order order' st st'); [|exact Hc].
  by eapply buildOrder_unidentified.
Qed.

Lemma submission_identifiers_in_order_witness :
  buildOrder two_pizzas_form = Some two_pizzas_order /\
  CreateOrder (Order InitDB) healthy_env two_pizzas_order st0 = created_result /\
  generated (snd created_result) = 16%nat /\
  map OrderItem.ID (Order.Items (snd (fst created_result))) = ["id-1"; "id-2"].
Proof.
  assert (Hb : buildOrder two_pizzas_form = Some two_pizzas_order)
    by (vm_compute; reflexivity).
  assert (H : CreateOrder (Order InitDB) healthy_env two_pizzas_order st0 = created_result)
    by (vm_compute; reflexivity).
  split; [exact Hb|]. split; [exact H|].
  destruct (submission_identifiers_in_order two_pizzas_form two_pizzas_order
              (snd (fst created_result)) healthy_env st0 (snd created_result) Hb H)
    as (Hg & _ & Hi & _).
  split; [exact Hg|exact Hi].
Defined.

Lemma sub_range {X : Type} (f : nat -> X) (g m a n : nat) :
  (g <= a)%nat -> (a + n <= g + m)%nat ->
  exists l1 l2, map f (seq g m) = l1 ++ map f (seq a n) ++ l2.
Proof.
  intros H1 H2.
  replace m with ((a - g) + (n + (g + m - a - n)))%nat by lia.
  rewrite seq_app, seq_app, !map_app.
  replace (g + (a - g))%nat with a by lia. eauto.
Qed.

Lemma sub_range_NoDup (f : nat -> string) (g m a n : nat) :
  NoDup (map f (seq g m)) -> (g <= a)%nat -> (a + n <= g + m)%nat ->
  NoDup (map f (seq a n)).
Proof.
  intros Hnd H1 H2. destruct (sub_range f g m a n H1 H2) as (l1 & l2 & E).
  rewrite E in Hnd. apply NoDup_app in Hnd as (_ & _ & Hnd).
  by apply NoDup_app in Hnd as (? & _).
Qed.

Lemma sub_range_elem (f : nat -> string) (g m a n : nat) (id : string) :
  (g <= a)%nat -> (a + n <= g + m)%nat ->
  id ∈ map f (seq a n) -> id ∈ map f (seq g m).
Proof.
  intros H1 H2 Hin. destruct (sub_range f g m a n H1 H2) as (l1 & l2 & ->).
  apply elem_of_app. right. apply elem_of_app. by left.
Qed.

Lemma unidentified_fresh (env : Env) (order order' : Order.t) (st st' : St) :
  unidentified order ->
  CreateOrder (Order InitDB) env order st = (None, order', st') ->
  NoDup (generated_ids env (generated st) (generated st')) ->
  Forall (fun id => id ∉ used_ids (store st))
         (generated_ids env (generated st) (generated st')) ->
  fresh_graph (store st) order'.
Proof.
  intros Hun Hc Hnd Hunused.
  pose proof (CreateOrder_exact _ _ _ _ _ Hun Hc) as H. cbv zeta in H.
  destruct H as (G & I0 & I1 & ID & IT & IA).
  unfold generated_ids in *.
  set (g := generated st) in *.
  set (n := length (Order.Items order)) in *.
  set (nD := length (all_children DietaryRequirement_rel (Order.Items order))) in *.
  set (nT := length (all_children Toppings_rel (Order.Items order))) in *.
  set (nA := length (all_children Allergies_rel (Order.Items order))) in *.
  set (m := (generated st' - g)%nat) in *.
  assert (Hm : m = (1 + n + nD + nT + nA)%nat) by (subst m; lia).
  assert (Hun' : forall a k id, (g <= a)%nat -> (a + k <= g + m)%nat ->
            id ∈ map (shortid_seq env) (seq a k) -> id ∉ used_ids (store st)).
  { intros a k id H1 H2 Hin.
    eapply Forall_forall in Hunused; [exact Hunused|].
    by eapply sub_range_elem. }
  assert (Hsplit : forall id, id ∉ used_ids (store st) ->
            (id ∉ item_owners (store st)) /\ (id ∉ item_keys (store st)) /\
            (id ∉ child_keys DietaryRequirement_rel (store st)) /\
            (id ∉ child_owners DietaryRequirement_rel (store st)) /\
            (id ∉ child_keys Toppings_rel (store st)) /\
            (id ∉ child_owners Toppings_rel (store st)) /\
            (id ∉ child_keys Allergies_rel (store st)) /\
            (id ∉ child_owners Allergies_rel (store st))).
  { intros id Hid. unfold used_ids in Hid.
    repeat (apply not_elem_of_app in Hid as [? Hid]). repeat split; assumption. }
  unfold fresh_graph, children_fresh.
  rewrite I0, I1.
  change (map (hm_ID DietaryRequirement_rel)
            (all_children DietaryRequirement_rel (Order.Items order'))) with
    (map OrderItemDietaryRequirement.ID
       (all_children DietaryRequirement_rel (Order.Items order'))).
  change (map (hm_ID Toppings_rel) (all_children Toppings_rel (Order.Items order'))) with
    (map OrderItemTopping.ID (all_children Toppings_rel (Order.Items order'))).
  change (map (hm_ID Allergies_rel) (all_children Allergies_rel (Order.Items order'))) with
    (map OrderItemAllergy.ID (all_children Allergies_rel (Order.Items order'))).
  rewrite ID, IT, IA.
  split.
  { apply (Hsplit (shortid_seq env g)). apply (Hun' g 1%nat); [lia|lia|]. simpl. left. }
  split; [eapply sub_range_NoDup; [exact Hnd|lia|lia]|].
  split; [intros id Hid; apply Hsplit; apply (Hun' (g + 1)%nat n); [lia|lia|exact Hid]|].
  split; [|split].
  - split; [eapply sub_range_NoDup; [exact Hnd|lia|lia]|]. split.
    + intros id Hid. apply Hsplit. apply (Hun' (g + 1 + n)%nat nD); [lia|lia|exact Hid].
    + intros id Hid. apply Hsplit. apply (Hun' (g + 1)%nat n); [lia|lia|exact Hid].
  - split; [eapply sub_range_NoDup; [exact Hnd|lia|lia]|]. split.
    + intros id Hid. apply Hsplit.
      apply (Hun' (g + 1 + n + nD)%nat nT); [lia|lia|exact Hid].
    + intros id Hid. apply Hsplit. apply (Hun' (g + 1)%nat n); [lia|lia|exact Hid].
  - split; [eapply sub_range_NoDup; [exact Hnd|lia|lia]|]. split.
    + intros id Hid. apply Hsplit.
      apply (Hun' (g + 1 + n + nD + nT)%nat nA); [lia|lia|exact Hid].
    + intros id Hid. apply Hsplit. apply (Hun' (g + 1)%nat n); [lia|lia|exact Hid].
Qed.

(** X19. What is submitted is what is read back: when the identifiers the
    generator returns during the call are pairwise distinct and used nowhere
    in the item and junction tables, and the storage engine answers, the
    order a submission creates is returned by [GetOrder] exactly as
    [CreateOrder] left it, and its content is the order the handler
    built. *)
Theorem submission_reads_back (form : OrderRequest.t) (order order' : Order.t)
    (env : Env) (st st' : St) :
  buildOrder form = Some order ->
  CreateOrder (Order InitDB) env order st = (None, order', st') ->
  NoDup (generated_ids env (generated st) (generated st')) ->
  Forall (fun id => id ∉ used_ids (store st))
         (generated_ids env (generated st) (generated st')) ->
  no_faults_from env (executed st') ->
  fst (GetOrder (Order InitDB) env (Order.ID order') st') = (order', None) /\
  strip order' = order.
Proof.
  intros Hb Hc Hnd Hunused Hok.
  pose proof (buildOrder_unidentified _ _ Hb) as Hun.
  pose proof (unidentified_fresh _ _ _ _ _ Hun Hc Hnd Hunused) as Hfresh.
  unfold CreateOrder in Hc.
  apply gorm_Create_success in Hc as (_ & Hcr & Hnew & Hs);
    [|exact InitDB_transactional|by apply unidentified_distinct].
  split.
  - eapply GetOrder_committed; eauto. by eapply created_linked.
  - rewrite (created_strip _ _ _ _ _ Hcr). exact (buildOrder_blank _ _ Hb).
Qed.

Lemma submission_reads_back_witness :
  buildOrder own_form = Some own_order /\
  CreateOrder (Order InitDB) healthy_env own_order (snd created_result) = second_result /\
  NoDup (generated_ids healthy_env (generated (snd created_result))
           (generated (snd second_result))) /\
  Forall (fun id => id ∉ used_ids (store (snd created_result)))
         (generated_ids healthy_env (generated (snd created_result))
            (generated (snd second_result))) /\
  no_faults_from healthy_env (executed (snd second_result)) /\
  fst (GetOrder (Order InitDB) healthy_env (Order.ID (snd (fst second_result)))
         (snd second_result)) = (snd (fst second_result), None) /\
  strip (snd (fst second_result)) = own_order.
Proof.
  assert (Hb : buildOrder own_form = Some own_order) by (vm_compute; reflexivity).
  assert (H : CreateOrder (Order InitDB) healthy_env own_order (snd created_result) =
              second_result) by (vm_compute; reflexivity).
  assert (Hnd : NoDup (generated_ids healthy_env (generated (snd created_result))
                         (generated (snd second_result)))) by by_computation.
  assert (Hun : Forall (fun id => id ∉ used_ids (store (snd created_result)))
                  (generated_ids healthy_env (generated (snd created_result))
                     (generated (snd second_result)))) by by_computation.
  assert (Hok : no_faults_from healthy_env (executed (snd second_result)))
    by (intros k _; reflexivity).
  split; [exact Hb|]. split; [exact H|]. split; [exact Hnd|]. split; [exact Hun|].
  split; [exact Hok|].
  exact (submission_reads_back own_form own_order (snd (fst second_result)) healthy_env
           (snd created_result) (snd second_result) Hb H Hnd Hun Hok).
Defined.

(** ** Orders without items *)

(** X20. [CreateOrder] does not ask for items: an order without any is
    accepted, takes at most one identifier, and adds its header to the order
    table and nothing to the four other tables. *)
Theorem order_without_items_is_stored_alone (env : Env) (order order' : Order.t)
    (st st' : St) :
  Order.Items order = [] ->
  CreateOrder (Order InitDB) env order st = (None, order', st') ->
  Order.Items order' = [] /\
  (generated st' <= generated st + 1)%nat /\
  store st' =
    mkStore (orders (store st) ++ [order']) (order_items (store st))
      (order_item_dietary_requirements (store st)) (order_item_toppings (store st))
      (order_item_allergies (store st)).
Proof.
  intros Hitems Hc.
  pose proof Hc as Hc'. unfold CreateOrder in Hc'.
  apply gorm_Create_success in Hc' as (_ & Hcr & _ & Hs);
    [|exact InitDB_transactional
     |unfold distinct_supplied; rewrite Hitems; repeat split; apply NoDup_nil_2].
  destruct Hcr as (id' & items' & _ & Ho & HF).
  rewrite Hitems in HF. inversion HF; subst items'.
  assert (Hi : Order.Items order' = []) by (by rewrite Ho).
  split; [exact Hi|]. split.
  - clear Hs Ho HF. unfold CreateOrder, gorm_Create in Hc.
    rewrite InitDB_transactional in Hc. unfold exec, no_op in Hc. simpl in Hc.
    destruct (faulty env (executed st)); [discriminate|].
    unfold create_callbacks, Order_BeforeCreate in Hc.
    destruct (decide (Order.ID order = "")); simpl in Hc.
    + unfold exec in Hc. simpl in Hc.
      destruct (faulty env (S (executed st))); [discriminate|].
      destruct (insert_order _ _) as [[err|] s1]; [discriminate|].
      unfold saveItems in Hc. simpl in Hc.
      destruct (decide _) in Hc; simpl in Hc; rewrite Hitems in Hc; simpl in Hc;
        (destruct (faulty env (S (S (executed st)))); [discriminate|]);
        injection Hc as _ <-; simpl; lia.
    + unfold exec in Hc. simpl in Hc.
      destruct (faulty env (S (executed st))); [discriminate|].
      destruct (insert_order _ _) as [[err|] s1]; [discriminate|].
      unfold saveItems in Hc. simpl in Hc.
      destruct (decide _) in Hc; simpl in Hc; rewrite Hitems in Hc; simpl in Hc;
        (destruct (faulty env (S (S (executed st)))); [discriminate|]);
        injection Hc as _ <-; simpl; lia.
  - rewrite Hs. unfold committed. rewrite Hi. simpl.
    unfold upsert_item_rows, upsert_rows, upsert_all. simpl.
    replace (order_row order') with order'; [reflexivity|].
    unfold order_row. rewrite Ho. reflexivity.
Qed.

Lemma order_without_items_is_stored_alone_witness :
  Order.Items bare_order = [] /\
  CreateOrder (Order InitDB) healthy_env bare_order st0 = bare_result /\
  Order.Items (snd (fst bare_result)) = [] /\
  (generated (snd bare_result) <= generated st0 + 1)%nat /\
  store (snd bare_result) =
    mkStore (orders (store st0) ++ [snd (fst bare_result)]) (order_items (store st0))
      (order_item_dietary_requirements (store st0)) (order_item_toppings (store st0))
      (order_item_allergies (store st0)).
Proof.
  assert (Hi : Order.Items bare_order = []) by reflexivity.
  assert (H : CreateOrder (Order InitDB) healthy_env bare_order st0 = bare_result)
    by (vm_compute; reflexivity).
  split; [exact Hi|]. split; [exact H|].
  exact (order_without_items_is_stored_alone healthy_env bare_order
           (snd (fst bare_result)) st0 (snd bare_result) Hi H).
Defined.
